(** * SLAC QR daily-time-record server: attendance scans and payroll

    A shallow embedding of [main.go]: the scan handler [handleScan], the
    payroll report [handlePayroll] and the CSV export [handlePayrollCSV],
    over a relational model of the two SQLite tables [faculty] and [dtr].

    Conventions of the embedding.
    - Go [int] and SQLite [INTEGER] values are [Z].
    - A table is the list of its rows in rowid order; the columns the
      handlers scan into Go strings, ints and floats hold no NULL, the two
      time columns of [dtr] may.  A join lists its rows person by person
      in table order.
    - A statement sent to the database either fails as a whole, leaving the
      tables as they were, or takes effect as a whole.  Which statements
      fail is an input of each handler (a record of flags).
    - [range] over a Go map visits the entries in an unspecified order; the
      order is an input of the payroll handlers ([RangeOrder]).
    - Times and numbers are modelled twice.  The scan handler, the
      administration pages and the comparison of the two payroll handlers
      use instants and exact numbers: there [time.Time] is the number of
      nanoseconds since the zero [Time] (0001-01-01 00:00:00 UTC),
      [time.Duration] is an int64 count of nanoseconds, [Time.Sub]
      saturates as in the Go library, [float64] is an exact rational
      ([Qc]) and [BETWEEN] compares instants.  The numbers of the payroll
      and its date range are stated on the data of the machine, in the
      modules [Float64] and [Machine]: there [float64] is an IEEE 754
      binary64 number and every operation rounds to the nearest number,
      ties to even; a [time.Time] has its instant and the text of its
      [String()]; the driver stores a [time.Time] as that text and reads
      the instant back from it; and [BETWEEN] compares the texts byte by
      byte, as SQLite does. *)

From Stdlib Require Import ZArith QArith Qcanon Lqa SpecFloat.
From stdpp Require Import gmap strings list fin_maps numbers vector.

Local Open Scope Z_scope.

(** ** Go library layer *)

Module GoStrings.

(** [strings.TrimPrefix(s, prefix)]: [s] without the leading [prefix], or
    [s] itself when it does not start with [prefix]. *)
Definition TrimPrefix (s prefix : string) : string :=
  if String.prefix prefix s
  then String.substring (String.length prefix)
                        (String.length s - String.length prefix)%nat s
  else s.

End GoStrings.

Module GoMath.

(** [float64], idealised as an exact rational. *)
Definition float64 : Set := Qc.

Definition of_int (n : Z) : float64 := Qc_of_Z n.

(** [math.Round]: the nearest integer, halves away from zero. *)
Definition RoundZ (x : float64) : Z :=
  let n := Qnum (this x) in
  let d := Zpos (Qden (this x)) in
  Z.quot (2 * n + Z.sgn n * d) (2 * d).

Definition Round (x : float64) : float64 := of_int (RoundZ x).

End GoMath.

Module GoTime.
Import GoMath.

Definition Time : Set := Z.
Definition Duration : Set := Z.

Definition Nanosecond : Duration := 1.
Definition Second : Duration := 1000000000 * Nanosecond.
Definition Minute : Duration := 60 * Second.
Definition Hour : Duration := 60 * Minute.

Definition minDuration : Duration := - 2 ^ 63.
Definition maxDuration : Duration := 2 ^ 63 - 1.

(** The zero [Time], [Time{}]. *)
Definition zeroTime : Time := 0.

Definition IsZero (t : Time) : bool := t =? 0.

(** [t.Sub(u)]: the difference, clamped to the int64 range. *)
Definition Sub (t u : Time) : Duration :=
  let d := t - u in
  if d <? minDuration then minDuration
  else if maxDuration <? d then maxDuration
  else d.

(** [d.Hours()]. *)
Definition Hours (d : Duration) : float64 :=
  let hour := Z.quot d Hour in
  let nsec := Z.rem d Hour in
  (of_int hour + of_int nsec / of_int (60 * 60 * 1000000000))%Qc.

(** *** [time.Parse("2006-01-02", value)] *)

Definition isDigit (c : Ascii.ascii) : bool :=
  let n := Z.of_nat (Ascii.nat_of_ascii c) in (48 <=? n) && (n <=? 57).

Definition digitVal (c : Ascii.ascii) : Z := Z.of_nat (Ascii.nat_of_ascii c) - 48.

Definition isLeap (year : Z) : bool :=
  (year mod 4 =? 0) && (negb (year mod 100 =? 0) || (year mod 400 =? 0)).

Definition daysIn (month year : Z) : Z :=
  if month =? 2 then (if isLeap year then 29 else 28)
  else if (month =? 4) || (month =? 6) || (month =? 9) || (month =? 11)
       then 30 else 31.

(** Days of a non-leap year before the first of [month]. *)
Definition daysBefore (month : Z) : Z :=
  match month with
  | 1 => 0 | 2 => 31 | 3 => 59 | 4 => 90 | 5 => 120 | 6 => 151
  | 7 => 181 | 8 => 212 | 9 => 243 | 10 => 273 | 11 => 304 | _ => 334
  end.

(** Days from 0001-01-01 to the first day of [year] (proleptic Gregorian
    calendar; negative for year 0). *)
Definition daysSinceEpoch (year : Z) : Z :=
  let y := year - 1 in
  365 * y + y / 4 - y / 100 + y / 400.

(** [time.Date(year, month, day, 0, 0, 0, 0, time.UTC)]. *)
Definition Date (year month day : Z) : Time :=
  let leapDay := if isLeap year && (3 <=? month) then 1 else 0 in
  (daysSinceEpoch year + daysBefore month + leapDay + (day - 1))
  * (24 * Hour).

(** Go's [error] value of [Parse], reduced to nil / non-nil. *)
Inductive error : Set := ParseError.

Definition ParseDate (value : string) : option Time :=
  match String.list_ascii_of_string value with
  | [y1; y2; y3; y4; s1; m1; m2; s2; d1; d2] =>
      if forallb isDigit [y1; y2; y3; y4; m1; m2; d1; d2]
         && Ascii.eqb s1 (Ascii.ascii_of_nat 45) && Ascii.eqb s2 (Ascii.ascii_of_nat 45)
      then
        let year := 1000 * digitVal y1 + 100 * digitVal y2
                    + 10 * digitVal y3 + digitVal y4 in
        let month := 10 * digitVal m1 + digitVal m2 in
        let day := 10 * digitVal d1 + digitVal d2 in
        if (1 <=? month) && (month <=? 12)
           && (1 <=? day) && (day <=? daysIn month year)
        then Some (Date year month day)
        else None
      else None
  | _ => None
  end.

(** [time.Parse] with the layout fixed to ["2006-01-02"]: on an error the
    returned [Time] is the zero [Time]. *)
Definition Parse (value : string) : Time * option error :=
  match ParseDate value with
  | Some t => (t, None)
  | None => (zeroTime, Some ParseError)
  end.

End GoTime.

(** ** The database: tables and the statements the handlers send *)

Module Sql.
Import GoMath GoTime.

(** [sql.NullTime]: [None] is SQL NULL ([Valid = false]). *)
Definition NullTime : Set := option Time.

(** A row of table [faculty]. *)
Record Faculty : Set := mkFaculty {
  fac_id : Z;
  fac_name : string;
  fac_role : string;
  fac_rate_per_hour : float64;
  fac_active : Z;
  fac_token : string
}.

(** A row of table [dtr]. *)
Record Dtr : Set := mkDtr {
  dtr_id : Z;
  dtr_faculty_id : Z;
  dtr_in_time : NullTime;
  dtr_out_time : NullTime
}.

Record DB : Set := mkDB {
  faculty : list Faculty;
  dtr : list Dtr
}.

(** Errors of [database/sql]: [sql.ErrNoRows], or any other failure of
    the driver (lock timeout, I/O error, ...). *)
Inductive sql_error : Set := ErrNoRows | ErrDriver.

(** [SELECT id,name,role FROM faculty WHERE token=?], first row. *)
Definition selectFacultyByToken (fault : bool) (db : DB) (token : string)
  : sql_error + (Z * string * string) :=
  if fault then inl ErrDriver
  else match filter (λ f, fac_token f = token) (faculty db) with
       | f :: _ => inr (fac_id f, fac_name f, fac_role f)
       | [] => inl ErrNoRows
       end.

(** [a] sorts strictly before [b] under [ORDER BY in_time DESC]; NULL is
    the smallest value. *)
Definition sortsBefore (a b : NullTime) : bool :=
  match a, b with
  | Some x, Some y => y <? x
  | Some _, None => true
  | None, _ => false
  end.

(** [ORDER BY in_time DESC LIMIT 1]: among equal keys the earliest row of
    the table is kept. *)
Fixpoint firstByInTimeDesc (rows : list Dtr) : option Dtr :=
  match rows with
  | [] => None
  | d :: rest =>
      match firstByInTimeDesc rest with
      | Some e => if sortsBefore (dtr_in_time e) (dtr_in_time d)
                  then Some e else Some d
      | None => Some d
      end
  end.

(** The rows [WHERE faculty_id=? AND out_time IS NULL]. *)
Definition openDtr (db : DB) (fid : Z) : list Dtr :=
  filter (λ d, dtr_faculty_id d = fid ∧ dtr_out_time d = None) (dtr db).

(** [SELECT id,in_time FROM dtr WHERE faculty_id=? AND out_time IS NULL
    ORDER BY in_time DESC LIMIT 1]. *)
Definition selectOpenDtr (fault : bool) (db : DB) (fid : Z)
  : sql_error + (Z * NullTime) :=
  if fault then inl ErrDriver
  else match firstByInTimeDesc (openDtr db fid) with
       | Some d => inr (dtr_id d, dtr_in_time d)
       | None => inl ErrNoRows
       end.

(** The id an AUTOINCREMENT insert receives.  No statement of the program
    deletes from [dtr], so the counter is the largest id in the table. *)
Definition nextDtrID (db : DB) : Z := 1 + foldr Z.max 0 (dtr_id <$> dtr db).

(** [INSERT INTO dtr(faculty_id,in_time) VALUES (?,?)]. *)
Definition insertDtr (fault : bool) (db : DB) (fid : Z) (now : Time)
  : DB * option sql_error :=
  if fault then (db, Some ErrDriver)
  else (mkDB (faculty db)
             (dtr db ++ [mkDtr (nextDtrID db) fid (Some now) None]),
        None).

Definition setOutTime (now : Time) (id : Z) (d : Dtr) : Dtr :=
  if decide (dtr_id d = id)
  then mkDtr (dtr_id d) (dtr_faculty_id d) (dtr_in_time d) (Some now)
  else d.

(** [UPDATE dtr SET out_time=? WHERE id=?]. *)
Definition updateDtrOutTime (fault : bool) (db : DB) (now : Time) (id : Z)
  : DB * option sql_error :=
  if fault then (db, Some ErrDriver)
  else (mkDB (faculty db) (setOutTime now id <$> dtr db), None).

Definition flipActive (id : Z) (f : Faculty) : Faculty :=
  if decide (fac_id f = id)
  then mkFaculty (fac_id f) (fac_name f) (fac_role f)
                 (fac_rate_per_hour f) (1 - fac_active f) (fac_token f)
  else f.

(** [UPDATE faculty SET active=1-active WHERE id=?], the statement of
    [handleFacultyToggle]. *)
Definition updateFacultyToggle (db : DB) (id : Z) : DB :=
  mkDB (flipActive id <$> faculty db) (dtr db).

End Sql.

(** ** The scan handler *)

Section Scan.
Import GoStrings GoTime Sql.

(** What [handleScan] writes to the client: [http.Error] with a status
    code, or the result page with its status line, the person's name and
    role and the time of the scan. *)
Inductive ScanResponse : Set :=
| ScanError (code : Z) (msg : string)
| ScanPage (status name role : string) (at_time : Time).

(** Which of the three statements of one [handleScan] call fail. *)
Record ScanFaults : Set := mkScanFaults {
  fault_faculty : bool;
  fault_lookup : bool;
  fault_write : bool
}.

Definition noScanFaults : ScanFaults := mkScanFaults false false false.

(** [handleScan], on the request path; [now] is the value of
    [time.Now()]. *)
Definition handleScan (fl : ScanFaults) (db : DB) (path : string)
    (now : Time) : DB * ScanResponse :=
  let token := TrimPrefix path "/scan/" in
  match selectFacultyByToken (fault_faculty fl) db token with
  | inl _ => (db, ScanError 404 "Faculty not found")
  | inr (fid, name, role) =>
      match selectOpenDtr (fault_lookup fl) db fid with
      | inl ErrNoRows =>
          (* clock IN *)
          let '(db', _) := insertDtr (fault_write fl) db fid now in
          (db', ScanPage "Clock IN" name role now)
      | inr (dtrID, inTime) =>
          (* clock OUT *)
          let '(db', _) := updateDtrOutTime (fault_write fl) db now dtrID in
          (db', ScanPage "Clock OUT" name role now)
      | inl _ => (db, ScanError 500 "DB error")
      end
  end.

(** Scans handled one after the other, each at its own time. *)
Fixpoint scanAll (fl : ScanFaults) (db : DB) (path : string)
    (nows : list Time) : DB * list ScanResponse :=
  match nows with
  | [] => (db, [])
  | now :: rest =>
      let '(db1, r) := handleScan fl db path now in
      let '(db2, rs) := scanAll fl db1 path rest in
      (db2, r :: rs)
  end.

End Scan.

(** ** The payroll handlers *)

(** The order in which one [range] loop visits a Go map: some enumeration
    of its entries. *)
Record RangeOrder : Type := mkRangeOrder {
  range_of : ∀ A : Type, gmap Z A → list (Z * A);
  range_perm : ∀ (A : Type) (m : gmap Z A), range_of A m ≡ₚ map_to_list m
}.

Definition keyOrder : RangeOrder :=
  mkRangeOrder (λ A m, map_to_list m) (λ A m, reflexivity _).

Definition reverseKeyOrder : RangeOrder :=
  mkRangeOrder (λ A m, reverse (map_to_list m)) (λ A m, reverse_Permutation _).

Section Payroll.
Import GoMath GoTime Sql.
Local Open Scope Qc_scope.

(** A row of the joins: the columns [f.id, f.name, f.role,
    f.rate_per_hour, d.in_time, d.out_time]. *)
Record JoinRow : Set := mkJoinRow {
  j_id : Z;
  j_name : string;
  j_role : string;
  j_rate : float64;
  j_in_time : NullTime;
  j_out_time : NullTime
}.

Definition joined (f : Faculty) (inT outT : NullTime) : JoinRow :=
  mkJoinRow (fac_id f) (fac_name f) (fac_role f) (fac_rate_per_hour f)
            inT outT.

(** [t BETWEEN lo AND hi]; NULL is never between. *)
Definition between (t : NullTime) (lo hi : Time) : bool :=
  match t with
  | Some x => ((lo <=? x) && (x <=? hi))%Z
  | None => false
  end.

(** [FROM faculty f LEFT JOIN dtr d ON on(f,d)]: a person without a
    matching [dtr] row yields one row with NULL times. *)
Definition leftJoin (on : Faculty → Dtr → bool) (db : DB) : list JoinRow :=
  faculty db ≫= λ f,
    match List.filter (on f) (dtr db) with
    | [] => [joined f None None]
    | ds => (λ d, joined f (dtr_in_time d) (dtr_out_time d)) <$> ds
    end.

(** [ON d.faculty_id = f.id AND d.in_time BETWEEN ? AND ?]. *)
Definition onPayroll (start end_ : Time) (f : Faculty) (d : Dtr) : bool :=
  bool_decide (dtr_faculty_id d = fac_id f)
  && between (dtr_in_time d) start end_.

(** [ON d.faculty_id=f.id]. *)
Definition onCSV (f : Faculty) (d : Dtr) : bool :=
  bool_decide (dtr_faculty_id d = fac_id f).

(** The query of [handlePayroll]:
    [FROM faculty f LEFT JOIN dtr d
     ON d.faculty_id = f.id AND d.in_time BETWEEN ? AND ?]. *)
Definition payrollQuery (fault : bool) (db : DB) (start end_ : Time)
  : sql_error + list JoinRow :=
  if fault then inl ErrDriver
  else inr (leftJoin (onPayroll start end_) db).

(** The query of [handlePayrollCSV]:
    [FROM faculty f LEFT JOIN dtr d ON d.faculty_id=f.id
     WHERE d.in_time BETWEEN ? AND ?]. *)
Definition payrollCSVQuery (fault : bool) (db : DB) (start end_ : Time)
  : sql_error + list JoinRow :=
  if fault then inl ErrDriver
  else inr (List.filter (λ j, between (j_in_time j) start end_)
              (leftJoin onCSV db)).

(** [type Row struct] of [handlePayroll]. *)
Record Row : Set := mkRow {
  FacultyID : Z;
  Name : string;
  Role : string;
  RatePerHour : float64;
  TotalHours : float64;
  Pay : float64
}.

Definition addTotalHours (dur : float64) (r : Row) : Row :=
  mkRow (FacultyID r) (Name r) (Role r) (RatePerHour r)
        (TotalHours r + dur) (Pay r).

(** The body of the [for rs.Next()] loop of [handlePayroll]. *)
Definition payrollScanRow (m : gmap Z Row) (j : JoinRow) : gmap Z Row :=
  let id := j_id j in
  let m1 := match m !! id with
            | Some _ => m
            | None => <[id := mkRow id (j_name j) (j_role j) (j_rate j) 0 0]> m
            end in
  match j_in_time j, j_out_time j with
  | Some inT, Some outT =>
      let dur := Hours (Sub outT inT) in
      if decide (0 < dur) then alter (addTotalHours dur) id m1 else m1
  | _, _ => m1
  end.

(** The body of the [for _, r := range m] loop: round, price, total. *)
Definition finishRow (r : Row) : Row :=
  let h := Round (TotalHours r * of_int 4) / of_int 4 in
  mkRow (FacultyID r) (Name r) (Role r) (RatePerHour r)
        h (h * RatePerHour r).

Definition payrollRange (entries : list (Z * Row)) : list Row * float64 :=
  foldl (λ '(rows, grand) e,
           let r := finishRow e.2 in (rows ++ [r], grand + Pay r))
        ([], 0) entries.

(** What [handlePayroll] answers: [http.Error], or the data given to the
    template ([Start] and [End] before formatting). *)
Inductive PayrollResponse : Set :=
| PayrollError (code : Z)
| PayrollPage (Start End : Time) (Rows : list Row) (GrandTotal : float64).

(** The first lines of both payroll handlers, on the form values [start]
    and [end] (the empty string when absent) and the value [now] of
    [time.Now()]: the errors of [Parse] are dropped, and a zero [end] is
    replaced by [now]. *)
Definition formRange (startValue endValue : string) (now : Time)
  : Time * Time :=
  let '(start, _) := Parse startValue in
  let '(end0, _) := Parse endValue in
  let end_ := if IsZero end0 then now else end0 in
  (start, end_).

(** The rest of [handlePayroll]: query, accumulate, round and total. *)
Definition payrollReport (ord : RangeOrder) (fault : bool) (db : DB)
    (start end_ : Time) : PayrollResponse :=
  match payrollQuery fault db start end_ with
  | inl _ => PayrollError 500
  | inr rs =>
      let m := foldl payrollScanRow ∅ rs in
      let '(rows, grand) := payrollRange (range_of ord Row m) in
      PayrollPage start end_ rows grand
  end.

Definition handlePayroll (ord : RangeOrder) (fault : bool) (db : DB)
    (startValue endValue : string) (now : Time) : PayrollResponse :=
  let '(start, end_) := formRange startValue endValue now in
  payrollReport ord fault db start end_.

(** The anonymous struct of the map of [handlePayrollCSV]. *)
Record CsvEntry : Set := mkCsvEntry {
  name : string;
  role : string;
  rate : float64;
  hours : float64
}.

(** The body of the [for rs.Next()] loop of [handlePayrollCSV]; a missing
    key reads as the zero struct. *)
Definition csvScanRow (m : gmap Z CsvEntry) (j : JoinRow) : gmap Z CsvEntry :=
  let id := j_id j in
  let tmp := default (mkCsvEntry "" "" 0 0) (m !! id) in
  let tmp := mkCsvEntry (j_name j) (j_role j) (j_rate j) (hours tmp) in
  let tmp := match j_in_time j, j_out_time j with
             | Some inT, Some outT =>
                 mkCsvEntry (name tmp) (role tmp) (rate tmp)
                            (hours tmp + Hours (Sub outT inT))
             | _, _ => tmp
             end in
  <[id := tmp]> m.

(** A record of the CSV file after the header, with the numbers as they
    are before [Sprintf("%.2f")] prints them. *)
Record CsvRecord : Set := mkCsvRecord {
  csv_id : Z;
  csv_name : string;
  csv_role : string;
  csv_rate : float64;
  csv_hours : float64;
  csv_pay : float64
}.

Definition csvRecord (e : Z * CsvEntry) : CsvRecord :=
  let '(id, r) := e in
  let h := Round (hours r * of_int 4) / of_int 4 in
  let pay := h * rate r in
  mkCsvRecord id (name r) (role r) (rate r) h pay.

(** What [handlePayrollCSV] does: it ignores the error of [db.Query] and
    dereferences the nil result when the query failed. *)
Inductive CsvResponse : Set :=
| CsvPanic
| CsvFile (records : list CsvRecord).

(** Equality of answers is decidable, which lets closed examples be checked
    by evaluation. *)
#[global] Instance float64_eq_dec : EqDecision float64 := Qc_eq_dec.
#[global] Instance Row_eq_dec : EqDecision Row.
Proof. solve_decision. Defined.
#[global] Instance PayrollResponse_eq_dec : EqDecision PayrollResponse.
Proof. solve_decision. Defined.
#[global] Instance CsvRecord_eq_dec : EqDecision CsvRecord.
Proof. solve_decision. Defined.
#[global] Instance CsvResponse_eq_dec : EqDecision CsvResponse.
Proof. solve_decision. Defined.

(** The rest of [handlePayrollCSV] after the date handling. *)
Definition csvExport (ord : RangeOrder) (fault : bool) (db : DB)
    (start end_ : Time) : CsvResponse :=
  match payrollCSVQuery fault db start end_ with
  | inl _ => CsvPanic
  | inr rs =>
      let m := foldl csvScanRow ∅ rs in
      CsvFile (csvRecord <$> range_of ord CsvEntry m)
  end.

Definition handlePayrollCSV (ord : RangeOrder) (fault : bool) (db : DB)
    (startValue endValue : string) (now : Time) : CsvResponse :=
  let '(start, end_) := formRange startValue endValue now in
  csvExport ord fault db start end_.

End Payroll.

(** ** Concurrent scans: handlers whose statements interleave *)

Section Concurrent.
Import GoStrings GoTime Sql.

(** Where one goroutine running [handleScan] stands: between two of its
    statements it holds only its local variables. *)
Inductive ScanThread : Set :=
| Arrived (path : string) (now : Time)
| Resolved (fid : Z) (name role : string) (now : Time)
| LookedUp (fid : Z) (name role : string) (now : Time)
           (found : sql_error + (Z * NullTime))
| Answered (resp : ScanResponse).

(** One statement of [handleScan], executed by the database as a whole. *)
Definition scanStep (fault : bool) (db : DB) (th : ScanThread)
  : DB * ScanThread :=
  match th with
  | Arrived path now =>
      match selectFacultyByToken fault db (TrimPrefix path "/scan/") with
      | inl _ => (db, Answered (ScanError 404 "Faculty not found"))
      | inr (fid, name, role) => (db, Resolved fid name role now)
      end
  | Resolved fid name role now =>
      (db, LookedUp fid name role now (selectOpenDtr fault db fid))
  | LookedUp fid name role now found =>
      match found with
      | inl ErrNoRows =>
          let '(db', _) := insertDtr fault db fid now in
          (db', Answered (ScanPage "Clock IN" name role now))
      | inr (dtrID, inTime) =>
          let '(db', _) := updateDtrOutTime fault db now dtrID in
          (db', Answered (ScanPage "Clock OUT" name role now))
      | inl _ => (db, Answered (ScanError 500 "DB error"))
      end
  | Answered _ => (db, th)
  end.

(** The goroutines of the requests in flight share the database; a
    schedule names, step by step, the goroutine that runs next. *)
Definition poolStep (st : DB * list ScanThread) (i : nat)
  : DB * list ScanThread :=
  match st.2 !! i with
  | Some th => let '(db', th') := scanStep false st.1 th in
               (db', <[i := th']> st.2)
  | None => st
  end.

Definition runSchedule (sched : list nat) (st : DB * list ScanThread)
  : DB * list ScanThread :=
  foldl poolStep st sched.

End Concurrent.

(** ** Reference descriptions used in the statements *)

Section Expected.
Import GoTime Sql.

(** Result pages whose status lines alternate, the first one "Clock IN"
    when [inFirst] holds. *)
Fixpoint alternating (inFirst : bool) (nm rl : string) (nows : list Time)
  : list ScanResponse :=
  match nows with
  | [] => []
  | now :: rest =>
      ScanPage (if inFirst then "Clock IN" else "Clock OUT") nm rl now
      :: alternating (negb inFirst) nm rl rest
  end.

(** The rows that scans at the times [nows] of one person add to the
    log: consecutive times pair up into closed rows with consecutive ids,
    and an odd last time leaves one open row. *)
Fixpoint pairedLog (fid next : Z) (nows : list Time) : list Dtr :=
  match nows with
  | [] => []
  | [t] => [mkDtr next fid (Some t) None]
  | t1 :: t2 :: rest =>
      mkDtr next fid (Some t1) (Some t2) :: pairedLog fid (next + 1) rest
  end.

Local Open Scope Qc_scope.
Import GoMath.

(** The hours one joined row adds in [handlePayroll]: the duration of a
    row with both times when it is positive, and nothing otherwise. *)
Definition contribution (j : JoinRow) : float64 :=
  match j_in_time j, j_out_time j with
  | Some inT, Some outT =>
      let dur := Hours (Sub outT inT) in
      if decide (0 < dur) then dur else 0
  | _, _ => 0
  end.

(** The hours one joined row adds in [handlePayrollCSV]: the duration of
    a row with both times, whatever its sign. *)
Definition csvContribution (j : JoinRow) : float64 :=
  match j_in_time j, j_out_time j with
  | Some inT, Some outT => Hours (Sub outT inT)
  | _, _ => 0
  end.

(** The sum of [w] over the joined rows of person [id]. *)
Fixpoint sumFor (w : JoinRow → float64) (id : Z) (rs : list JoinRow)
  : float64 :=
  match rs with
  | [] => 0
  | j :: rest =>
      if decide (j_id j = id) then w j + sumFor w id rest
      else sumFor w id rest
  end.

(** The entry [handlePayroll] creates for a person at the first row. *)
Definition freshRow (id : Z) (j : JoinRow) : Row :=
  mkRow id (j_name j) (j_role j) (j_rate j) 0 0.

(** The zero value of the struct of [handlePayrollCSV]. *)
Definition csvZero : CsvEntry := mkCsvEntry "" "" 0 0.

(** The row [handlePayroll] shows for the person of the joined row [j],
    given the whole result set [rs]. *)
Definition roundedHours (id : Z) (rs : list JoinRow) : float64 :=
  Round (sumFor contribution id rs * of_int 4) / of_int 4.

Definition expectedRow (rs : list JoinRow) (j : JoinRow) : Row :=
  let h := roundedHours (j_id j) rs in
  mkRow (j_id j) (j_name j) (j_role j) (j_rate j) h (h * j_rate j).

(** The rows of the page, from the result set [rs] of the query. *)
Definition reportRows (ord : RangeOrder) (rs : list JoinRow) : list Row :=
  (finishRow ∘ snd) <$> range_of ord Row (foldl payrollScanRow ∅ rs).

(** The per-person data both outputs show: id, name, role, rate, hours
    and pay. *)
Definition rowOfCsv (c : CsvRecord) : Row :=
  mkRow (csv_id c) (csv_name c) (csv_role c) (csv_rate c)
        (csv_hours c) (csv_pay c).

(** The sum of the [Pay] fields, added in the order of the rows. *)
Definition sumPay (rows : list Row) : float64 :=
  foldl (λ acc r, acc + Pay r) 0 rows.

End Expected.

(** ** The states of two racing scans *)

Section RaceStates.
Import GoTime Sql.

Variables (fac : list Faculty) (log : list Dtr).
Variables (path : string) (fid : Z) (nm rl : string) (now1 now2 : Time).

Definition openedRow (id : Z) (t : Time) : Dtr := mkDtr id fid (Some t) None.
Definition closedRow (id : Z) (t t' : Time) : Dtr :=
  mkDtr id fid (Some t) (Some t').

Definition answeredIn (t : Time) : ScanThread :=
  Answered (ScanPage "Clock IN" nm rl t).
Definition answeredOut (t : Time) : ScanThread :=
  Answered (ScanPage "Clock OUT" nm rl t).

(** A goroutine that has not yet looked for an open row. *)
Definition beforeLookup (now : Time) (th : ScanThread) : Prop :=
  th = Arrived path now ∨ th = Resolved fid nm rl now.

(** A goroutine whose lookup found no open row, or found the row [id]. *)
Definition sawNone (now : Time) : ScanThread :=
  LookedUp fid nm rl now (inl ErrNoRows).
Definition sawOpen (now : Time) (id : Z) (t : Time) : ScanThread :=
  LookedUp fid nm rl now (inr (id, Some t)).

(** The states that two scans of one token, at [now1] and [now2], pass
    through from the log [log], in which the person has no open row.  The
    first row inserted receives the id [nextDtrID (mkDB fac log)], a second
    one the next id. *)
Inductive raceState : DB * list ScanThread → Prop :=
| RS_start t0 t1 :
    beforeLookup now1 t0 → beforeLookup now2 t1 →
    raceState (mkDB fac log, [t0; t1])
| RS_look0 t1 :
    beforeLookup now2 t1 → raceState (mkDB fac log, [sawNone now1; t1])
| RS_look1 t0 :
    beforeLookup now1 t0 → raceState (mkDB fac log, [t0; sawNone now2])
| RS_look01 :
    raceState (mkDB fac log, [sawNone now1; sawNone now2])
| RS_in0 t1 :
    beforeLookup now2 t1 →
    raceState (mkDB fac (log ++ [openedRow (nextDtrID (mkDB fac log)) now1]),
               [answeredIn now1; t1])
| RS_in1 t0 :
    beforeLookup now1 t0 →
    raceState (mkDB fac (log ++ [openedRow (nextDtrID (mkDB fac log)) now2]),
               [t0; answeredIn now2])
| RS_in0_look1 :
    raceState (mkDB fac (log ++ [openedRow (nextDtrID (mkDB fac log)) now1]),
               [answeredIn now1;
                sawOpen now2 (nextDtrID (mkDB fac log)) now1])
| RS_in1_look0 :
    raceState (mkDB fac (log ++ [openedRow (nextDtrID (mkDB fac log)) now2]),
               [sawOpen now1 (nextDtrID (mkDB fac log)) now2;
                answeredIn now2])
| RS_in0_out1 :
    raceState (mkDB fac (log ++ [closedRow (nextDtrID (mkDB fac log)) now1 now2]),
               [answeredIn now1; answeredOut now2])
| RS_in1_out0 :
    raceState (mkDB fac (log ++ [closedRow (nextDtrID (mkDB fac log)) now2 now1]),
               [answeredOut now1; answeredIn now2])
| RS_in0_stale1 :
    raceState (mkDB fac (log ++ [openedRow (nextDtrID (mkDB fac log)) now1]),
               [answeredIn now1; sawNone now2])
| RS_in1_stale0 :
    raceState (mkDB fac (log ++ [openedRow (nextDtrID (mkDB fac log)) now2]),
               [sawNone now1; answeredIn now2])
| RS_in0_in1 :
    raceState (mkDB fac (log ++ [openedRow (nextDtrID (mkDB fac log)) now1;
                                 openedRow (nextDtrID (mkDB fac log) + 1) now2]),
               [answeredIn now1; answeredIn now2])
| RS_in1_in0 :
    raceState (mkDB fac (log ++ [openedRow (nextDtrID (mkDB fac log)) now2;
                                 openedRow (nextDtrID (mkDB fac log) + 1) now1]),
               [answeredIn now1; answeredIn now2]).

End RaceStates.

(** ** Sample data *)

Section Samples.
Import GoMath GoTime Sql.

(** 2024-03-01 00:00:00 UTC and clock times of that day. *)
Definition day0 : Time := 738945 * (24 * Hour).
Definition clock (h m : Z) : Time := day0 + h * Hour + m * Minute.

Definition ana : Faculty :=
  mkFaculty 1 "Ana Cruz" "Instructor" (of_int 100) 1 "a1b2c3d4e5f60718".

(** A person whose [active] flag has been switched off. *)
Definition ben : Faculty :=
  mkFaculty 2 "Ben Reyes" "Lecturer" (of_int 80) 0 "0f1e2d3c4b5a6978".

Definition emptyLog : DB := mkDB [ana; ben] [].

(** A log whose only row has its out-time two hours before its in-time
    (the wall clock was set back between the two scans). *)
Definition reversedLog : DB :=
  mkDB [ana] [mkDtr 1 1 (Some (clock 10 0)) (Some (clock 8 0))].

(** Ana clocked in at 08:00, out at 12:30 and in again at 13:15. *)
Definition workdayLog : DB :=
  mkDB [ana; ben]
       [mkDtr 1 1 (Some (clock 8 0)) (Some (clock 12 30));
        mkDtr 2 1 (Some (clock 13 15)) None].

End Samples.

(** ** Well-formed logs *)

Section LogInvariants.
Import GoTime Sql.

(** The ids of [dtr] are pairwise different (PRIMARY KEY) and no person has
    two open rows. *)
Definition uniqueDtrIDs (db : DB) : Prop := NoDup (dtr_id <$> dtr db).

Definition oneOpenRow (db : DB) : Prop :=
  ∀ fid, (length (openDtr db fid) ≤ 1)%nat.

(** Two rows that differ at most in their out-time. *)
Definition sameButOutTime (d d' : Dtr) : Prop :=
  dtr_id d' = dtr_id d ∧ dtr_faculty_id d' = dtr_faculty_id d
  ∧ dtr_in_time d' = dtr_in_time d.

End LogInvariants.

(** ** Hours read off the table *)

Section TableSums.
Import GoMath GoTime Sql.
Local Open Scope Qc_scope.

(** The ids of [faculty] are pairwise different (PRIMARY KEY). *)
Definition uniqueFacultyIDs (db : DB) : Prop := NoDup (fac_id <$> faculty db).

(** The hours between two times as [handlePayroll] counts them: only when
    both are set and the duration is positive. *)
Definition positiveHours (inT outT : NullTime) : float64 :=
  match inT, outT with
  | Some i, Some o =>
      let dur := Hours (Sub o i) in if decide (0 < dur) then dur else 0
  | _, _ => 0
  end.

(** The events of person [id] whose in-time lies in the range. *)
Definition inRangeOf (start end_ : Time) (id : Z) (d : Dtr) : bool :=
  bool_decide (dtr_faculty_id d = id) && between (dtr_in_time d) start end_.

(** The sum of [w] over the rows of the table that satisfy [p]. *)
Fixpoint sumEvents (w : NullTime → NullTime → float64) (p : Dtr → bool)
    (rows : list Dtr) : float64 :=
  match rows with
  | [] => 0
  | d :: rest =>
      if p d then w (dtr_in_time d) (dtr_out_time d) + sumEvents w p rest
      else sumEvents w p rest
  end.

Definition eventHours (db : DB) (start end_ : Time) (id : Z) : float64 :=
  sumEvents positiveHours (inRangeOf start end_ id) (dtr db).

End TableSums.

Section PersonRows.
Import GoMath GoTime Sql.
Local Open Scope Qc_scope.

(** The row of person [f] computed from the tables: the person's columns,
    the rounded sum of the person's events in the range, and the pay. *)
Definition personRow (db : DB) (start end_ : Time) (f : Faculty) : Row :=
  let h := Round (eventHours db start end_ (fac_id f) * of_int 4) / of_int 4 in
  mkRow (fac_id f) (fac_name f) (fac_role f) (fac_rate_per_hour f)
        h (h * fac_rate_per_hour f).

End PersonRows.

(** ** Tokens *)

Module Token.

(** The digit [fmt.Sprintf("%x", ...)] prints for a value below 16: the
    character at that index of the digit string. *)
Definition hexDigit (n : N) : Ascii.ascii :=
  default Ascii.zero (String.get (N.to_nat n) "0123456789abcdef").

(** The two digits of one byte, high half first. *)
Definition hexByte (b : Byte.byte) : string :=
  let n := Byte.to_N b in
  String (hexDigit (n / 16)) (String (hexDigit (n mod 16)) EmptyString).

(** [fmt.Sprintf("%x", b)] for a byte slice. *)
Fixpoint hex (b : list Byte.byte) : string :=
  match b with
  | [] => EmptyString
  | x :: rest => hexByte x +:+ hex rest
  end.

(** The eight bytes [rand.Read] writes into [b]. *)
Definition Entropy : Set := vec Byte.byte 8.

(** [randToken], on the bytes read from the random source. *)
Definition randToken (b : Entropy) : string := hex (vec_to_list b).

(** Reading a token back: the value of a hexadecimal digit, and the bytes
    of a string of such digits. *)
Definition hexValue (c : Ascii.ascii) : option N :=
  let n := Ascii.N_of_ascii c in
  if ((48 <=? n) && (n <=? 57))%N then Some (n - 48)%N
  else if ((97 <=? n) && (n <=? 102))%N then Some (n - 87)%N
  else None.

Fixpoint unhex (s : string) : option (list Byte.byte) :=
  match s with
  | EmptyString => Some []
  | String hi (String lo rest) =>
      match hexValue hi, hexValue lo, unhex rest with
      | Some h, Some l, Some bs =>
          match Byte.of_N (16 * h + l) with
          | Some b => Some (b :: bs)
          | None => None
          end
      | _, _, _ => None
      end
  | String _ EmptyString => None
  end.

End Token.
(** ** The administration handlers *)

Section Admin.
Import GoStrings GoMath GoTime Sql Token.

(** Two functions of the libraries are taken as they are: the integer
    SQLite reads in a text parameter that it compares with the INTEGER
    column [id] ([None] when the text is no number), and the value of
    [strconv.ParseFloat(s, 64)], whose error [handleFacultyAdd] drops. *)
Variable sqlInteger : string → option Z.
Variable ParseFloat : string → float64.

(** The database together with the counter SQLite keeps for the
    AUTOINCREMENT key of [faculty]: the largest id ever given.  Rows of
    [faculty] can be deleted, so the counter is not the largest id of the
    table. *)
Record Store : Set := mkStore {
  tables : DB;
  faculty_seq : Z
}.

(** The database [initSchema] creates in a new file. *)
Definition initialStore : Store := mkStore (mkDB [] []) 0.

(** What the administration handlers answer. *)
Inductive AdminResponse : Set :=
| BadRequest (msg : string)
| DriverError
| NotFound (msg : string)
| ToggleJSON (id : string) (active : bool)
| Redirect (url : string) (code : Z).

(** The id an AUTOINCREMENT insert into [faculty] receives: one more than
    the counter and than every id of the table. *)
Definition nextFacultyID (st : Store) : Z :=
  1 + Z.max (faculty_seq st) (foldr Z.max 0 (fac_id <$> faculty (tables st))).

(** [INSERT INTO faculty (name,role,rate_per_hour,token) VALUES (?,?,?,?)]:
    [active] takes its default 1, and the insert is refused when the token
    is already in the table (UNIQUE). *)
Definition insertFaculty (fault : bool) (st : Store)
    (name role : string) (rate : float64) (token : string)
  : Store * option sql_error :=
  if fault then (st, Some ErrDriver)
  else if decide (token ∈ fac_token <$> faculty (tables st))
  then (st, Some ErrDriver)
  else let id := nextFacultyID st in
       (mkStore (mkDB (faculty (tables st)
                       ++ [mkFaculty id name role rate 1 token])
                      (dtr (tables st)))
                id,
        None).

(** [handleFacultyAdd], on the method and the form values of the request
    and the bytes the random source gives.  The PNG file of the QR code is
    outside the model. *)
Definition handleFacultyAdd (fault : bool) (st : Store)
    (method name role rateStr : string) (entropy : Entropy)
  : Store * AdminResponse :=
  if decide (method ≠ "POST") then (st, BadRequest "POST required")
  else
    let rate := ParseFloat rateStr in
    let token := randToken entropy in
    let '(st', err) := insertFaculty fault st name role rate token in
    match err with
    | Some _ => (st', DriverError)
    | None => (st', Redirect "/" 302)
    end.

(** [UPDATE faculty SET active=1-active WHERE id=?] with the id as sent. *)
Definition execToggle (fault : bool) (db : DB) (id : string)
  : DB * option sql_error :=
  if fault then (db, Some ErrDriver)
  else (match sqlInteger id with
        | Some n => updateFacultyToggle db n
        | None => db
        end, None).

(** [SELECT active FROM faculty WHERE id=?], first row. *)
Definition selectActive (fault : bool) (db : DB) (id : string)
  : sql_error + Z :=
  if fault then inl ErrDriver
  else match sqlInteger id with
       | Some n =>
           match filter (λ f, fac_id f = n) (faculty db) with
           | f :: _ => inr (fac_active f)
           | [] => inl ErrNoRows
           end
       | None => inl ErrNoRows
       end.

(** Which of the two statements of [handleFacultyToggle] fail. *)
Record ToggleFaults : Set := mkToggleFaults {
  fault_flip : bool;
  fault_read : bool
}.

Definition noToggleFaults : ToggleFaults := mkToggleFaults false false.

(** [handleFacultyToggle], on the form value [id]. *)
Definition handleFacultyToggle (fl : ToggleFaults) (db : DB) (id : string)
  : DB * AdminResponse :=
  if decide (id = "") then (db, BadRequest "Missing id")
  else
    let '(db1, err) := execToggle (fault_flip fl) db id in
    match err with
    | Some _ => (db1, DriverError)
    | None =>
        match selectActive (fault_read fl) db1 id with
        | inl _ => (db1, NotFound "Faculty not found")
        | inr active => (db1, ToggleJSON id (active =? 1))
        end
    end.

(** [DELETE FROM faculty WHERE id=?] with the id as sent. *)
Definition execDelete (fault : bool) (db : DB) (id : string)
  : DB * option sql_error :=
  if fault then (db, Some ErrDriver)
  else (match sqlInteger id with
        | Some n => mkDB (filter (λ f, fac_id f ≠ n) (faculty db)) (dtr db)
        | None => db
        end, None).

(** [handleFacultyDelete], on the form value [id]. *)
Definition handleFacultyDelete (fault : bool) (db : DB) (id : string)
  : DB * AdminResponse :=
  if decide (id = "") then (db, BadRequest "Missing id")
  else
    let '(db1, err) := execDelete fault db id in
    match err with
    | Some _ => (db1, DriverError)
    | None => (db1, Redirect "/" 303)
    end.

(** The requests that write to the database, each with the statements
    that fail while it is served. *)
Inductive Request : Set :=
| ScanRequest (fl : ScanFaults) (path : string) (now : Time)
| AddRequest (fault : bool) (method name role rateStr : string)
             (entropy : Entropy)
| ToggleRequest (fl : ToggleFaults) (id : string)
| DeleteRequest (fault : bool) (id : string).

(** The database after a request. *)
Definition serve (st : Store) (req : Request) : Store :=
  match req with
  | ScanRequest fl path now =>
      mkStore (handleScan fl (tables st) path now).1 (faculty_seq st)
  | AddRequest fault method name role rateStr entropy =>
      (handleFacultyAdd fault st method name role rateStr entropy).1
  | ToggleRequest fl id =>
      mkStore (handleFacultyToggle fl (tables st) id).1 (faculty_seq st)
  | DeleteRequest fault id =>
      mkStore (handleFacultyDelete fault (tables st) id).1 (faculty_seq st)
  end.

(** What holds of every database the handlers can produce. *)
Record wellFormed (st : Store) : Prop := mkWellFormed {
  wf_faculty_ids : uniqueFacultyIDs (tables st);
  wf_tokens : NoDup (fac_token <$> faculty (tables st));
  wf_issued : ∀ f, f ∈ faculty (tables st) → 1 ≤ fac_id f ≤ faculty_seq st;
  wf_active : ∀ f, f ∈ faculty (tables st) → fac_active f = 0 ∨ fac_active f = 1;
  wf_dtr_ids : uniqueDtrIDs (tables st);
  wf_one_open : oneOpenRow (tables st);
  wf_events : ∀ d, d ∈ dtr (tables st) →
              1 ≤ dtr_faculty_id d ≤ faculty_seq st
              ∧ ∃ t, dtr_in_time d = Some t
}.

End Admin.
(** ** Sample requests *)

Section AdminSamples.
Import GoStrings GoMath GoTime Sql Token.

(** The two library functions, on the texts made of decimal digits only:
    there SQLite reads the number written, and ParseFloat gives it.  On
    every other text [decimal] gives nothing, which says nothing about
    the libraries: the samples below use digits only. *)
Definition digitValue (c : Ascii.ascii) : option Z :=
  let n := Z.of_N (Ascii.N_of_ascii c) in
  if (48 <=? n) && (n <=? 57) then Some (n - 48) else None.

Fixpoint decimalFrom (acc : Z) (s : string) : option Z :=
  match s with
  | EmptyString => Some acc
  | String c s' =>
      match digitValue c with
      | Some d => decimalFrom (10 * acc + d) s'
      | None => None
      end
  end.

Definition decimal (s : string) : option Z :=
  match s with
  | EmptyString => None
  | _ => decimalFrom 0 s
  end.

Definition decimalRate (s : string) : float64 :=
  of_int (default 0 (decimal s)).

Definition entropyA : Entropy :=
  [# Byte.xa1; Byte.xb2; Byte.xc3; Byte.xd4;
     Byte.xe5; Byte.xf6; Byte.x07; Byte.x18].

Definition entropyB : Entropy :=
  [# Byte.x0f; Byte.x1e; Byte.x2d; Byte.x3c;
     Byte.x4b; Byte.x5a; Byte.x69; Byte.x78].

(** Ana is added, clocks in at 08:00 and is deleted: her open event stays
    in [dtr]. *)
Definition afterDelete : Store :=
  foldl (serve decimal decimalRate) initialStore
    [AddRequest false "POST" "Ana Cruz" "Instructor" "100" entropyA;
     ScanRequest noScanFaults "/scan/a1b2c3d4e5f60718" (clock 8 0);
     DeleteRequest false "1"].

(** Ben is added after that. *)
Definition afterSecondAdd : Store :=
  (handleFacultyAdd decimalRate false afterDelete
     "POST" "Ben Reyes" "Lecturer" "80" entropyB).1.

End AdminSamples.

(** ** The QR cards *)

Module Pdf.
Import GoMath.

(** The calls [handlePrintQRCards] makes on the document of the PDF
    library, with their arguments. *)
Inductive Call : Set :=
| New (orientationStr unitStr sizeStr fontDirStr : string)
| AddUTF8Font (familyStr styleStr fileStr : string)
| SetFont (familyStr styleStr : string) (size : float64)
| AddPage
| SetDrawColor (r g b : Z)
| Rect (x y w h : float64) (styleStr : string)
| SetXY (x y : float64)
| CellFormat (w h : float64) (txtStr borderStr : string) (ln : Z)
             (alignStr : string) (fill : bool) (link : Z) (linkStr : string)
| ImageOptions (imageNameStr : string) (x y w h : float64) (flow : bool)
               (imageType : string) (link : Z) (linkStr : string).

(** The pages a sequence of calls opens. *)
Fixpoint pageCount (calls : list Call) : Z :=
  match calls with
  | [] => 0
  | AddPage :: calls => 1 + pageCount calls
  | _ :: calls => pageCount calls
  end.

(** The image files a sequence of calls places, in order. *)
Fixpoint imageFiles (calls : list Call) : list string :=
  match calls with
  | [] => []
  | ImageOptions file _ _ _ _ _ _ _ _ :: calls => file :: imageFiles calls
  | _ :: calls => imageFiles calls
  end.

End Pdf.

Section PrintCards.
Import GoMath Sql Pdf.
Local Open Scope Qc_scope.

(** [filepath.Join] on two elements, taken as it is. *)
Variable Join : string → string → string.

Definition qrDir : string := "data/qrs".

(** A row of [SELECT id, name, role, token FROM faculty WHERE active=1]. *)
Record CardRow : Set := mkCardRow {
  card_id : Z;
  card_name : string;
  card_role : string;
  card_token : string
}.

Definition cardOf (f : Faculty) : CardRow :=
  mkCardRow (fac_id f) (fac_name f) (fac_role f) (fac_token f).

Definition selectActiveFaculty (fault : bool) (db : DB)
  : sql_error + list CardRow :=
  if fault then inl ErrDriver
  else inr (cardOf <$> filter (λ f, fac_active f = 1%Z) (faculty db)).

(** Card settings for the 3×3 grid. *)
Definition cardW : float64 := of_int 60.
Definition cardH : float64 := of_int 70.
Definition marginX : float64 := of_int 10.
Definition marginY : float64 := of_int 10.
Definition spacingX : float64 := of_int 8.
Definition spacingY : float64 := of_int 8.
Definition cardsPerRow : Z := 3.
Definition cardsPerCol : Z := 3.
Definition qrSize : float64 := of_int 28.

(** The variables [x], [y], [col] and [row] of the loop. *)
Record Grid : Set := mkGrid {
  grid_x : float64;
  grid_y : float64;
  grid_col : Z;
  grid_row : Z
}.

Definition startGrid : Grid := mkGrid marginX marginY 0 0.

Definition qrX (g : Grid) : float64 := grid_x g + (cardW - qrSize) / of_int 2.
Definition qrY (g : Grid) : float64 := grid_y g + of_int 25.

(** The file of a person's QR code. *)
Definition qrPath (token : string) : string := Join qrDir (token +:+ ".png").

(** The body of the loop up to the image: border, name, role, QR code. *)
Definition drawCard (g : Grid) (c : CardRow) : list Call :=
  let x := grid_x g in
  let y := grid_y g in
  [SetDrawColor 0 0 0;
   Rect x y cardW cardH "D";
   SetXY x (y + of_int 8);
   CellFormat cardW (of_int 5) (card_name c) "" 0 "C" false 0 "";
   SetXY x (y + of_int 14);
   CellFormat cardW (of_int 5) ("(" +:+ card_role c +:+ ")")
              "" 0 "C" false 0 "";
   ImageOptions (qrPath (card_token c))
                (qrX g) (qrY g) qrSize qrSize false "PNG" 0 ""].

(** The end of the body, "Move grid". *)
Definition moveGrid (g : Grid) : Grid * list Call :=
  let col := (grid_col g + 1)%Z in
  if (cardsPerRow <=? col)%Z then
    let row := (grid_row g + 1)%Z in
    let y := grid_y g + cardH + spacingY in
    if (cardsPerCol <=? row)%Z
    then (mkGrid marginX marginY 0 0, [AddPage])
    else (mkGrid marginX y 0 row, [])
  else (mkGrid (grid_x g + cardW + spacingX) (grid_y g) col (grid_row g), []).

Fixpoint cardLoop (g : Grid) (rows : list CardRow) : list Call :=
  match rows with
  | [] => []
  | c :: rows =>
      let '(g', calls) := moveGrid g in
      drawCard g c ++ calls ++ cardLoop g' rows
  end.

(** The calls before the loop. *)
Definition newDocument : list Call :=
  [New "P" "mm" "A4" "";
   AddUTF8Font "Roboto" "" "fonts/Roboto-Regular.ttf";
   SetFont "Roboto" "" (of_int 8);
   AddPage].

(** What [handlePrintQRCards] answers: status 500 when the query fails,
    else the document the calls build (the library writes it out, or
    reports what went wrong while it was built). *)
Inductive PrintResponse : Set :=
| PrintError (code : Z)
| PdfDocument (calls : list Call).

Definition handlePrintQRCards (fault : bool) (db : DB) : PrintResponse :=
  match selectActiveFaculty fault db with
  | inl _ => PrintError 500
  | inr rows => PdfDocument (newDocument ++ cardLoop startGrid rows)
  end.

(** The grid before the card of index [k], by the loop. *)
Definition gridAfter (k : nat) : Grid :=
  Nat.iter k (λ g, (moveGrid g).1) startGrid.

(** The same in closed form: column [k mod 3] and row [(k / 3) mod 3],
    68 mm and 78 mm apart. *)
Definition gridAt (k : Z) : Grid :=
  mkGrid (of_int (10 + 68 * (k mod 3))) (of_int (10 + 78 * ((k / 3) mod 3)))
         (k mod 3) ((k / 3) mod 3).

(** A page is opened after every ninth card. *)
Definition pageBreak (k : Z) : list Call :=
  if decide (((k + 1) mod 9)%Z = 0%Z) then [AddPage] else [].

(** The page in millimetres: A4, portrait. *)
Definition pageW : float64 := of_int 210.
Definition pageH : float64 := of_int 297.

End PrintCards.
(** ** Sessions and the login *)

Module Auth.

Definition adminUser : string := "slacadmin".
Definition adminPass : string := "slacadmin1234".

(** A value of [session.Values]: a [bool], or a value of another type. *)
Inductive Value : Set :=
| VBool (b : bool)
| VOther (s : string).

(** [session.Values], on its string keys. *)
Definition Session : Type := gmap string Value.

(** The request as the three handlers read it: method, path, form values
    and the session [store.Get] decodes from its cookie (a new, empty one
    when there is none). *)
Record HttpRequest : Type := mkHttpRequest {
  Method : string;
  Path : string;
  FormValue : string → string;
  session : Session
}.

(** What the three handlers write, [Inner] standing for what a wrapped
    handler writes. *)
Inductive Answer (A : Type) : Type :=
| LoginPage (error : option string)
| Found (url : string)
| HttpError (msg : string) (code : Z)
| Inner (a : A).
Arguments LoginPage {A} error.
Arguments Found {A} url.
Arguments HttpError {A} msg code.
Arguments Inner {A} a.

(** A response: the session [session.Save] stores in the cookie, when it
    is called, and the answer. *)
Record Reply (A : Type) : Type := mkReply {
  saved : option Session;
  answer : Answer A
}.
Arguments mkReply {A} saved answer.
Arguments saved {A} r.
Arguments answer {A} r.

(** A handler, on the request and the state of the server. *)
Definition HandlerFunc (S A : Type) : Type :=
  HttpRequest → S → S * Reply A.

(** [session.Values["authenticated"].(bool)] with both results. *)
Definition authenticatedValue (s : Session) : bool * bool :=
  match s !! "authenticated" with
  | Some (VBool auth) => (auth, true)
  | _ => (false, false)
  end.

Definition requireLogin {S A} (next : HandlerFunc S A) : HandlerFunc S A :=
  λ r st,
    let '(auth, ok) := authenticatedValue (session r) in
    if negb ok || negb auth then
      if decide (Path r = "/login") then next r st
      else (st, mkReply None (Found "/login"))
    else next r st.

Definition handleLoginPage {A} (r : HttpRequest) : Reply A :=
  if decide (Method r = "GET") then mkReply None (LoginPage None)
  else if decide (Method r = "POST") then
    let username := FormValue r "username" in
    let password := FormValue r "password" in
    if decide (username = adminUser ∧ password = adminPass) then
      mkReply (Some (<["authenticated" := VBool true]> (session r)))
              (Found "/")
    else mkReply None (LoginPage (Some "Invalid username or password"))
  else mkReply None (HttpError "Method not allowed" 405).

Definition handleLogout {A} (r : HttpRequest) : Reply A :=
  mkReply (Some (<["authenticated" := VBool false]> (session r)))
          (Found "/login").

(** The session of the next request of a client that keeps the cookie. *)
Definition sessionAfter {A} (r : HttpRequest) (reply : Reply A) : Session :=
  default (session r) (saved reply).

(** Whether [requireLogin] lets a session through. *)
Definition loggedIn (s : Session) : bool :=
  let '(auth, ok) := authenticatedValue s in ok && auth.

(** A client that keeps the cookie: the request [r] sent with the session
    [s], and the session after a visit of the login page ([logout] false)
    or of the logout. *)
Definition withSession (r : HttpRequest) (s : Session) : HttpRequest :=
  mkHttpRequest (Method r) (Path r) (FormValue r) s.

Definition visit {A} (s : Session) (v : bool * HttpRequest) : Session :=
  let r := withSession v.2 s in
  sessionAfter r (if v.1 then handleLogout (A:=A) r else handleLoginPage r).

Definition browse {A} (s : Session) (vs : list (bool * HttpRequest))
  : Session :=
  foldl (visit (A:=A)) s vs.

(** A POST with the user name and the password of the administrator. *)
Definition adminLogin (r : HttpRequest) : Prop :=
  Method r = "POST" ∧ FormValue r "username" = adminUser
  ∧ FormValue r "password" = adminPass.

End Auth.
(** ** The home page *)

Module Home.
Section Handler.
Import GoMath GoTime Sql.

(** [t.Format("2006-01-02")], taken as it is. *)
Variable Format : Time → string.

(** The [Faculty] struct of [handleHome]. *)
Record Faculty : Set := mkFaculty {
  ID : Z;
  Name : string;
  Role : string;
  RatePerHour : float64;
  Active : bool;
  Token : string
}.





End Handler.
End Home.
(** ** Sample cards and sample sessions *)

Section RouteSamples.
Import GoMath GoTime Sql Token Auth.

(** [filepath.Join] on a directory and a file name that need no
    cleaning. *)
Definition joinTwo (dir file : string) : string := dir +:+ "/" +:+ file.

(** The route "/faculty/delete" of [main]: [handleFacultyDelete] on the
    form value [id], behind the guard. *)
Definition facultyDelete : HandlerFunc DB AdminResponse :=
  λ r db,
    let '(db', response) :=
      handleFacultyDelete decimal false db (FormValue r "id") in
    (db', mkReply None (Inner response)).

Definition facultyDeleteRoute : HandlerFunc DB AdminResponse :=
  requireLogin facultyDelete.

(** A login of the administrator from a new session, and a request to
    delete person 1. *)
Definition loginRequest : HttpRequest :=
  mkHttpRequest "POST" "/login"
    (λ key, if decide (key = "username") then "slacadmin"
            else if decide (key = "password") then "slacadmin1234"
            else "")
    ∅.

Definition deleteRequest (s : Session) : HttpRequest :=
  mkHttpRequest "POST" "/faculty/delete"
    (λ key, if decide (key = "id") then "1" else "") s.

End RouteSamples.

(** ** Binary64 numbers *)

Module Float64.

(** [float64] as the machine has it: an IEEE 754 binary64 number, given by
    its sign, mantissa and exponent as in the specification of floating
    point numbers of the Standard Library, with 53 bits of precision and
    every operation rounded to the nearest number, ties to even. *)
Definition float64 : Set := spec_float.

Definition prec : Z := 53.
Definition emax : Z := 1024.

Definition zero : float64 := S754_zero false.

(** [float64(n)] for an integer [n], and the constants of the program. *)
Definition of_int (n : Z) : float64 := binary_normalize prec emax n 0 false.

Definition add : float64 → float64 → float64 := SFadd prec emax.
Definition mul : float64 → float64 → float64 := SFmul prec emax.
Definition div : float64 → float64 → float64 := SFdiv prec emax.

(** [x < y]; false when one of the two is NaN. *)
Definition ltb : float64 → float64 → bool := SFltb.

(** [math.Round]: the nearest integer, halves away from zero; zeros,
    infinities, NaN and the numbers without a fractional part are returned
    as they are. *)
Definition Round (x : float64) : float64 :=
  match x with
  | S754_finite s m e =>
      if 0 <=? e then x
      else
        let n := (Zpos m + 2 ^ (- e - 1)) / 2 ^ (- e) in
        binary_normalize prec emax (cond_Zopp s n) 0 s
  | _ => x
  end.

(** Neither an infinity nor NaN. *)
Definition is_finite (x : float64) : bool :=
  match x with
  | S754_zero _ | S754_finite _ _ _ => true
  | _ => false
  end.

(** Zero as a number: [+0] or [-0]. *)
Definition is_zero (x : float64) : bool :=
  match x with
  | S754_zero _ => true
  | _ => false
  end.

(** Zero or above, as a number: not negative, not [-0], not NaN. *)
Definition nonNegative (x : float64) : bool :=
  match x with
  | S754_zero false | S754_finite false _ _ => true
  | _ => false
  end.

(** The integer [x * 2 ^ k], when [x] is a number and the product is an
    integer: [scaled 0 x = Some n] says that [x] is the integer [n],
    [scaled 2 x = Some n] that [x] is [n / 4]. *)
Definition scaled (k : Z) (x : float64) : option Z :=
  match x with
  | S754_zero _ => Some 0
  | S754_finite s m e =>
      if 0 <=? e + k then Some (cond_Zopp s (Zpos m * 2 ^ (e + k)))
      else if Zpos m mod 2 ^ (- (e + k)) =? 0
           then Some (cond_Zopp s (Zpos m / 2 ^ (- (e + k))))
           else None
  | _ => None
  end.

#[global] Instance binary64_eq_dec : EqDecision float64.
Proof. solve_decision. Defined.

End Float64.

(** ** The payroll as the machine runs it *)

(** The handlers [handlePayroll] and [handlePayrollCSV] once more, now
    with the numbers as binary64 numbers and with the two time columns as
    SQLite holds them: the driver writes a [time.Time] as the text of its
    [String()], the bounds of [BETWEEN] are bound as such texts too, and
    SQLite compares the texts byte by byte; reading a column back, the
    driver parses the text into a [time.Time]. *)
Module Machine.
Import Float64.

(** A [time.Time]: what [Sub] and [IsZero] read, the instant, and the
    result of [String()], which depends on the location of the value and
    on its monotonic clock reading as well. *)
Record Time : Set := mkTime {
  instant : GoTime.Time;
  time_String : string
}.

(** The zero [Time], in UTC. *)
Definition zeroTime : Time := mkTime 0 "0001-01-01 00:00:00 +0000 UTC".

Definition IsZero (t : Time) : bool := instant t =? 0.

(** [time.Parse("2006-01-02", value)]: midnight UTC of the date, whose
    [String()] is the date followed by [" 00:00:00 +0000 UTC"]; on an
    error the zero [Time]. *)
Definition Parse (value : string) : Time * option GoTime.error :=
  match GoTime.ParseDate value with
  | Some t => (mkTime t (value +:+ " 00:00:00 +0000 UTC"), None)
  | None => (zeroTime, Some GoTime.ParseError)
  end.

(** [d.Hours()]. *)
Definition Hours (d : GoTime.Duration) : float64 :=
  let hour := Z.quot d GoTime.Hour in
  let nsec := Z.rem d GoTime.Hour in
  add (of_int hour) (div (of_int nsec) (of_int (60 * 60 * 1000000000))).

(** The constant 4 of the rounding. *)
Definition four : float64 := of_int 4.

(** A value of a time column that is not NULL: the text in the table, and
    the [time.Time] the driver reads back from it, of which the handlers
    use the instant. *)
Record StoredTime : Set := mkStoredTime {
  stored_text : string;
  stored_time : GoTime.Time
}.

(** What the driver stores for a [time.Time]. *)
Definition stored (t : Time) : StoredTime :=
  mkStoredTime (time_String t) (instant t).

Definition NullTime : Set := option StoredTime.

(** The rows of the tables [faculty] and [dtr]. *)
Record Faculty : Set := mkFaculty {
  fac_id : Z;
  fac_name : string;
  fac_role : string;
  fac_rate_per_hour : float64;
  fac_active : Z;
  fac_token : string
}.

Record Dtr : Set := mkDtr {
  dtr_id : Z;
  dtr_faculty_id : Z;
  dtr_in_time : NullTime;
  dtr_out_time : NullTime
}.

Record DB : Set := mkDB {
  faculty : list Faculty;
  dtr : list Dtr
}.

(** A row of the joins. *)
Record JoinRow : Set := mkJoinRow {
  j_id : Z;
  j_name : string;
  j_role : string;
  j_rate : float64;
  j_in_time : NullTime;
  j_out_time : NullTime
}.

Definition joined (f : Faculty) (inT outT : NullTime) : JoinRow :=
  mkJoinRow (fac_id f) (fac_name f) (fac_role f) (fac_rate_per_hour f)
            inT outT.

(** [t BETWEEN lo AND hi] on a time column and two bound [time.Time]s:
    the order of the texts, byte by byte, a text before its extensions;
    NULL is never between. *)
Definition between (t : NullTime) (lo hi : Time) : bool :=
  match t with
  | Some x => String.leb (time_String lo) (stored_text x)
              && String.leb (stored_text x) (time_String hi)
  | None => false
  end.

(** [faculty f LEFT JOIN dtr d ON on]: for every person the rows of the
    events that pass [on], in the order of table [dtr], or one row with
    NULL in the columns of [dtr] when there is none. *)
Definition personJoin (on : Faculty → Dtr → bool) (db : DB) (f : Faculty)
  : list JoinRow :=
  match List.filter (on f) (dtr db) with
  | [] => [joined f None None]
  | ds => (λ d, joined f (dtr_in_time d) (dtr_out_time d)) <$> ds
  end.

Definition leftJoin (on : Faculty → Dtr → bool) (db : DB) : list JoinRow :=
  faculty db ≫= personJoin on db.

(** [ON d.faculty_id = f.id AND d.in_time BETWEEN ? AND ?]. *)
Definition onPayroll (start end_ : Time) (f : Faculty) (d : Dtr) : bool :=
  bool_decide (dtr_faculty_id d = fac_id f)
  && between (dtr_in_time d) start end_.

(** [ON d.faculty_id=f.id]. *)
Definition onCSV (f : Faculty) (d : Dtr) : bool :=
  bool_decide (dtr_faculty_id d = fac_id f).

Definition payrollQuery (fault : bool) (db : DB) (start end_ : Time)
  : Sql.sql_error + list JoinRow :=
  if fault then inl Sql.ErrDriver
  else inr (leftJoin (onPayroll start end_) db).

Definition payrollCSVQuery (fault : bool) (db : DB) (start end_ : Time)
  : Sql.sql_error + list JoinRow :=
  if fault then inl Sql.ErrDriver
  else inr (List.filter (λ j, between (j_in_time j) start end_)
              (leftJoin onCSV db)).

(** [type Row struct] of [handlePayroll]. *)
Record Row : Set := mkRow {
  FacultyID : Z;
  Name : string;
  Role : string;
  RatePerHour : float64;
  TotalHours : float64;
  Pay : float64
}.

Definition addTotalHours (dur : float64) (r : Row) : Row :=
  mkRow (FacultyID r) (Name r) (Role r) (RatePerHour r)
        (add (TotalHours r) dur) (Pay r).

(** The body of the [for rs.Next()] loop of [handlePayroll]. *)
Definition payrollScanRow (m : gmap Z Row) (j : JoinRow) : gmap Z Row :=
  let id := j_id j in
  let m1 := match m !! id with
            | Some _ => m
            | None =>
                <[id := mkRow id (j_name j) (j_role j) (j_rate j) zero zero]> m
            end in
  match j_in_time j, j_out_time j with
  | Some inT, Some outT =>
      let dur := Hours (GoTime.Sub (stored_time outT) (stored_time inT)) in
      if ltb zero dur then alter (addTotalHours dur) id m1 else m1
  | _, _ => m1
  end.

(** The body of the [for _, r := range m] loop: round, price, total. *)
Definition finishRow (r : Row) : Row :=
  let h := div (Round (mul (TotalHours r) four)) four in
  mkRow (FacultyID r) (Name r) (Role r) (RatePerHour r)
        h (mul h (RatePerHour r)).

Definition payrollRange (entries : list (Z * Row)) : list Row * float64 :=
  foldl (λ '(rows, grand) e,
           let r := finishRow e.2 in (rows ++ [r], add grand (Pay r)))
        ([], zero) entries.

Inductive PayrollResponse : Set :=
| PayrollError (code : Z)
| PayrollPage (Start End : Time) (Rows : list Row) (GrandTotal : float64).

(** The first lines of both handlers, on the form values and the value
    [now] of [time.Now()]. *)
Definition formRange (startValue endValue : string) (now : Time)
  : Time * Time :=
  let '(start, _) := Parse startValue in
  let '(end0, _) := Parse endValue in
  let end_ := if IsZero end0 then now else end0 in
  (start, end_).

Definition payrollReport (ord : RangeOrder) (fault : bool) (db : DB)
    (start end_ : Time) : PayrollResponse :=
  match payrollQuery fault db start end_ with
  | inl _ => PayrollError 500
  | inr rs =>
      let m := foldl payrollScanRow ∅ rs in
      let '(rows, grand) := payrollRange (range_of ord Row m) in
      PayrollPage start end_ rows grand
  end.

Definition handlePayroll (ord : RangeOrder) (fault : bool) (db : DB)
    (startValue endValue : string) (now : Time) : PayrollResponse :=
  let '(start, end_) := formRange startValue endValue now in
  payrollReport ord fault db start end_.

(** The anonymous struct of the map of [handlePayrollCSV]. *)
Record CsvEntry : Set := mkCsvEntry {
  name : string;
  role : string;
  rate : float64;
  hours : float64
}.

Definition csvScanRow (m : gmap Z CsvEntry) (j : JoinRow) : gmap Z CsvEntry :=
  let id := j_id j in
  let tmp := default (mkCsvEntry "" "" zero zero) (m !! id) in
  let tmp := mkCsvEntry (j_name j) (j_role j) (j_rate j) (hours tmp) in
  let tmp := match j_in_time j, j_out_time j with
             | Some inT, Some outT =>
                 mkCsvEntry (name tmp) (role tmp) (rate tmp)
                   (add (hours tmp)
                        (Hours (GoTime.Sub (stored_time outT)
                                           (stored_time inT))))
             | _, _ => tmp
             end in
  <[id := tmp]> m.

(** A record of the CSV file after the header, with the numbers as they
    are before [Sprintf("%.2f")] prints them. *)
Record CsvRecord : Set := mkCsvRecord {
  csv_id : Z;
  csv_name : string;
  csv_role : string;
  csv_rate : float64;
  csv_hours : float64;
  csv_pay : float64
}.

Definition csvRecord (e : Z * CsvEntry) : CsvRecord :=
  let '(id, r) := e in
  let h := div (Round (mul (hours r) four)) four in
  let pay := mul h (rate r) in
  mkCsvRecord id (name r) (role r) (rate r) h pay.

Inductive CsvResponse : Set :=
| CsvPanic
| CsvFile (records : list CsvRecord).

Definition csvExport (ord : RangeOrder) (fault : bool) (db : DB)
    (start end_ : Time) : CsvResponse :=
  match payrollCSVQuery fault db start end_ with
  | inl _ => CsvPanic
  | inr rs =>
      let m := foldl csvScanRow ∅ rs in
      CsvFile (csvRecord <$> range_of ord CsvEntry m)
  end.

Definition handlePayrollCSV (ord : RangeOrder) (fault : bool) (db : DB)
    (startValue endValue : string) (now : Time) : CsvResponse :=
  let '(start, end_) := formRange startValue endValue now in
  csvExport ord fault db start end_.

(** *** Reference descriptions used in the statements *)

(** What one joined row adds to the hours of its person in
    [handlePayroll]: the duration of a row with both times when it is
    above zero. *)
Definition addHours (acc : float64) (j : JoinRow) : float64 :=
  match j_in_time j, j_out_time j with
  | Some inT, Some outT =>
      let dur := Hours (GoTime.Sub (stored_time outT) (stored_time inT)) in
      if ltb zero dur then add acc dur else acc
  | _, _ => acc
  end.

(** The same in [handlePayrollCSV]: the duration of a row with both
    times, whatever its sign. *)
Definition addCsvHours (acc : float64) (j : JoinRow) : float64 :=
  match j_in_time j, j_out_time j with
  | Some inT, Some outT =>
      add acc (Hours (GoTime.Sub (stored_time outT) (stored_time inT)))
  | _, _ => acc
  end.

(** The hours of person [id]: the additions of the rows of the person, in
    the order of the result set, starting from zero. *)
Definition personTotal (step : float64 → JoinRow → float64) (id : Z)
    (acc : float64) (rs : list JoinRow) : float64 :=
  foldl (λ acc j, if decide (j_id j = id) then step acc j else acc) acc rs.

(** The entry [handlePayroll] creates for a person, and an entry with
    other hours. *)
Definition freshRow (id : Z) (j : JoinRow) : Row :=
  mkRow id (j_name j) (j_role j) (j_rate j) zero zero.

Definition withHours (h : float64) (r : Row) : Row :=
  mkRow (FacultyID r) (Name r) (Role r) (RatePerHour r) h (Pay r).

(** The zero value of the struct of the CSV map. *)
Definition csvZero : CsvEntry := mkCsvEntry "" "" zero zero.

(** What an event of table [dtr] adds to the hours of its person: its
    duration, when it has both times and the duration is above zero. *)
Definition eventHours (acc : float64) (d : Dtr) : float64 :=
  match dtr_in_time d, dtr_out_time d with
  | Some inT, Some outT =>
      let dur := Hours (GoTime.Sub (stored_time outT) (stored_time inT)) in
      if ltb zero dur then add acc dur else acc
  | _, _ => acc
  end.

(** The hours of person [id] from the table [dtr]: the additions of the
    person's events whose in-time passes the test [inRange], in the
    order of the table, starting from zero. *)
Definition hoursOf (inRange : NullTime → bool) (db : DB) (id : Z) : float64 :=
  foldl eventHours zero
        (List.filter (λ d, bool_decide (dtr_faculty_id d = id)
                           && inRange (dtr_in_time d)) (dtr db)).

(** The row of a person, from the tables: the person's columns, the
    hours of the person's events in the range rounded to quarters, and
    those times the rate. *)
Definition personRow (db : DB) (start end_ : Time) (f : Faculty) : Row :=
  let h := div (Round (mul (hoursOf (λ t, between t start end_) db (fac_id f))
                           four)) four in
  mkRow (fac_id f) (fac_name f) (fac_role f) (fac_rate_per_hour f)
        h (mul h (fac_rate_per_hour f)).


(** The sum of the [Pay] fields, added in the order of the rows. *)
Definition sumPay (rows : list Row) : float64 :=
  foldl (λ acc r, add acc (Pay r)) zero rows.

Definition reportRows (ord : RangeOrder) (rs : list JoinRow) : list Row :=
  (finishRow ∘ snd) <$> range_of ord Row (foldl payrollScanRow ∅ rs).

(** The row of the page for the person of the joined row [j]. *)
Definition expectedRow (rs : list JoinRow) (j : JoinRow) : Row :=
  let h := div (Round (mul (personTotal addHours (j_id j) zero rs) four))
               four in
  mkRow (j_id j) (j_name j) (j_role j) (j_rate j) h (mul h (j_rate j)).




#[global] Instance Time_eq_dec : EqDecision Time.
Proof. solve_decision. Defined.
#[global] Instance Row_eq_dec : EqDecision Row.
Proof. solve_decision. Defined.
#[global] Instance PayrollResponse_eq_dec : EqDecision PayrollResponse.
Proof. solve_decision. Defined.
#[global] Instance CsvRecord_eq_dec : EqDecision CsvRecord.
Proof. solve_decision. Defined.
#[global] Instance CsvResponse_eq_dec : EqDecision CsvResponse.
Proof. solve_decision. Defined.

End Machine.

(** ** Sample tables of a server in Manila *)

Module Manila.
Import Float64 Machine.

(** A time of 2024-03-01 on the wall clock of Manila (UTC+8), as
    [time.Now()] gives it: the instant, and the text of [String()], which
    begins with the wall clock time and ends with the zone and the
    reading of the monotonic clock. *)
Definition wall (h m s ns : Z) (text : string) : Time :=
  mkTime (day0 - 8 * GoTime.Hour + h * GoTime.Hour + m * GoTime.Minute
          + s * GoTime.Second + ns) text.

Definition ana : Faculty :=
  mkFaculty 1 "Ana Cruz" "Instructor" (of_int 100) 1 "a1b2c3d4e5f60718".

Definition ben : Faculty :=
  mkFaculty 2 "Ben Reyes" "Lecturer" (of_int 80) 0 "0f1e2d3c4b5a6978".

(** Ana clocked in at 04:00 and out at 08:00: in UTC the in-time is
    20:00 of the day before. *)
Definition earlyShift : DB :=
  mkDB [ana; ben]
    [mkDtr 1 1
       (Some (stored (wall 4 0 0 250000000
                        "2024-03-01 04:00:00.25 +0800 PST m=+60.25")))
       (Some (stored (wall 8 0 0 250000000
                        "2024-03-01 08:00:00.25 +0800 PST m=+14460.25")))].


(** Six events of Ana of 1 h 1 min 15 s each, from 06:00 on: 6.125 hours
    in all. *)
Definition shortShift (id h : Z) (inText outText : string) : Dtr :=
  mkDtr id 1
    (Some (stored (wall h 0 0 500000000 inText)))
    (Some (stored (wall (h + 1) 1 15 500000000 outText))).

Definition sixShifts : DB :=
  mkDB [ana]
    [shortShift 1 6 "2024-03-01 06:00:00.5 +0800 PST m=+60.5"
                    "2024-03-01 07:01:15.5 +0800 PST m=+3735.5";
     shortShift 2 8 "2024-03-01 08:00:00.5 +0800 PST m=+7260.5"
                    "2024-03-01 09:01:15.5 +0800 PST m=+10935.5";
     shortShift 3 10 "2024-03-01 10:00:00.5 +0800 PST m=+14460.5"
                     "2024-03-01 11:01:15.5 +0800 PST m=+18135.5";
     shortShift 4 12 "2024-03-01 12:00:00.5 +0800 PST m=+21660.5"
                     "2024-03-01 13:01:15.5 +0800 PST m=+25335.5";
     shortShift 5 14 "2024-03-01 14:00:00.5 +0800 PST m=+28860.5"
                     "2024-03-01 15:01:15.5 +0800 PST m=+32535.5";
     shortShift 6 16 "2024-03-01 16:00:00.5 +0800 PST m=+36060.5"
                     "2024-03-01 17:01:15.5 +0800 PST m=+39735.5"].


Definition evening : Time :=
  wall 18 0 0 750000000 "2024-03-01 18:00:00.75 +0800 PST m=+61260.75".

End Manila.

(** ** The order of the statements of two racing scans *)

Section RaceHistory.
Import GoStrings GoTime Sql.

(** The statements goroutine [i] has run in the schedule [pre]: its first
    is the search for the token, its second the lookup of the open row,
    its third the write. *)
Definition steps (i : nat) (pre : list nat) : nat :=
  length (filter (λ k, k = i) pre).

(** In [sched] the lookup of goroutine [i] runs after the write of
    goroutine [j], or before it. *)
Definition lookupAfterWrite (sched : list nat) (i j : nat) : Prop :=
  ∃ pre post, sched = pre ++ i :: post
              ∧ steps i pre = 1%nat ∧ (3 ≤ steps j pre)%nat.

Definition lookupBeforeWrite (sched : list nat) (i j : nat) : Prop :=
  ∃ pre post, sched = pre ++ i :: post
              ∧ steps i pre = 1%nat ∧ (steps j pre < 3)%nat.

Variables (fac : list Faculty) (log : list Dtr).
Variables (path : string) (fid : Z) (nm rl : string) (now1 now2 : Time).

(** Where goroutine [i], scanning at [now], stands after the schedule
    [pre], and what its lookup saw when it has run. *)
Definition threadHistory (i j : nat) (now : Time) (pre : list nat)
    (th : ScanThread) : Prop :=
  (th = Arrived path now ∧ steps i pre = 0%nat)
  ∨ (th = Resolved fid nm rl now ∧ steps i pre = 1%nat)
  ∨ (th = LookedUp fid nm rl now (inl ErrNoRows)
     ∧ steps i pre = 2%nat ∧ lookupBeforeWrite pre i j)
  ∨ ((∃ found, th = LookedUp fid nm rl now (inr found))
     ∧ steps i pre = 2%nat ∧ lookupAfterWrite pre i j)
  ∨ (th = Answered (ScanPage "Clock IN" nm rl now)
     ∧ (3 ≤ steps i pre)%nat ∧ lookupBeforeWrite pre i j)
  ∨ (th = Answered (ScanPage "Clock OUT" nm rl now)
     ∧ (3 ≤ steps i pre)%nat ∧ lookupAfterWrite pre i j).

(** The states of the race, each goroutine with its history. *)
Definition raceHistory (pre : list nat) (st : DB * list ScanThread) : Prop :=
  raceState fac log path fid nm rl now1 now2 st
  ∧ ∃ t0 t1, st.2 = [t0; t1]
             ∧ threadHistory 0 1 now1 pre t0
             ∧ threadHistory 1 0 now2 pre t1.

End RaceHistory.

(** * Properties *)

(** ** Go library layer *)

Example TrimPrefix_scan : GoStrings.TrimPrefix "/scan/ab12" "/scan/" = "ab12"%string.
Proof. reflexivity. Qed.

Example Round_half_up : GoMath.Round (Q2Qc (5 # 2)) = Q2Qc 3.
Proof. apply Qc_is_canon. reflexivity. Qed.

Example Round_half_down : GoMath.Round (Q2Qc (-5 # 2)) = Q2Qc (-3).
Proof. apply Qc_is_canon. reflexivity. Qed.

Example Round_below_half : GoMath.Round (Q2Qc (12 # 5)) = Q2Qc 2.
Proof. apply Qc_is_canon. reflexivity. Qed.

Example Parse_date_2024 :
  GoTime.ParseDate "2024-03-01" = Some (738945 * 86400000000000).
Proof. reflexivity. Qed.

Example Parse_zero : GoTime.ParseDate "0001-01-01" = Some 0.
Proof. reflexivity. Qed.

Example Parse_bad_day : GoTime.Parse "2023-02-29" = (0, Some GoTime.ParseError).
Proof. reflexivity. Qed.

Example Parse_absent : GoTime.Parse "" = (0, Some GoTime.ParseError).
Proof. reflexivity. Qed.

(** ** The scan handler *)

Section ScanFacts.
Import GoStrings GoTime Sql.

Lemma firstByInTimeDesc_None rows :
  firstByInTimeDesc rows = None ↔ rows = [].
Proof.
  split; [|by intros ->].
  destruct rows as [|d rest]; [done|]. simpl.
  destruct (firstByInTimeDesc rest) as [e|]; [|done].
  by destruct (sortsBefore _ _).
Qed.

Lemma firstByInTimeDesc_elem rows d :
  firstByInTimeDesc rows = Some d → d ∈ rows.
Proof.
  revert d. induction rows as [|x rest IH]; intros d; simpl; [done|].
  destruct (firstByInTimeDesc rest) as [e|].
  - destruct (sortsBefore _ _); intros [= <-].
    + right. by apply IH.
    + left.
  - intros [= <-]. left.
Qed.

(** The selected row is an open row of that person. *)
Lemma selectOpenDtr_found db fid id inT :
  selectOpenDtr false db fid = inr (id, inT) →
  ∃ d, d ∈ dtr db ∧ dtr_id d = id ∧ dtr_in_time d = inT
       ∧ dtr_faculty_id d = fid ∧ dtr_out_time d = None.
Proof.
  unfold selectOpenDtr. simpl.
  destruct (firstByInTimeDesc (openDtr db fid)) as [d|] eqn:Hd; [|done].
  intros [= <- <-]. exists d.
  apply firstByInTimeDesc_elem in Hd. unfold openDtr in Hd.
  apply list_elem_of_filter in Hd as [[? ?] ?]. done.
Qed.

Lemma selectOpenDtr_none db fid :
  selectOpenDtr false db fid = inl ErrNoRows ↔ openDtr db fid = [].
Proof.
  unfold selectOpenDtr. simpl. rewrite <- firstByInTimeDesc_None.
  destruct (firstByInTimeDesc _); split; done.
Qed.

(** With all statements succeeding, a scan of a known token that finds no
    open row appends one and answers "Clock IN". *)
Lemma handleScan_clock_in db path now fid nm rl :
  selectFacultyByToken false db (TrimPrefix path "/scan/") = inr (fid, nm, rl) →
  openDtr db fid = [] →
  handleScan noScanFaults db path now
  = (mkDB (faculty db) (dtr db ++ [mkDtr (nextDtrID db) fid (Some now) None]),
     ScanPage "Clock IN" nm rl now).
Proof.
  intros Hf Ho. unfold handleScan, noScanFaults.
  cbn [fault_faculty fault_lookup fault_write]. rewrite Hf.
  apply selectOpenDtr_none in Ho. by rewrite Ho.
Qed.

(** With all statements succeeding, a scan of a known token that finds an
    open row sets the [out_time] of the row(s) with the selected id and
    answers "Clock OUT". *)
Lemma handleScan_clock_out db path now fid nm rl d :
  selectFacultyByToken false db (TrimPrefix path "/scan/") = inr (fid, nm, rl) →
  firstByInTimeDesc (openDtr db fid) = Some d →
  handleScan noScanFaults db path now
  = (mkDB (faculty db) (setOutTime now (dtr_id d) <$> dtr db),
     ScanPage "Clock OUT" nm rl now).
Proof.
  intros Hf Ho. unfold handleScan, noScanFaults.
  cbn [fault_faculty fault_lookup fault_write]. rewrite Hf.
  unfold selectOpenDtr. by rewrite Ho.
Qed.

Lemma dtr_id_le_max (rows : list Dtr) d :
  d ∈ rows → dtr_id d ≤ foldr Z.max 0 (dtr_id <$> rows).
Proof.
  induction 1 as [d rows|d x rows _ IH]; rewrite fmap_cons; cbn [foldr]; lia.
Qed.

Lemma setOutTime_other now id (rows : list Dtr) :
  (∀ d, d ∈ rows → dtr_id d ≠ id) → setOutTime now id <$> rows = rows.
Proof.
  intros H. induction rows as [|x rows IH]; [done|]. rewrite fmap_cons.
  rewrite IH by (intros d Hd; apply H; by right).
  unfold setOutTime. rewrite decide_False; [done|]. apply H. left.
Qed.

Lemma nextDtrID_snoc db fid inT outT :
  nextDtrID (mkDB (faculty db)
                  (dtr db ++ [mkDtr (nextDtrID db) fid inT outT]))
  = nextDtrID db + 1.
Proof.
  unfold nextDtrID. cbn [dtr]. rewrite fmap_app, foldr_app.
  cbn [fmap list_fmap foldr dtr_id].
  generalize (dtr_id <$> dtr db). intros ids.
  assert (P : 0 ≤ foldr Z.max 0 ids) by (induction ids; cbn [foldr]; lia).
  assert (G : ∀ a, 0 ≤ a → foldr Z.max a ids = Z.max a (foldr Z.max 0 ids)).
  { clear P. induction ids as [|i ids IH]; intros a Ha; cbn [foldr]; [lia|].
    rewrite (IH a Ha). lia. }
  rewrite G; lia.
Qed.

End ScanFacts.

Section ScanRuns.
Import GoStrings GoTime Sql.

Lemma list_pair_ind {A} (P : list A → Prop) :
  P [] → (∀ x, P [x]) → (∀ x y l, P l → P (x :: y :: l)) → ∀ l, P l.
Proof.
  intros H0 H1 H2 l.
  cut (P l ∧ ∀ x, P (x :: l)); [tauto|].
  induction l as [|y l [IH1 IH2]]; split; auto.
Qed.

Lemma openDtr_snoc db fid d :
  openDtr (mkDB (faculty db) (dtr db ++ [d])) fid
  = openDtr db fid
    ++ (if decide (dtr_faculty_id d = fid ∧ dtr_out_time d = None)
        then [d] else []).
Proof.
  unfold openDtr. cbn [dtr]. by rewrite list.filter_app.
Qed.

(** From a log in which the person has no open row, scans of the
    person's token handled one after the other extend the log by
    [pairedLog] and answer IN, OUT, IN, ... *)
Lemma scanAll_from_closed path fid nm rl nows : ∀ db,
  selectFacultyByToken false db (TrimPrefix path "/scan/") = inr (fid, nm, rl) →
  openDtr db fid = [] →
  scanAll noScanFaults db path nows
  = (mkDB (faculty db) (dtr db ++ pairedLog fid (nextDtrID db) nows),
     alternating true nm rl nows).
Proof.
  induction nows as [|t|t1 t2 rest IH] using list_pair_ind; intros db Hf Ho.
  - destruct db. cbn [scanAll pairedLog alternating faculty dtr].
    by rewrite app_nil_r.
  - cbn [scanAll]. by rewrite (handleScan_clock_in _ _ _ _ _ _ Hf Ho).
  - cbn [scanAll]. rewrite (handleScan_clock_in _ _ _ _ _ _ Hf Ho).
    set (n := nextDtrID db).
    set (db1 := mkDB (faculty db) (dtr db ++ [mkDtr n fid (Some t1) None])).
    assert (Ho1 : openDtr db1 fid = [mkDtr n fid (Some t1) None]).
    { unfold db1. rewrite openDtr_snoc. cbn [dtr_faculty_id dtr_out_time].
      rewrite decide_True by done. by rewrite Ho. }
    assert (Hf1 : selectFacultyByToken false db1 (TrimPrefix path "/scan/")
                  = inr (fid, nm, rl)) by done.
    rewrite (handleScan_clock_out db1 path t2 fid nm rl
               (mkDtr n fid (Some t1) None) Hf1)
      by (by rewrite Ho1).
    cbn [dtr_id db1 faculty dtr].
    rewrite fmap_app, setOutTime_other.
    2:{ intros d Hd Heq. apply dtr_id_le_max in Hd.
        unfold n, nextDtrID in Heq. lia. }
    cbn [fmap list_fmap]. unfold setOutTime at 1. cbn [dtr_id].
    rewrite decide_True by done.
    cbn [dtr_faculty_id dtr_in_time].
    set (db2 := mkDB (faculty db) (dtr db ++ [mkDtr n fid (Some t1) (Some t2)])).
    assert (Ho2 : openDtr db2 fid = []).
    { unfold db2. rewrite openDtr_snoc. cbn [dtr_faculty_id dtr_out_time].
      rewrite decide_False by (by intros [_ ?]).
      by rewrite Ho, app_nil_r. }
    assert (Hf2 : selectFacultyByToken false db2 (TrimPrefix path "/scan/")
                  = inr (fid, nm, rl)) by done.
    rewrite (IH db2 Hf2 Ho2).
    assert (Hn : nextDtrID db2 = n + 1).
    { unfold db2, n. apply nextDtrID_snoc. }
    rewrite Hn. cbn [db2 faculty dtr pairedLog alternating negb].
    by rewrite <- app_assoc.
Qed.

End ScanRuns.

Section ScanClaims.
Import GoStrings GoTime Sql.

(** C1 — state alternation.  Scans of one known token, handled one after
    the other with every statement succeeding and starting from an empty
    event log, answer IN, OUT, IN, OUT, ... starting with IN, and leave
    exactly the log made of the paired rows.  Each single scan either
    finds no open row of the person, appends one and answers "Clock IN",
    or finds one, sets the out-time of the selected row and answers
    "Clock OUT"; the rest of the database is as before. *)
Theorem handleScan_alternates fac path fid nm rl
    (Hknown : selectFacultyByToken false (mkDB fac [])
                (TrimPrefix path "/scan/") = inr (fid, nm, rl)) :
  (∀ nows,
     scanAll noScanFaults (mkDB fac []) path nows
     = (mkDB fac (pairedLog fid 1 nows), alternating true nm rl nows))
  ∧ (∀ log now,
       openDtr (mkDB fac log) fid = [] →
       handleScan noScanFaults (mkDB fac log) path now
       = (mkDB fac (log ++ [mkDtr (nextDtrID (mkDB fac log)) fid (Some now) None]),
          ScanPage "Clock IN" nm rl now))
  ∧ (∀ log now d,
       firstByInTimeDesc (openDtr (mkDB fac log) fid) = Some d →
       handleScan noScanFaults (mkDB fac log) path now
       = (mkDB fac (setOutTime now (dtr_id d) <$> log),
          ScanPage "Clock OUT" nm rl now)).
Proof.
  split; [|split].
  - intros nows.
    by rewrite (scanAll_from_closed path fid nm rl nows (mkDB fac []) Hknown).
  - intros log now Ho.
    by rewrite (handleScan_clock_in (mkDB fac log) path now fid nm rl).
  - intros log now d Hd.
    by rewrite (handleScan_clock_out (mkDB fac log) path now fid nm rl d).
Qed.

Lemma handleScan_alternates_witness :
  scanAll noScanFaults emptyLog "/scan/a1b2c3d4e5f60718"
          [clock 8 0; clock 12 30; clock 13 15]
  = (mkDB [ana; ben]
          [mkDtr 1 1 (Some (clock 8 0)) (Some (clock 12 30));
           mkDtr 2 1 (Some (clock 13 15)) None],
     [ScanPage "Clock IN" "Ana Cruz" "Instructor" (clock 8 0);
      ScanPage "Clock OUT" "Ana Cruz" "Instructor" (clock 12 30);
      ScanPage "Clock IN" "Ana Cruz" "Instructor" (clock 13 15)]).
Proof.
  exact (proj1 (handleScan_alternates [ana; ben] "/scan/a1b2c3d4e5f60718"
                  1 "Ana Cruz" "Instructor" eq_refl)
               [clock 8 0; clock 12 30; clock 13 15]).
Defined.

(** The errors of the two write statements are dropped: a scan whose
    insert fails still answers "Clock IN", with the log unchanged. *)
Remark handleScan_write_failure db path now fid nm rl :
  selectFacultyByToken false db (TrimPrefix path "/scan/") = inr (fid, nm, rl) →
  openDtr db fid = [] →
  handleScan (mkScanFaults false false true) db path now
  = (db, ScanPage "Clock IN" nm rl now).
Proof.
  intros Hf Ho. unfold handleScan.
  cbn [fault_faculty fault_lookup fault_write]. rewrite Hf.
  apply selectOpenDtr_none in Ho. by rewrite Ho.
Qed.

(** C8 — a failed lookup changes nothing.  When the open-row lookup of a
    scan fails with an error other than "no rows", [handleScan] leaves the
    whole database as it was, and for a known token it answers the error
    500 "DB error". *)
Theorem handleScan_lookup_failure fl db path now
    (Hfail : fault_lookup fl = true) :
  (handleScan fl db path now).1 = db
  ∧ (∀ fid nm rl,
       selectFacultyByToken (fault_faculty fl) db (TrimPrefix path "/scan/")
       = inr (fid, nm, rl) →
       selectOpenDtr (fault_lookup fl) db fid = inl ErrDriver
       ∧ handleScan fl db path now = (db, ScanError 500 "DB error")).
Proof.
  unfold handleScan. rewrite Hfail. split.
  - destruct (selectFacultyByToken _ _ _) as [e|[[fid nm] rl]]; done.
  - intros fid nm rl ->. done.
Qed.

Lemma handleScan_lookup_failure_witness :
  (handleScan (mkScanFaults false true false)
              (mkDB [ana; ben] [mkDtr 1 1 (Some (clock 8 0)) None])
              "/scan/a1b2c3d4e5f60718" (clock 12 30)).1
  = mkDB [ana; ben] [mkDtr 1 1 (Some (clock 8 0)) None].
Proof.
  exact (proj1 (handleScan_lookup_failure (mkScanFaults false true false)
                  (mkDB [ana; ben] [mkDtr 1 1 (Some (clock 8 0)) None])
                  "/scan/a1b2c3d4e5f60718" (clock 12 30) eq_refl)).
Defined.

End ScanClaims.

Section ScanActive.
Import GoStrings GoTime Sql.

Lemma selectFacultyByToken_toggle fault db id token :
  selectFacultyByToken fault (updateFacultyToggle db id) token
  = selectFacultyByToken fault db token.
Proof.
  unfold selectFacultyByToken, updateFacultyToggle. cbn [faculty].
  destruct fault; [done|].
  induction (faculty db) as [|f fs IH]; [done|].
  rewrite fmap_cons, !filter_cons.
  assert (Hf : fac_token (flipActive id f) = fac_token f
               ∧ fac_id (flipActive id f) = fac_id f
               ∧ fac_name (flipActive id f) = fac_name f
               ∧ fac_role (flipActive id f) = fac_role f).
  { unfold flipActive. by case_decide. }
  destruct Hf as (Ht & Hi & Hn & Hr). rewrite Ht.
  case_decide; [by rewrite Hi, Hn, Hr | done].
Qed.

Lemma fmap_fixed {A} (f : A → A) (l : list A) :
  f <$> l = l → ∀ x, x ∈ l → f x = x.
Proof.
  induction l as [|y l IH]; intros Heq x Hx; [by apply elem_of_nil in Hx|].
  rewrite fmap_cons in Heq. injection Heq as Hy Hl.
  apply elem_of_cons in Hx as [-> | Hx]; auto.
Qed.

(** C10 — the [active] flag plays no part in a scan.  Flipping the flag
    of any person before a scan changes neither the answer nor what the
    scan does to the log; and for every token that resolves to a person,
    whatever the flag, a scan whose statements succeed answers
    "Clock IN" or "Clock OUT" and changes the log. *)
Theorem handleScan_ignores_active db path now fid nm rl
    (Hknown : selectFacultyByToken false db (TrimPrefix path "/scan/")
              = inr (fid, nm, rl)) :
  (∀ fl id,
     handleScan fl (updateFacultyToggle db id) path now
     = (updateFacultyToggle (handleScan fl db path now).1 id,
        (handleScan fl db path now).2))
  ∧ (∃ status,
       (handleScan noScanFaults db path now).2 = ScanPage status nm rl now
       ∧ (status = "Clock IN" ∨ status = "Clock OUT")
       ∧ dtr (handleScan noScanFaults db path now).1 ≠ dtr db).
Proof.
  split.
  - intros fl id. unfold handleScan.
    rewrite selectFacultyByToken_toggle.
    destruct (selectFacultyByToken (fault_faculty fl) _ _)
      as [e|[[fid' nm'] rl']]; [done|].
    change (selectOpenDtr (fault_lookup fl) (updateFacultyToggle db id) fid')
      with (selectOpenDtr (fault_lookup fl) db fid').
    destruct (selectOpenDtr (fault_lookup fl) db fid')
      as [[|]|[dtrID inT]]; [| done |].
    + unfold insertDtr. by destruct (fault_write fl).
    + unfold updateDtrOutTime. by destruct (fault_write fl).
  - destruct (firstByInTimeDesc (openDtr db fid)) as [d|] eqn:Hd.
    + exists "Clock OUT"%string.
      rewrite (handleScan_clock_out db path now fid nm rl d Hknown Hd).
      cbn [fst snd dtr]. split; [done|]. split; [by right|].
      intros Heq. apply firstByInTimeDesc_elem in Hd.
      apply list_elem_of_filter in Hd as [[_ Hopen] Hin].
      pose proof (fmap_fixed _ _ Heq d Hin) as Hfix.
      unfold setOutTime in Hfix. rewrite decide_True in Hfix by done.
      rewrite <- Hfix in Hopen. done.
    + exists "Clock IN"%string. apply firstByInTimeDesc_None in Hd.
      rewrite (handleScan_clock_in db path now fid nm rl Hknown Hd).
      cbn [fst snd dtr]. split; [done|]. split; [by left|].
      intros Heq. apply (f_equal length) in Heq.
      rewrite length_app in Heq. simpl in Heq. lia.
Qed.

Lemma handleScan_ignores_active_witness :
  ∃ status,
    (handleScan noScanFaults emptyLog "/scan/0f1e2d3c4b5a6978" (clock 8 0)).2
    = ScanPage status "Ben Reyes" "Lecturer" (clock 8 0)
    ∧ (status = "Clock IN" ∨ status = "Clock OUT")
    ∧ dtr (handleScan noScanFaults emptyLog "/scan/0f1e2d3c4b5a6978"
                      (clock 8 0)).1 ≠ dtr emptyLog.
Proof.
  exact (proj2 (handleScan_ignores_active emptyLog "/scan/0f1e2d3c4b5a6978"
                  (clock 8 0) 2 "Ben Reyes" "Lecturer" eq_refl)).
Defined.

Example deactivated_person_clocks_in :
  handleScan noScanFaults emptyLog "/scan/0f1e2d3c4b5a6978" (clock 8 0)
  = (mkDB [ana; ben] [mkDtr 1 2 (Some (clock 8 0)) None],
     ScanPage "Clock IN" "Ben Reyes" "Lecturer" (clock 8 0)).
Proof. reflexivity. Qed.

End ScanActive.

(** ** Arithmetic of hours *)

Section HoursFacts.
Import GoMath.
Local Open Scope Qc_scope.

Lemma Qc_nonneg_num (x : Qc) : 0 ≤ x ↔ (0 ≤ Qnum (this x))%Z.
Proof. unfold Qcle, Qle. simpl. lia. Qed.

Lemma of_int_nonneg k : (0 ≤ k)%Z → 0 ≤ of_int k.
Proof. intros H. by apply Qc_nonneg_num. Qed.

Lemma RoundZ_nonneg x : 0 ≤ x → (0 ≤ RoundZ x)%Z.
Proof.
  rewrite Qc_nonneg_num. intros H. unfold RoundZ.
  apply Z.quot_pos; lia.
Qed.

(** A rounded number of quarter hours is a multiple of 0.25. *)
Lemma quarters_exact x :
  Round (x * of_int 4) / of_int 4 * of_int 4 = of_int (RoundZ (x * of_int 4)).
Proof. unfold Round. field. done. Qed.

Lemma quarters_nonneg x : 0 ≤ x → 0 ≤ Round (x * of_int 4) / of_int 4.
Proof.
  intros H. unfold Qcdiv, Round. apply Qcmult_nonneg_nonneg.
  - apply of_int_nonneg, RoundZ_nonneg.
    apply Qcmult_nonneg_nonneg; [done|]. by apply of_int_nonneg.
  - apply Qc_nonneg_num. by vm_compute.
Qed.

Lemma quarters_zero : Round (0 * of_int 4) / of_int 4 = 0.
Proof. rewrite Qcmult_0_l. apply Qc_is_canon. reflexivity. Qed.

Lemma contribution_nonneg j : 0 ≤ contribution j.
Proof.
  unfold contribution.
  destruct (j_in_time j), (j_out_time j); try done.
  case_decide; [by apply Qclt_le_weak | done].
Qed.

Lemma sumFor_nonneg w id rs :
  (∀ j, 0 ≤ w j) → 0 ≤ sumFor w id rs.
Proof.
  intros Hw. induction rs as [|j rs IH]; cbn [sumFor]; [done|].
  case_decide; [|done]. by apply Qcplus_nonneg_nonneg.
Qed.

Lemma sumFor_absent w id rs :
  filter (λ j, j_id j = id) rs = [] → sumFor w id rs = 0.
Proof.
  induction rs as [|j rs IH]; cbn [sumFor]; [done|].
  rewrite filter_cons. case_decide; [done|]. apply IH.
Qed.

Lemma sumFor_zero w id rs :
  (∀ j, j ∈ rs → j_id j = id → w j = 0) → sumFor w id rs = 0.
Proof.
  induction rs as [|j rs IH]; intros H; cbn [sumFor]; [done|].
  rewrite IH by (intros j' Hj'; apply H; by right).
  case_decide; [|done]. rewrite H; [done | left | done].
Qed.

End HoursFacts.

(** ** The maps built by the payroll loops *)

Section PayrollMaps.
Import GoMath GoTime Sql.
Local Open Scope Qc_scope.

Lemma addTotalHours_zero r : addTotalHours 0 r = r.
Proof. destruct r. unfold addTotalHours. cbn. by rewrite Qcplus_0_r. Qed.

Lemma addTotalHours_add a b r :
  addTotalHours b (addTotalHours a r) = addTotalHours (a + b) r.
Proof. unfold addTotalHours. cbn. by rewrite Qcplus_assoc. Qed.

(** One row of the result set: the entry of its person is created if
    missing and receives the row's contribution. *)
Lemma payrollScanRow_lookup m j id :
  payrollScanRow m j !! id
  = if decide (j_id j = id)
    then Some (addTotalHours (contribution j)
                 (default (freshRow id j) (m !! id)))
    else m !! id.
Proof.
  unfold payrollScanRow, contribution, freshRow. cbv zeta.
  set (m1 := match m !! j_id j with Some _ => m | None => _ end).
  assert (H1 : m1 !! id = if decide (j_id j = id)
                          then Some (default (mkRow id (j_name j) (j_role j)
                                                (j_rate j) 0 0) (m !! id))
                          else m !! id).
  { unfold m1. case_decide as Hid.
    - subst id. destruct (m !! j_id j) as [r|] eqn:Hm; [done|].
      by rewrite lookup_insert_eq.
    - destruct (m !! j_id j); [done|]. by rewrite lookup_insert_ne. }
  destruct (j_in_time j) as [inT|], (j_out_time j) as [outT|];
    try (rewrite H1; case_decide; by rewrite ?addTotalHours_zero).
  destruct (decide (0 < Hours (Sub outT inT))).
  - destruct (decide (j_id j = id)) as [Hid|Hid].
    + subst id. by rewrite lookup_alter_eq, H1.
    + by rewrite lookup_alter_ne, H1 by done.
  - rewrite H1. case_decide; by rewrite ?addTotalHours_zero.
Qed.

(** The entry of person [id] after the whole result set. *)
Lemma payroll_map_lookup rs : ∀ m id,
  foldl payrollScanRow m rs !! id
  = match m !! id with
    | Some r => Some (addTotalHours (sumFor contribution id rs) r)
    | None =>
        (λ j, addTotalHours (sumFor contribution id rs) (freshRow id j))
        <$> head (filter (λ j, j_id j = id) rs)
    end.
Proof.
  induction rs as [|j rs IH]; intros m id; cbn [foldl sumFor].
  - destruct (m !! id); [by rewrite addTotalHours_zero | done].
  - rewrite IH, payrollScanRow_lookup, filter_cons.
    destruct (decide (j_id j = id)) as [Hid|Hid].
    + cbn [head fmap option_fmap option_map].
      destruct (m !! id); cbn [default]; by rewrite addTotalHours_add.
    + done.
Qed.

Lemma csvScanRow_lookup m j id :
  csvScanRow m j !! id
  = if decide (j_id j = id)
    then Some (mkCsvEntry (j_name j) (j_role j) (j_rate j)
                 (hours (default csvZero (m !! id)) + csvContribution j))
    else m !! id.
Proof.
  unfold csvScanRow, csvContribution. case_decide as Hid.
  - subst id. rewrite lookup_insert_eq.
    destruct (j_in_time j), (j_out_time j); cbn; by rewrite ?Qcplus_0_r.
  - by rewrite lookup_insert_ne.
Qed.

(** The entry of person [id] after the whole result set: the columns of
    the person's last row, and the sum of all its durations. *)
Lemma csv_map_lookup rs : ∀ m id,
  foldl csvScanRow m rs !! id
  = match list.last (filter (λ j, j_id j = id) rs) with
    | Some j =>
        Some (mkCsvEntry (j_name j) (j_role j) (j_rate j)
                (hours (default csvZero (m !! id))
                 + sumFor csvContribution id rs))
    | None => m !! id
    end.
Proof.
  induction rs as [|j rs IH]; intros m id; cbn [foldl sumFor]; [done|].
  rewrite IH, csvScanRow_lookup, filter_cons.
  destruct (decide (j_id j = id)) as [Hid|Hid]; [|done].
  rewrite last_cons. cbn [default hours].
  destruct (list.last (filter _ rs)) as [j'|] eqn:Hl.
  - by rewrite Qcplus_assoc.
  - apply last_None in Hl. by rewrite (sumFor_absent _ _ _ Hl), Qcplus_0_r.
Qed.

End PayrollMaps.

(** ** The rows of the report *)

Section PayrollRows.
Import GoMath GoTime Sql.
Local Open Scope Qc_scope.

Lemma payrollRange_acc (es : list (Z * Row)) : ∀ rows grand,
  foldl (λ '(rows, grand) e,
           let r := finishRow e.2 in (rows ++ [r], grand + Pay r))
        (rows, grand) es
  = (rows ++ ((finishRow ∘ snd) <$> es),
     foldl (λ acc r, acc + Pay r) grand ((finishRow ∘ snd) <$> es)).
Proof.
  induction es as [|e es IH]; intros rows grand; cbn [foldl fmap list_fmap].
  - by rewrite app_nil_r.
  - rewrite IH. by rewrite <- app_assoc.
Qed.

(** The last loop of [handlePayroll] finishes every entry in the order
    of the iteration and adds up the [Pay] fields in that order. *)
Lemma payrollRange_spec (es : list (Z * Row)) :
  payrollRange es
  = ((finishRow ∘ snd) <$> es, sumPay ((finishRow ∘ snd) <$> es)).
Proof. unfold payrollRange. by rewrite payrollRange_acc. Qed.

Lemma finish_fresh id rs j :
  j_id j = id →
  finishRow (addTotalHours (sumFor contribution id rs) (freshRow id j))
  = expectedRow rs j.
Proof.
  intros <-. unfold finishRow, addTotalHours, freshRow, expectedRow,
    roundedHours. cbn. by rewrite Qcplus_0_l.
Qed.

Lemma head_filter_id id (rs : list JoinRow) j :
  head (filter (λ j', j_id j' = id) rs) = Some j → j_id j = id ∧ j ∈ rs.
Proof.
  intros H. apply head_Some_elem_of in H.
  by apply list_elem_of_filter in H.
Qed.

(** The rows of the page are the [expectedRow]s of the first joined row
    of each person. *)
Lemma payroll_rows_elem ord rs r :
  r ∈ (finishRow ∘ snd) <$> range_of ord Row (foldl payrollScanRow ∅ rs)
  ↔ ∃ j, head (filter (λ j', j_id j' = j_id j) rs) = Some j
         ∧ r = expectedRow rs j.
Proof.
  rewrite (range_perm ord), list_elem_of_fmap. split.
  - intros [[id r0] [-> Hin]]. apply elem_of_map_to_list in Hin.
    rewrite payroll_map_lookup, lookup_empty in Hin.
    destruct (head _) as [j|] eqn:Hj; [|done].
    injection Hin as <-. destruct (head_filter_id _ _ _ Hj) as [Hid _].
    exists j. rewrite Hid. split; [done|]. by apply finish_fresh.
  - intros [j [Hj ->]].
    exists (j_id j, addTotalHours (sumFor contribution (j_id j) rs)
                      (freshRow (j_id j) j)).
    split; [by rewrite <- (finish_fresh (j_id j))|].
    apply elem_of_map_to_list.
    by rewrite payroll_map_lookup, lookup_empty, Hj.
Qed.

Lemma payroll_rows_ids ord rs :
  FacultyID <$> ((finishRow ∘ snd) <$> range_of ord Row (foldl payrollScanRow ∅ rs))
  ≡ₚ (map_to_list (foldl payrollScanRow ∅ rs)).*1.
Proof.
  rewrite (range_perm ord), <- list_fmap_compose.
  apply reflexive_eq, list_fmap_ext.
  intros i [id r0] Hin. apply list_elem_of_lookup_2, elem_of_map_to_list in Hin.
  rewrite payroll_map_lookup, lookup_empty in Hin.
  destruct (head _) as [j|]; [|done]. by injection Hin as <-.
Qed.

Lemma payroll_rows_NoDup ord rs :
  NoDup (FacultyID <$> ((finishRow ∘ snd)
           <$> range_of ord Row (foldl payrollScanRow ∅ rs))).
Proof. rewrite payroll_rows_ids. apply NoDup_fst_map_to_list. Qed.

End PayrollRows.

(** ** The joins *)

Section Joins.
Import GoMath GoTime Sql.
Local Open Scope Qc_scope.

Lemma leftJoin_elem on db j :
  j ∈ leftJoin on db
  ↔ ∃ f, f ∈ faculty db
         ∧ ((List.filter (on f) (dtr db) = [] ∧ j = joined f None None)
            ∨ ∃ d, d ∈ dtr db ∧ on f d = true
                   ∧ j = joined f (dtr_in_time d) (dtr_out_time d)).
Proof.
  unfold leftJoin. rewrite list_elem_of_bind. split.
  - intros [f [Hj Hf]]. exists f. split; [done|].
    destruct (List.filter (on f) (dtr db)) as [|d0 ds] eqn:Hfl.
    + left. apply list_elem_of_singleton in Hj. done.
    + right. apply list_elem_of_fmap in Hj as [d [-> Hd]].
      exists d. rewrite <- Hfl in Hd.
      apply list_elem_of_In, filter_In in Hd as [Hd Hon].
      by rewrite list_elem_of_In.
  - intros [f [Hf [[Hnil ->] | [d [Hd [Hon ->]]]]]]; exists f; (split; [|done]).
    + rewrite Hnil. left.
    + assert (Hin : d ∈ List.filter (on f) (dtr db)).
      { apply list_elem_of_In, filter_In. by rewrite <- list_elem_of_In. }
      destruct (List.filter (on f) (dtr db)) as [|d0 ds];
        [by apply elem_of_nil in Hin|].
      apply list_elem_of_fmap. by exists d.
Qed.

(** Every person has at least one row in a left join. *)
Lemma leftJoin_covers on db f :
  f ∈ faculty db → ∃ j, j ∈ leftJoin on db ∧ j_id j = fac_id f.
Proof.
  intros Hf. destruct (List.filter (on f) (dtr db)) as [|d ds] eqn:Hfl.
  - exists (joined f None None). split; [|done].
    apply leftJoin_elem. exists f. by eauto.
  - assert (Hd : In d (List.filter (on f) (dtr db))) by (rewrite Hfl; left; done).
    apply filter_In in Hd as [Hd Hon].
    exists (joined f (dtr_in_time d) (dtr_out_time d)). split; [|done].
    apply leftJoin_elem. exists f. split; [done|]. right. exists d.
    by rewrite list_elem_of_In.
Qed.

(** A row of a left join carries the columns of some person. *)
Lemma leftJoin_person on db j :
  j ∈ leftJoin on db →
  ∃ f, f ∈ faculty db ∧ j_id j = fac_id f ∧ j_name j = fac_name f
       ∧ j_role j = fac_role f ∧ j_rate j = fac_rate_per_hour f.
Proof.
  rewrite leftJoin_elem.
  intros [f [Hf [[_ ->] | [d [_ [_ ->]]]]]]; by exists f.
Qed.

Lemma between_bounds t lo hi x :
  between t lo hi = true → t = Some x → (lo ≤ x ∧ x ≤ hi)%Z.
Proof. intros H ->. cbn in H. lia. Qed.

Lemma between_empty t lo hi : (hi < lo)%Z → between t lo hi = false.
Proof. intros H. destruct t as [x|]; cbn; [lia|done]. Qed.

(** A person none of whose events starts in the range has only rows
    that add nothing. *)
Lemma payroll_no_events db start end_ id :
  (∀ d, d ∈ dtr db → dtr_faculty_id d = id →
        between (dtr_in_time d) start end_ = false) →
  sumFor contribution id (leftJoin (onPayroll start end_) db) = 0.
Proof.
  intros Hno. apply sumFor_zero. intros j Hj Hid.
  apply leftJoin_elem in Hj as [f [Hf [[_ ->] | [d [Hd [Hon ->]]]]]]; [done|].
  unfold onPayroll in Hon. apply andb_true_iff in Hon as [Hfid Hbt].
  apply bool_decide_eq_true in Hfid. cbn in Hid.
  rewrite Hno in Hbt; [done | done | congruence].
Qed.

(** [handlePayroll] with a working database answers a page: the range,
    the [reportRows] of the query's result set, and their total. *)
Lemma handlePayroll_page ord db startValue endValue now :
  let range := formRange startValue endValue now in
  let rs := leftJoin (onPayroll range.1 range.2) db in
  handlePayroll ord false db startValue endValue now
  = PayrollPage range.1 range.2 (reportRows ord rs) (sumPay (reportRows ord rs)).
Proof.
  unfold handlePayroll. destruct (formRange _ _ _) as [start end_].
  unfold payrollReport, payrollQuery. cbn [fst snd].
  by rewrite payrollRange_spec.
Qed.

(** A failing query aborts the report with the error 500; the CSV handler
    drops the error and then dereferences the nil result. *)
Remark payroll_query_failure ord db startValue endValue now :
  handlePayroll ord true db startValue endValue now = PayrollError 500
  ∧ handlePayrollCSV ord true db startValue endValue now = CsvPanic.
Proof.
  unfold handlePayroll, handlePayrollCSV.
  by destruct (formRange _ _ _) as [start end_].
Qed.

Lemma handlePayrollCSV_file ord db startValue endValue now :
  let range := formRange startValue endValue now in
  let rs := List.filter (λ j, between (j_in_time j) range.1 range.2)
              (leftJoin onCSV db) in
  handlePayrollCSV ord false db startValue endValue now
  = CsvFile (csvRecord <$> range_of ord CsvEntry (foldl csvScanRow ∅ rs)).
Proof.
  unfold handlePayrollCSV. by destruct (formRange _ _ _) as [start end_].
Qed.

End Joins.

(** ** Durations *)

Section Durations.
Import GoMath GoTime Sql.
Local Open Scope Qc_scope.

(** [Hours] is the exact quotient by an hour. *)
Lemma Hours_exact d : Hours d = of_int d / of_int Hour.
Proof.
  assert (E : Qc_of_Z d
              = Qc_of_Z Hour * Qc_of_Z (Z.quot d Hour) + Qc_of_Z (Z.rem d Hour)).
  { rewrite <- Z2Qc_inj_mul, <- Z2Qc_inj_add. f_equal. apply Z.quot_rem'. }
  unfold Hours, of_int, float64. cbv zeta.
  change (60 * 60 * 1000000000)%Z with Hour. rewrite E. field.
  intros H. rewrite <- Z2Qc_inj_0 in H. by apply Z2Qc_inj in H.
Qed.

Lemma Hours_pos d : 0 < Hours d ↔ (0 < d)%Z.
Proof.
  rewrite Hours_exact. unfold Qcdiv, of_int.
  assert (HH : 0 < / Qc_of_Z Hour).
  { apply Qcinv_pos. rewrite <- Z2Qc_inj_0. by apply Z2Qc_inj_lt. }
  rewrite (Z2Qc_inj_lt 0 d), Z2Qc_inj_0.
  rewrite (Qcmult_lt_mono_pos_r 0 (Qc_of_Z d) _ HH).
  by rewrite Qcmult_0_l.
Qed.

Lemma Sub_pos t u : (0 < Sub t u)%Z ↔ (u < t)%Z.
Proof.
  unfold Sub, minDuration, maxDuration. cbv zeta.
  repeat case_match; lia.
Qed.

(** A row whose out-time is not after its in-time adds nothing; any
    other row with both times adds its duration, which is positive. *)
Lemma contribution_closed j inT outT :
  j_in_time j = Some inT → j_out_time j = Some outT →
  contribution j = if decide (inT < outT)%Z then Hours (Sub outT inT) else 0.
Proof.
  intros Hi Ho. unfold contribution. rewrite Hi, Ho. cbv zeta.
  pose proof (Hours_pos (Sub outT inT)) as Hp. rewrite Sub_pos in Hp.
  repeat case_decide; tauto.
Qed.

Lemma contribution_open j :
  j_in_time j = None ∨ j_out_time j = None → contribution j = 0.
Proof.
  unfold contribution. intros [-> | ->]; [done|].
  by destruct (j_in_time j).
Qed.

End Durations.

(** ** The payroll report *)

Section PayrollClaims.
Import GoMath GoTime Sql.
Local Open Scope Qc_scope.

Lemma reportRows_elem ord rs r :
  r ∈ reportRows ord rs
  ↔ ∃ j, head (filter (λ j', j_id j' = j_id j) rs) = Some j
         ∧ r = expectedRow rs j.
Proof. apply payroll_rows_elem. Qed.

Lemma reportRows_first ord rs j :
  j ∈ rs → ∃ j0, j0 ∈ rs ∧ j_id j0 = j_id j ∧ expectedRow rs j0 ∈ reportRows ord rs.
Proof.
  intros Hj.
  destruct (head (filter (λ j', j_id j' = j_id j) rs)) as [j0|] eqn:Hh.
  - destruct (head_filter_id _ _ _ Hh) as [Hid Hin].
    exists j0. repeat split; [done..|].
    apply reportRows_elem. exists j0. by rewrite Hid.
  - apply head_None in Hh.
    assert (Hin : j ∈ filter (λ j', j_id j' = j_id j) rs)
      by by apply list_elem_of_filter.
    rewrite Hh in Hin. by apply elem_of_nil in Hin.
Qed.

(** The page of [handlePayroll] in the model with instants: every
    person of table [faculty] has exactly one row, and a person none of
    whose events begins in the range has zero hours and zero pay. *)
Lemma report_complete ord db startValue endValue now :
  let range := formRange startValue endValue now in
  ∃ Rows GrandTotal,
    handlePayroll ord false db startValue endValue now
    = PayrollPage range.1 range.2 Rows GrandTotal
    ∧ NoDup (FacultyID <$> Rows)
    ∧ (∀ f, f ∈ faculty db → fac_id f ∈ FacultyID <$> Rows)
    ∧ (∀ r, r ∈ Rows →
         ∃ f, f ∈ faculty db ∧ FacultyID r = fac_id f
              ∧ Name r = fac_name f ∧ Role r = fac_role f
              ∧ RatePerHour r = fac_rate_per_hour f)
    ∧ (∀ r, r ∈ Rows →
         (∀ d, d ∈ dtr db → dtr_faculty_id d = FacultyID r →
               between (dtr_in_time d) range.1 range.2 = false) →
         TotalHours r = 0 ∧ Pay r = 0).
Proof.
  intros range.
  set (rs := leftJoin (onPayroll range.1 range.2) db).
  exists (reportRows ord rs), (sumPay (reportRows ord rs)).
  split; [apply handlePayroll_page|].
  split; [apply payroll_rows_NoDup|].
  split; [|split].
  - intros f Hf.
    destruct (leftJoin_covers (onPayroll range.1 range.2) db f Hf)
      as [j [Hj Hid]].
    destruct (reportRows_first ord rs j Hj) as [j0 [_ [Hid0 Hin]]].
    apply list_elem_of_fmap. exists (expectedRow rs j0).
    split; [|done]. cbn. congruence.
  - intros r Hr. apply reportRows_elem in Hr as [j [Hj ->]].
    destruct (head_filter_id _ _ _ Hj) as [_ Hin].
    by apply leftJoin_person in Hin.
  - intros r Hr Hno. apply reportRows_elem in Hr as [j [Hj ->]].
    change (FacultyID (expectedRow rs j)) with (j_id j) in Hno.
    unfold expectedRow, roundedHours, rs. cbn [TotalHours Pay].
    rewrite (payroll_no_events db range.1 range.2 (j_id j) Hno).
    by rewrite quarters_zero, Qcmult_0_l.
Qed.

(** The closed interval 08:00-12:30 at a rate of 100 gives 4.5 hours and a
    pay of 450; the interval still open contributes nothing, and a person
    without events has a zero row. *)
Example payroll_of_workday :
  handlePayroll reverseKeyOrder false workdayLog "2024-03-01" "2024-03-02"
                (clock 17 0)
  = PayrollPage day0 (day0 + 24 * Hour)%Z
      [mkRow 1 "Ana Cruz" "Instructor" (of_int 100) (Q2Qc (9 # 2)) (of_int 450);
       mkRow 2 "Ben Reyes" "Lecturer" (of_int 80) (of_int 0) (of_int 0)]
      (of_int 450).
Proof. apply (bool_decide_unpack _). by vm_compute. Qed.

(** The end date is the midnight that begins it: with start and end on the
    same day, no event of that day is in the range. *)
Example payroll_of_single_day :
  handlePayroll reverseKeyOrder false workdayLog "2024-03-01" "2024-03-01"
                (clock 17 0)
  = PayrollPage day0 day0
      [mkRow 1 "Ana Cruz" "Instructor" (of_int 100) (of_int 0) (of_int 0);
       mkRow 2 "Ben Reyes" "Lecturer" (of_int 80) (of_int 0) (of_int 0)]
      (of_int 0).
Proof. apply (bool_decide_unpack _). by vm_compute. Qed.

Example csv_of_workday :
  handlePayrollCSV reverseKeyOrder false workdayLog "2024-03-01" "2024-03-02"
                   (clock 17 0)
  = CsvFile [mkCsvRecord 1 "Ana Cruz" "Instructor" (of_int 100)
                         (Q2Qc (9 # 2)) (of_int 450)].
Proof. apply (bool_decide_unpack _). by vm_compute. Qed.

(** Hours are never negative in the page of [handlePayroll]. *)
Lemma handlePayroll_hours_nonneg ord rs r :
  r ∈ reportRows ord rs → 0 ≤ TotalHours r.
Proof.
  intros Hr. apply reportRows_elem in Hr as [j [_ ->]]. cbn.
  apply quarters_nonneg, sumFor_nonneg, contribution_nonneg.
Qed.

Lemma csvRecords_elem ord rs c :
  c ∈ csvRecord <$> range_of ord CsvEntry (foldl csvScanRow ∅ rs)
  ↔ ∃ j, list.last (filter (λ j', j_id j' = j_id j) rs) = Some j
         ∧ c = csvRecord (j_id j,
                 mkCsvEntry (j_name j) (j_role j) (j_rate j)
                            (sumFor csvContribution (j_id j) rs)).
Proof.
  rewrite (range_perm ord), list_elem_of_fmap. split.
  - intros [[id e] [-> Hin]]. apply elem_of_map_to_list in Hin.
    rewrite csv_map_lookup, lookup_empty in Hin.
    destruct (list.last _) as [j|] eqn:Hj; [|done].
    injection Hin as <-.
    assert (Hid : j_id j = id).
    { apply last_Some_elem_of, list_elem_of_filter in Hj. tauto. }
    exists j. rewrite Hid. split; [done|]. cbn. by rewrite Qcplus_0_l.
  - intros [j [Hj ->]]. eexists (j_id j, _). split; [done|].
    apply elem_of_map_to_list.
    rewrite csv_map_lookup, lookup_empty, Hj. cbn. by rewrite Qcplus_0_l.
Qed.

End PayrollClaims.

(** ** The date range *)

Section DateRange.
Import GoMath GoTime Sql.
Local Open Scope Qc_scope.



End DateRange.

(** ** The CSV export against the report *)

Section CsvAgainstReport.
Import GoMath GoTime Sql.
Local Open Scope Qc_scope.

(** A CSV record stems from an event of its person that begins in the
    range. *)
Lemma csvRecords_event ord db start end_ c :
  c ∈ csvRecord <$> range_of ord CsvEntry
        (foldl csvScanRow ∅
           (List.filter (λ j, between (j_in_time j) start end_)
              (leftJoin onCSV db))) →
  ∃ d, d ∈ dtr db ∧ dtr_faculty_id d = csv_id c
       ∧ between (dtr_in_time d) start end_ = true.
Proof.
  intros Hc. apply csvRecords_elem in Hc as [j [Hj ->]].
  apply last_Some_elem_of, list_elem_of_filter in Hj as [_ Hj].
  apply list_elem_of_In, filter_In in Hj as [Hj Hb].
  apply list_elem_of_In, leftJoin_elem in Hj
    as [f [_ [[_ ->] | [d [Hd [Hon ->]]]]]]; [done|].
  exists d. split; [done|]. split; [|done].
  unfold onCSV in Hon. by apply bool_decide_eq_true in Hon.
Qed.

(** C3 — the two outputs differ.  A person none of whose events begins
    in the range has a row in the page of [handlePayroll] and no record
    in the file of [handlePayrollCSV]. *)
Theorem csv_drops_idle_persons ord ord' db startValue endValue now f
    (Hf : f ∈ faculty db)
    (Hidle : ∀ d, d ∈ dtr db → dtr_faculty_id d = fac_id f →
             between (dtr_in_time d)
               (formRange startValue endValue now).1
               (formRange startValue endValue now).2 = false) :
  ∃ Rows GrandTotal records,
    handlePayroll ord false db startValue endValue now
    = PayrollPage (formRange startValue endValue now).1
                  (formRange startValue endValue now).2 Rows GrandTotal
    ∧ handlePayrollCSV ord' false db startValue endValue now = CsvFile records
    ∧ fac_id f ∈ FacultyID <$> Rows
    ∧ fac_id f ∉ FacultyID <$> (rowOfCsv <$> records).
Proof.
  destruct (report_complete ord db startValue endValue now)
    as (Rows & G & Hpage & _ & Hall & _).
  eexists Rows, G, _. split; [exact Hpage|].
  split; [apply handlePayrollCSV_file|]. split; [by apply Hall|].
  rewrite <- list_fmap_compose. intros Hin.
  apply list_elem_of_fmap in Hin as [c [Hid Hc]]. cbn in Hid.
  apply csvRecords_event in Hc as [d [Hd [Hfid Hb]]].
  rewrite Hidle in Hb; [done | done | congruence].
Qed.

Lemma csv_drops_idle_persons_witness :
  ∃ Rows GrandTotal records,
    handlePayroll keyOrder false emptyLog "" "" (clock 17 0)
    = PayrollPage 0%Z (clock 17 0) Rows GrandTotal
    ∧ handlePayrollCSV keyOrder false emptyLog "" "" (clock 17 0)
      = CsvFile records
    ∧ 1%Z ∈ FacultyID <$> Rows
    ∧ 1%Z ∉ FacultyID <$> (rowOfCsv <$> records).
Proof.
  apply (csv_drops_idle_persons keyOrder keyOrder emptyLog "" ""
           (clock 17 0) ana).
  - left.
  - intros d Hd. by apply elem_of_nil in Hd.
Defined.

Example csv_export_of_emptyLog ord :
  handlePayrollCSV ord false emptyLog "" "" (clock 17 0) = CsvFile [].
Proof.
  rewrite handlePayrollCSV_file. cbv zeta. f_equal.
  pose proof (range_perm ord CsvEntry ∅) as Hp.
  rewrite map_to_list_empty in Hp. apply Permutation_nil_r in Hp.
  exact (f_equal (fmap csvRecord) Hp).
Qed.

Lemma range_singleton ord {A} (k : Z) (v : A) :
  range_of ord A {[k := v]} = [(k, v)].
Proof.
  pose proof (range_perm ord A {[k := v]}) as Hp.
  rewrite map_to_list_singleton in Hp.
  by apply Permutation_singleton_r in Hp.
Qed.

Lemma csvScanRow_first j :
  csvScanRow ∅ j
  = {[ j_id j := mkCsvEntry (j_name j) (j_role j) (j_rate j)
                   (0 + csvContribution j) ]}.
Proof.
  apply map_eq. intros id. rewrite csvScanRow_lookup, lookup_empty.
  case_decide as Hid.
  - subst id. by rewrite lookup_singleton_eq.
  - by rewrite lookup_singleton_ne.
Qed.

Lemma payrollScanRow_first j :
  payrollScanRow ∅ j
  = {[ j_id j := addTotalHours (contribution j) (freshRow (j_id j) j) ]}.
Proof.
  apply map_eq. intros id. rewrite payrollScanRow_lookup, lookup_empty.
  case_decide as Hid.
  - subst id. by rewrite lookup_singleton_eq.
  - by rewrite lookup_singleton_ne.
Qed.

(** C2 — the CSV export subtracts.  For the log whose one event ends two
    hours before it begins, whatever the iteration order, the file of
    [handlePayrollCSV] has one record, with -2 hours and a pay of -200,
    while the page of [handlePayroll] shows 0 hours for the same
    person. *)
Theorem csv_negative_hours ord :
  (∃ c, handlePayrollCSV ord false reversedLog "2024-03-01" "2024-03-02"
          (clock 17 0) = CsvFile [c]
        ∧ csv_id c = 1%Z
        ∧ csv_hours c = of_int (-2) ∧ csv_pay c = of_int (-200)
        ∧ csv_hours c < 0)
  ∧ (∃ r GrandTotal,
       handlePayroll ord false reversedLog "2024-03-01" "2024-03-02"
         (clock 17 0)
       = PayrollPage day0 (day0 + 24 * Hour)%Z [r] GrandTotal
       ∧ FacultyID r = 1%Z ∧ TotalHours r = 0 ∧ Pay r = 0).
Proof.
  set (j := mkJoinRow 1 "Ana Cruz" "Instructor" (of_int 100)
              (Some (clock 10 0)) (Some (clock 8 0))).
  split.
  - rewrite handlePayrollCSV_file. cbv zeta.
    assert (Hrs : List.filter
              (λ j, between (j_in_time j)
                 (formRange "2024-03-01" "2024-03-02" (clock 17 0)).1
                 (formRange "2024-03-01" "2024-03-02" (clock 17 0)).2)
              (leftJoin onCSV reversedLog) = [j]) by reflexivity.
    rewrite Hrs. cbn [foldl].
    rewrite csvScanRow_first, range_singleton.
    eexists. split; [done|]. split; [done|].
    assert (Hh : csv_hours (csvRecord (j_id j,
                   mkCsvEntry (j_name j) (j_role j) (j_rate j)
                     (0 + csvContribution j))) = of_int (-2)).
    { apply Qc_is_canon. by vm_compute. }
    split; [exact Hh|]. split.
    + apply Qc_is_canon. by vm_compute.
    + cbn [fmap list_fmap] in Hh |- *. rewrite Hh. by vm_compute.
  - pose proof (handlePayroll_page ord reversedLog "2024-03-01" "2024-03-02"
                  (clock 17 0)) as Hpage.
    cbv zeta in Hpage.
    assert (Hrs : leftJoin
              (onPayroll (formRange "2024-03-01" "2024-03-02" (clock 17 0)).1
                         (formRange "2024-03-01" "2024-03-02" (clock 17 0)).2)
              reversedLog = [j]) by reflexivity.
    rewrite Hrs in Hpage.
    assert (Hc : contribution j = 0).
    { rewrite (contribution_closed j (clock 10 0) (clock 8 0)) by done.
      by rewrite decide_False. }
    assert (Hrows : reportRows ord [j] = [expectedRow [j] j]).
    { unfold reportRows. cbn [foldl].
      rewrite payrollScanRow_first, range_singleton.
      cbn [fmap list_fmap compose snd].
      rewrite <- (finish_fresh 1 [j] j) by done.
      cbn [sumFor]. rewrite decide_True by done.
      by rewrite Qcplus_0_r. }
    rewrite Hrows in Hpage. eexists _, _. split; [exact Hpage|].
    split; [done|]. cbn [expectedRow TotalHours Pay]. unfold roundedHours.
    cbn [sumFor]. rewrite decide_True by done.
    by rewrite Hc, Qcplus_0_l, quarters_zero, Qcmult_0_l.
Qed.

End CsvAgainstReport.

(** ** Concurrent scans *)

Section ConcurrentScans.
Import GoStrings GoTime Sql.

(** The three statements of one goroutine, run without interruption, are
    [handleScan]. *)
Lemma scanStep_uninterrupted fl db path now :
  let '(db1, t1) := scanStep (fault_faculty fl) db (Arrived path now) in
  let '(db2, t2) := scanStep (fault_lookup fl) db1 t1 in
  let '(db3, t3) := scanStep (fault_write fl) db2 t2 in
  (db3, t3)
  = (let '(db', r) := handleScan fl db path now in (db', Answered r)).
Proof.
  unfold handleScan. cbn [scanStep].
  destruct (selectFacultyByToken _ _ _) as [e|[[fid nm] rl]]; [done|].
  cbn [scanStep].
  destruct (selectOpenDtr _ _ _) as [[|]|[dtrID inT]]; [| done |].
  - by destruct (insertDtr _ _ _ _).
  - by destruct (updateDtrOutTime _ _ _ _).
Qed.

Lemma runSchedule_app s1 s2 st :
  runSchedule (s1 ++ s2) st = runSchedule s2 (runSchedule s1 st).
Proof. apply foldl_app. Qed.

(** A goroutine scheduled three times in a row handles its request as
    [handleScan] does. *)
Lemma runSchedule_first_alone db path now rest :
  runSchedule [0; 0; 0]%nat (db, Arrived path now :: rest)
  = ((handleScan noScanFaults db path now).1,
     Answered (handleScan noScanFaults db path now).2 :: rest).
Proof.
  pose proof (scanStep_uninterrupted noScanFaults db path now) as H.
  cbn [fault_faculty fault_lookup fault_write noScanFaults] in H.
  unfold runSchedule. cbn [foldl].
  unfold poolStep at 3. cbn [fst snd lookup list_lookup].
  destruct (scanStep false db (Arrived path now)) as [db1 t1].
  unfold poolStep at 2. cbn [fst snd lookup list_lookup insert list_insert].
  destruct (scanStep false db1 t1) as [db2 t2].
  unfold poolStep. cbn [fst snd lookup list_lookup insert list_insert].
  destruct (scanStep false db2 t2) as [db3 t3].
  destruct (handleScan noScanFaults db path now) as [db' r].
  by injection H as -> ->.
Qed.

Lemma runSchedule_second_alone db t0 path now rest :
  runSchedule [1; 1; 1]%nat (db, t0 :: Arrived path now :: rest)
  = ((handleScan noScanFaults db path now).1,
     t0 :: Answered (handleScan noScanFaults db path now).2 :: rest).
Proof.
  pose proof (scanStep_uninterrupted noScanFaults db path now) as H.
  cbn [fault_faculty fault_lookup fault_write noScanFaults] in H.
  unfold runSchedule. cbn [foldl].
  unfold poolStep at 3. cbn [fst snd lookup list_lookup].
  destruct (scanStep false db (Arrived path now)) as [db1 t1].
  unfold poolStep at 2. cbn [fst snd lookup list_lookup insert list_insert].
  destruct (scanStep false db1 t1) as [db2 t2].
  unfold poolStep. cbn [fst snd lookup list_lookup insert list_insert].
  destruct (scanStep false db2 t2) as [db3 t3].
  destruct (handleScan noScanFaults db path now) as [db' r].
  by injection H as -> ->.
Qed.

End ConcurrentScans.

Section ConcurrentClaims.
Import GoStrings GoTime Sql.

(** A second scan handled after a first one closes the row the first
    one opened. *)
Lemma handleScan_second db path a b fid nm rl :
  selectFacultyByToken false db (TrimPrefix path "/scan/") = inr (fid, nm, rl) →
  openDtr db fid = [] →
  handleScan noScanFaults
    (mkDB (faculty db) (dtr db ++ [mkDtr (nextDtrID db) fid (Some a) None]))
    path b
  = (mkDB (faculty db)
          (dtr db ++ [mkDtr (nextDtrID db) fid (Some a) (Some b)]),
     ScanPage "Clock OUT" nm rl b).
Proof.
  intros Hf Ho.
  pose proof (scanAll_from_closed path fid nm rl [a; b] db Hf Ho) as H.
  cbn [scanAll] in H. rewrite (handleScan_clock_in _ _ _ _ _ _ Hf Ho) in H.
  destruct (handleScan _ _ _ b) as [db2 r2].
  cbn [pairedLog alternating negb] in H. by injection H as -> ->.
Qed.

Section RaceFacts.
Import GoStrings GoTime Sql.

Variables (fac : list Faculty) (log : list Dtr).
Variables (path : string) (fid : Z) (nm rl : string) (now1 now2 : Time).

Hypothesis Hknown :
  selectFacultyByToken false (mkDB fac log) (TrimPrefix path "/scan/")
  = inr (fid, nm, rl).
Hypothesis Hclosed : openDtr (mkDB fac log) fid = [].

Lemma race_token X :
  selectFacultyByToken false (mkDB fac X) (TrimPrefix path "/scan/")
  = inr (fid, nm, rl).
Proof. exact Hknown. Qed.

Lemma race_lookup_none :
  selectOpenDtr false (mkDB fac log) fid = inl ErrNoRows.
Proof. by apply selectOpenDtr_none. Qed.

Lemma race_lookup_open t :
  selectOpenDtr false
    (mkDB fac (log ++ [openedRow fid (nextDtrID (mkDB fac log)) t])) fid
  = inr (nextDtrID (mkDB fac log), Some t).
Proof.
  unfold selectOpenDtr.
  pose proof (openDtr_snoc (mkDB fac log) fid
                (openedRow fid (nextDtrID (mkDB fac log)) t)) as Ho.
  cbn [faculty dtr] in Ho. rewrite Ho, Hclosed.
  cbn [openedRow dtr_faculty_id dtr_out_time].
  by rewrite decide_True.
Qed.

Lemma race_insert_first t :
  insertDtr false (mkDB fac log) fid t
  = (mkDB fac (log ++ [openedRow fid (nextDtrID (mkDB fac log)) t]), None).
Proof. done. Qed.

Lemma race_insert_second t1 t2 :
  insertDtr false
    (mkDB fac (log ++ [openedRow fid (nextDtrID (mkDB fac log)) t1])) fid t2
  = (mkDB fac (log ++ [openedRow fid (nextDtrID (mkDB fac log)) t1;
                       openedRow fid (nextDtrID (mkDB fac log) + 1) t2]),
     None).
Proof.
  unfold insertDtr. cbn [faculty dtr].
  pose proof (nextDtrID_snoc (mkDB fac log) fid (Some t1) None) as Hn.
  cbn [faculty dtr] in Hn. unfold openedRow. rewrite Hn.
  by rewrite <- app_assoc.
Qed.

Lemma race_update t1 t2 :
  updateDtrOutTime false
    (mkDB fac (log ++ [openedRow fid (nextDtrID (mkDB fac log)) t1]))
    t2 (nextDtrID (mkDB fac log))
  = (mkDB fac (log ++ [closedRow fid (nextDtrID (mkDB fac log)) t1 t2]),
     None).
Proof.
  unfold updateDtrOutTime. cbn [faculty dtr].
  rewrite fmap_app, setOutTime_other.
  - cbn [fmap list_fmap]. unfold setOutTime, openedRow. cbn [dtr_id].
    by rewrite decide_True.
  - intros d Hd Heq. apply dtr_id_le_max in Hd.
    unfold nextDtrID in Heq. cbn [dtr] in Heq. lia.
Qed.

(** Whichever goroutine runs next, the states of the race are closed
    under one step. *)
Lemma raceState_step st i :
  raceState fac log path fid nm rl now1 now2 st →
  raceState fac log path fid nm rl now1 now2 (poolStep st i).
Proof.
  intros H. destruct H;
    repeat match goal with
           | Hb : beforeLookup _ _ _ _ _ _ |- _ => destruct Hb as [-> | ->]
           end;
    destruct i as [|[|i]];
    unfold poolStep, sawNone, sawOpen, answeredIn, answeredOut;
    cbn [fst snd lookup list_lookup scanStep];
    rewrite ?race_token, ?race_lookup_none, ?race_lookup_open,
      ?race_insert_first, ?race_insert_second, ?race_update;
    cbn [insert list_insert].
  all: try (econstructor; (by left) || (by right)).
  all: econstructor; done.
Qed.

Lemma raceState_run sched : ∀ st,
  raceState fac log path fid nm rl now1 now2 st →
  raceState fac log path fid nm rl now1 now2 (runSchedule sched st).
Proof.
  induction sched as [|i sched IH]; intros st H; [done|].
  apply IH. by apply raceState_step.
Qed.

(** The states in which both requests are answered. *)
Lemma raceState_answered db' r1 r2 :
  raceState fac log path fid nm rl now1 now2 (db', [Answered r1; Answered r2]) →
  (r1 = ScanPage "Clock IN" nm rl now1 ∧ r2 = ScanPage "Clock OUT" nm rl now2
   ∧ db' = mkDB fac (log ++ [closedRow fid (nextDtrID (mkDB fac log)) now1 now2]))
  ∨ (r1 = ScanPage "Clock OUT" nm rl now1 ∧ r2 = ScanPage "Clock IN" nm rl now2
     ∧ db' = mkDB fac (log ++ [closedRow fid (nextDtrID (mkDB fac log)) now2 now1]))
  ∨ (r1 = ScanPage "Clock IN" nm rl now1 ∧ r2 = ScanPage "Clock IN" nm rl now2
     ∧ (db' = mkDB fac (log ++ [openedRow fid (nextDtrID (mkDB fac log)) now1;
                                openedRow fid (nextDtrID (mkDB fac log) + 1) now2])
        ∨ db' = mkDB fac (log ++ [openedRow fid (nextDtrID (mkDB fac log)) now2;
                                  openedRow fid (nextDtrID (mkDB fac log) + 1) now1]))).
Proof.
  intros H. inversion H; subst;
    repeat match goal with
           | Hb : beforeLookup _ _ _ _ _ _ |- _ => destruct Hb; try discriminate
           end;
    try discriminate; auto 10.
Qed.

End RaceFacts.

(** Two scans of the same token at the same instant, the two lookups
    first: both answer "Clock IN" and the person has two open rows. *)
Lemma concurrent_scans_two_open_rows :
  let final :=
    runSchedule [0; 1; 0; 1; 0; 1]%nat
      (emptyLog, [Arrived "/scan/a1b2c3d4e5f60718" (clock 8 0);
                  Arrived "/scan/a1b2c3d4e5f60718" (clock 8 0)]) in
  final.2
  = [Answered (ScanPage "Clock IN" "Ana Cruz" "Instructor" (clock 8 0));
     Answered (ScanPage "Clock IN" "Ana Cruz" "Instructor" (clock 8 0))]
  ∧ openDtr final.1 1
    = [mkDtr 1 1 (Some (clock 8 0)) None; mkDtr 2 1 (Some (clock 8 0)) None].
Proof. split; reflexivity. Qed.

End ConcurrentClaims.

(** ** The order of the statements decides the outcome *)

Section RaceOrder.
Import GoStrings GoTime Sql.

Lemma steps_snoc i pre k :
  steps i (pre ++ [k]) = (steps i pre + if decide (k = i) then 1 else 0)%nat.
Proof.
  unfold steps. rewrite list.filter_app, length_app, filter_cons, filter_nil.
  by case_decide.
Qed.

Lemma lookupAfterWrite_snoc pre i j k :
  lookupAfterWrite pre i j → lookupAfterWrite (pre ++ [k]) i j.
Proof.
  intros (a & b & -> & Hi & Hj). exists a, (b ++ [k]).
  by rewrite <- app_assoc.
Qed.

Lemma lookupBeforeWrite_snoc pre i j k :
  lookupBeforeWrite pre i j → lookupBeforeWrite (pre ++ [k]) i j.
Proof.
  intros (a & b & -> & Hi & Hj). exists a, (b ++ [k]).
  by rewrite <- app_assoc.
Qed.

(** The second statement of a goroutine has one place in a schedule. *)
Lemma steps_place i (a : list nat) : ∀ a' b b' n,
  a ++ i :: b = a' ++ i :: b' → steps i a = n → steps i a' = n → a = a'.
Proof.
  unfold steps.
  induction a as [|x a IH]; intros [|x' a'] b b' n Heq Ha Ha'; [done| | |].
  - injection Heq as <- _. rewrite filter_cons, decide_True in Ha' by done.
    cbn in Ha, Ha'. lia.
  - injection Heq as -> _. rewrite filter_cons, decide_True in Ha by done.
    cbn in Ha, Ha'. lia.
  - injection Heq as <- Heq. f_equal.
    rewrite filter_cons in Ha, Ha'. case_decide.
    + cbn [length] in Ha, Ha'. destruct n as [|n]; [lia|].
      apply (IH a' b b' n); [done | lia | lia].
    + by apply (IH a' b b' n).
Qed.

Lemma lookup_once sched i j :
  lookupAfterWrite sched i j → lookupBeforeWrite sched i j → False.
Proof.
  intros (a & b & -> & Hi & Hj) (a' & b' & Heq & Hi' & Hj').
  assert (a = a') by (by apply (steps_place i a a' b b' 1%nat)).
  subst a'. lia.
Qed.

Variables (fac : list Faculty) (log : list Dtr).
Variables (path : string) (fid : Z) (nm rl : string) (now1 now2 : Time).

Hypothesis Hknown :
  selectFacultyByToken false (mkDB fac log) (TrimPrefix path "/scan/")
  = inr (fid, nm, rl).
Hypothesis Hclosed : openDtr (mkDB fac log) fid = [].

(** A goroutine that does not run keeps its place. *)
Lemma threadHistory_waits i j now pre k th :
  k ≠ i → threadHistory path fid nm rl i j now pre th →
  threadHistory path fid nm rl i j now (pre ++ [k]) th.
Proof.
  intros Hk. unfold threadHistory.
  rewrite steps_snoc, decide_False, Nat.add_0_r by done.
  intros [H | [H | [(? & ? & H) | [(? & ? & H) | [(? & ? & H) | (? & ? & H)]]]]];
    eauto 10 using lookupAfterWrite_snoc, lookupBeforeWrite_snoc.
Qed.

(** A goroutine that runs its next statement: what its lookup sees is
    given by [seen]. *)
Lemma threadHistory_runs i j now pre X th :
  threadHistory path fid nm rl i j now pre th →
  (th = Resolved fid nm rl now →
   ((steps j pre < 3)%nat
    ∧ selectOpenDtr false (mkDB fac X) fid = inl ErrNoRows)
   ∨ ((3 ≤ steps j pre)%nat
      ∧ ∃ found, selectOpenDtr false (mkDB fac X) fid = inr found)) →
  threadHistory path fid nm rl i j now (pre ++ [i])
    (scanStep false (mkDB fac X) th).2.
Proof.
  intros H Hseen. unfold threadHistory in *.
  rewrite steps_snoc, decide_True by done.
  destruct H as [[-> H] | [[-> H] | [(-> & H & Hb) | [([found ->] & H & Ha)
    | [(-> & H & Hb) | (-> & H & Ha)]]]]]; cbn [scanStep].
  - rewrite (race_token fac log path fid nm rl Hknown X). cbn [snd].
    right; left. split; [done | lia].
  - destruct (Hseen eq_refl) as [[Hj ->] | [Hj [found ->]]]; cbn [snd].
    + right; right; left. split; [done|]. split; [lia|].
      exists pre, []. by rewrite H.
    + right; right; right; left. split; [by eexists|]. split; [lia|].
      exists pre, []. by rewrite H.
  - destruct (insertDtr false (mkDB fac X) fid now) as [db' e]. cbn [snd].
    do 4 right; left. split; [done|]. split; [lia|].
    by apply lookupBeforeWrite_snoc.
  - destruct found as [dtrID inTime].
    destruct (updateDtrOutTime false (mkDB fac X) now dtrID) as [db' e].
    cbn [snd]. do 5 right. split; [done|]. split; [lia|].
    by apply lookupAfterWrite_snoc.
  - cbn [snd]. do 4 right; left. split; [done|]. split; [lia|].
    by apply lookupBeforeWrite_snoc.
  - cbn [snd]. do 5 right. split; [done|]. split; [lia|].
    by apply lookupAfterWrite_snoc.
Qed.

Lemma raceState_tables st :
  raceState fac log path fid nm rl now1 now2 st → ∃ X, st.1 = mkDB fac X.
Proof. intros H. destruct H; by eexists. Qed.

Ltac history_cases H :=
  unfold threadHistory in H;
  destruct H as [[? ?] | [[? ?] | [(? & ? & ?) | [([? ?] & ? & ?)
    | [(? & ? & ?) | (? & ? & ?)]]]]];
  try discriminate.

(** What the lookup of the first goroutine sees: the row of the second
    when the second has written, no row otherwise. *)
Lemma race_first_looks pre db t1 :
  raceState fac log path fid nm rl now1 now2
    (db, [Resolved fid nm rl now1; t1]) →
  threadHistory path fid nm rl 1 0 now2 pre t1 →
  ∃ X, db = mkDB fac X
       ∧ (((steps 1 pre < 3)%nat
           ∧ selectOpenDtr false (mkDB fac X) fid = inl ErrNoRows)
          ∨ ((3 ≤ steps 1 pre)%nat
             ∧ ∃ found, selectOpenDtr false (mkDB fac X) fid = inr found)).
Proof.
  intros Hrs H1.
  inversion Hrs; subst;
    unfold sawNone, sawOpen, answeredIn, answeredOut in *;
    try discriminate;
    repeat match goal with
           | Hb : beforeLookup _ _ _ _ _ _ |- _ => destruct Hb as [-> | ->]
           end;
    try discriminate.
  all: eexists; (split; [reflexivity|]).
  all: history_cases H1.
  all: try (left; split; [lia | by apply race_lookup_none]).
  all: right; (split; [lia|]); eexists; by apply race_lookup_open.
Qed.

Lemma race_second_looks pre db t0 :
  raceState fac log path fid nm rl now1 now2
    (db, [t0; Resolved fid nm rl now2]) →
  threadHistory path fid nm rl 0 1 now1 pre t0 →
  ∃ X, db = mkDB fac X
       ∧ (((steps 0 pre < 3)%nat
           ∧ selectOpenDtr false (mkDB fac X) fid = inl ErrNoRows)
          ∨ ((3 ≤ steps 0 pre)%nat
             ∧ ∃ found, selectOpenDtr false (mkDB fac X) fid = inr found)).
Proof.
  intros Hrs H0.
  inversion Hrs; subst;
    unfold sawNone, sawOpen, answeredIn, answeredOut in *;
    try discriminate;
    repeat match goal with
           | Hb : beforeLookup _ _ _ _ _ _ |- _ => destruct Hb as [-> | ->]
           end;
    try discriminate.
  all: eexists; (split; [reflexivity|]).
  all: history_cases H0.
  all: try (left; split; [lia | by apply race_lookup_none]).
  all: right; (split; [lia|]); eexists; by apply race_lookup_open.
Qed.

Lemma raceHistory_step pre st i :
  raceHistory fac log path fid nm rl now1 now2 pre st → raceHistory fac log path fid nm rl now1 now2 (pre ++ [i]) (poolStep st i).
Proof.
  intros (Hrs & t0 & t1 & Hst & H0 & H1).
  split; [by apply raceState_step|].
  destruct st as [db ths]. cbn [snd] in Hst. subst ths.
  destruct (raceState_tables _ Hrs) as [X HX]. cbn [fst] in HX. subst db.
  destruct i as [|[|i]]; unfold poolStep; cbn [fst snd lookup list_lookup].
  - pose proof (threadHistory_runs 0 1 now1 pre X t0 H0) as Hrun.
    destruct (scanStep false (mkDB fac X) t0) as [db' th'] eqn:Hstep.
    cbn [snd insert list_insert]. exists th', t1. split; [done|].
    split; [|by apply threadHistory_waits].
    apply Hrun. intros ->.
    destruct (race_first_looks pre _ t1 Hrs H1) as (X' & [= <-] & Hseen).
    exact Hseen.
  - pose proof (threadHistory_runs 1 0 now2 pre X t1 H1) as Hrun.
    destruct (scanStep false (mkDB fac X) t1) as [db' th'] eqn:Hstep.
    cbn [snd insert list_insert]. exists t0, th'. split; [done|].
    split; [by apply threadHistory_waits|].
    apply Hrun. intros ->.
    destruct (race_second_looks pre _ t0 Hrs H0) as (X' & [= <-] & Hseen).
    exact Hseen.
  - cbn [snd]. exists t0, t1. split; [done|].
    split; by apply threadHistory_waits.
Qed.

Lemma raceHistory_run sched : ∀ pre st,
  raceHistory fac log path fid nm rl now1 now2 pre st → raceHistory fac log path fid nm rl now1 now2 (pre ++ sched) (runSchedule sched st).
Proof.
  induction sched as [|i sched IH]; intros pre st H.
  - by rewrite app_nil_r.
  - cbn [runSchedule foldl]. rewrite (cons_middle i pre sched), app_assoc.
    apply IH. by apply raceHistory_step.
Qed.

Lemma raceHistory_start :
  raceHistory fac log path fid nm rl now1 now2 [] (mkDB fac log, [Arrived path now1; Arrived path now2]).
Proof.
  split; [apply RS_start; by left|].
  eexists _, _. split; [done|]. split; by left.
Qed.

(** The answer of a goroutine tells what its lookup saw. *)
Lemma threadHistory_answered i j now pre r :
  threadHistory path fid nm rl i j now pre (Answered r) →
  (r = ScanPage "Clock IN" nm rl now ∧ lookupBeforeWrite pre i j)
  ∨ (r = ScanPage "Clock OUT" nm rl now ∧ lookupAfterWrite pre i j).
Proof.
  intros H. history_cases H.
  - left. split; [congruence | done].
  - right. split; [congruence | done].
Qed.

End RaceOrder.

Section RaceClaim.
Import GoStrings GoTime Sql.

(** C9, as the code has it.  The lookup and the write of a scan are two
    separate statements, with nothing that keeps the statements of another
    scan from running between them.  Two scans of the same known token,
    whose person has no open row, are answered in one of two ways,
    whatever the order in which their statements run.  When the lookup of
    one scan runs after the write of the other, the second sees the row
    of the first: one answers IN, the other OUT, and the log gains one
    closed row.  When both lookups run before the write of the other
    scan, both answer IN and the log gains two open rows of the person.
    Every schedule that answers both requests is of one of these kinds;
    a scan that runs entirely before the other is of the first kind, and
    the schedule lookup, lookup, write, write is of the second. *)
Theorem concurrent_scans_outcomes db path now1 now2 fid nm rl
    (Hknown : selectFacultyByToken false db (TrimPrefix path "/scan/")
              = inr (fid, nm, rl))
    (Hclosed : openDtr db fid = []) :
  let start := (db, [Arrived path now1; Arrived path now2]) in
  let n := nextDtrID db in
  let pageIn := ScanPage "Clock IN" nm rl in
  let pageOut := ScanPage "Clock OUT" nm rl in
  let grown rows := mkDB (faculty db) (dtr db ++ rows) in
  (∀ sched db' r1 r2,
     runSchedule sched start = (db', [Answered r1; Answered r2]) →
     (lookupAfterWrite sched 1 0 →
        r1 = pageIn now1 ∧ r2 = pageOut now2
        ∧ db' = grown [mkDtr n fid (Some now1) (Some now2)])
     ∧ (lookupAfterWrite sched 0 1 →
          r1 = pageOut now1 ∧ r2 = pageIn now2
          ∧ db' = grown [mkDtr n fid (Some now2) (Some now1)])
     ∧ (lookupBeforeWrite sched 0 1 → lookupBeforeWrite sched 1 0 →
          r1 = pageIn now1 ∧ r2 = pageIn now2
          ∧ (db' = grown [mkDtr n fid (Some now1) None;
                          mkDtr (n + 1) fid (Some now2) None]
             ∨ db' = grown [mkDtr n fid (Some now2) None;
                            mkDtr (n + 1) fid (Some now1) None]))
     ∧ (lookupAfterWrite sched 1 0 ∨ lookupAfterWrite sched 0 1
        ∨ (lookupBeforeWrite sched 0 1 ∧ lookupBeforeWrite sched 1 0)))
  ∧ runSchedule [0; 0; 0; 1; 1; 1]%nat start
    = (grown [mkDtr n fid (Some now1) (Some now2)],
       [Answered (pageIn now1); Answered (pageOut now2)])
  ∧ runSchedule [1; 1; 1; 0; 0; 0]%nat start
    = (grown [mkDtr n fid (Some now2) (Some now1)],
       [Answered (pageOut now1); Answered (pageIn now2)])
  ∧ runSchedule [0; 1; 0; 1; 0; 1]%nat start
    = (grown [mkDtr n fid (Some now1) None;
              mkDtr (n + 1) fid (Some now2) None],
       [Answered (pageIn now1); Answered (pageIn now2)]).
Proof.
  intros start n pageIn pageOut grown.
  unfold start, n, pageIn, pageOut, grown. split; [|split; [|split]].
  - intros sched db' r1 r2 Hrun. destruct db as [fac log].
    pose proof (raceHistory_run fac log path fid nm rl now1 now2
                  Hknown Hclosed sched [] _
                  (raceHistory_start fac log path fid nm rl now1 now2))
      as (Hrs & t0 & t1 & Hst & H0 & H1).
    rewrite Hrun, app_nil_l in *. cbn [snd] in Hst.
    injection Hst as <- <-.
    apply threadHistory_answered in H0, H1.
    apply (raceState_answered fac log path fid nm rl now1 now2) in Hrs.
    unfold closedRow, openedRow in Hrs. cbn [faculty dtr].
    assert (Hio : ∀ t : Time,
              ScanPage "Clock IN" nm rl t ≠ ScanPage "Clock OUT" nm rl t)
      by (intros t; discriminate).
    split; [|split; [|split]].
    + intros Ha.
      destruct H1 as [[_ Hb] | [-> _]];
        [by destruct (lookup_once sched 1 0)|].
      destruct Hrs as [H | [(_ & H & _) | (_ & H & _)]];
        [done | by destruct (Hio now2) | by destruct (Hio now2)].
    + intros Ha.
      destruct H0 as [[_ Hb] | [-> _]];
        [by destruct (lookup_once sched 0 1)|].
      destruct Hrs as [(H & _) | [H | (H & _)]];
        [by destruct (Hio now1) | done | by destruct (Hio now1)].
    + intros Hb0 Hb1.
      destruct H0 as [[-> _] | [_ Ha]];
        [|by destruct (lookup_once sched 0 1)].
      destruct H1 as [[-> _] | [_ Ha]];
        [|by destruct (lookup_once sched 1 0)].
      destruct Hrs as [(_ & H & _) | [(H & _) | H]];
        [by destruct (Hio now2) | by destruct (Hio now1) | done].
    + destruct H1 as [[_ Hb1] | [_ Ha1]]; [|by left].
      destruct H0 as [[_ Hb0] | [_ Ha0]]; [|by right; left].
      by right; right.
  - change [0; 0; 0; 1; 1; 1]%nat with ([0; 0; 0] ++ [1; 1; 1])%nat.
    rewrite runSchedule_app, runSchedule_first_alone.
    rewrite (handleScan_clock_in _ _ _ _ _ _ Hknown Hclosed). cbn [fst snd].
    rewrite runSchedule_second_alone.
    by rewrite (handleScan_second _ _ _ _ _ _ _ Hknown Hclosed).
  - change [1; 1; 1; 0; 0; 0]%nat with ([1; 1; 1] ++ [0; 0; 0])%nat.
    rewrite runSchedule_app, runSchedule_second_alone.
    rewrite (handleScan_clock_in _ _ _ _ _ _ Hknown Hclosed). cbn [fst snd].
    rewrite runSchedule_first_alone.
    by rewrite (handleScan_second _ _ _ _ _ _ _ Hknown Hclosed).
  - unfold runSchedule. cbn [foldl].
    unfold poolStep at 6. cbn [fst snd lookup list_lookup scanStep].
    rewrite Hknown. cbn [insert list_insert].
    unfold poolStep at 5. cbn [fst snd lookup list_lookup scanStep].
    rewrite Hknown. cbn [insert list_insert].
    unfold poolStep at 4.
    cbn [fst snd lookup list_lookup scanStep insert list_insert].
    unfold poolStep at 3.
    cbn [fst snd lookup list_lookup scanStep insert list_insert].
    apply selectOpenDtr_none in Hclosed. rewrite Hclosed.
    unfold poolStep at 2.
    cbn [fst snd lookup list_lookup scanStep insertDtr insert list_insert].
    unfold poolStep.
    cbn [fst snd lookup list_lookup scanStep insertDtr insert list_insert
         faculty dtr].
    by rewrite nextDtrID_snoc, <- app_assoc.
Qed.

Lemma concurrent_scans_outcomes_witness :
  lookupAfterWrite [1; 0; 0; 0; 1; 1]%nat 1 0
  ∧ runSchedule [1; 0; 0; 0; 1; 1]%nat
      (emptyLog, [Arrived "/scan/a1b2c3d4e5f60718" (clock 8 0);
                  Arrived "/scan/a1b2c3d4e5f60718" (clock 8 5)])
    = (mkDB [ana; ben] [mkDtr 1 1 (Some (clock 8 0)) (Some (clock 8 5))],
       [Answered (ScanPage "Clock IN" "Ana Cruz" "Instructor" (clock 8 0));
        Answered (ScanPage "Clock OUT" "Ana Cruz" "Instructor" (clock 8 5))]).
Proof.
  assert (Hord : lookupAfterWrite [1; 0; 0; 0; 1; 1]%nat 1 0).
  { exists [1; 0; 0; 0]%nat, [1]%nat. split; [reflexivity|].
    split; [reflexivity | vm_compute; lia]. }
  split; [exact Hord|].
  destruct (proj1 (concurrent_scans_outcomes emptyLog
                     "/scan/a1b2c3d4e5f60718" (clock 8 0) (clock 8 5)
                     1 "Ana Cruz" "Instructor" eq_refl eq_refl)
              [1; 0; 0; 0; 1; 1]%nat _ _ _ eq_refl) as [Hafter _].
  destruct (Hafter Hord) as (_ & _ & Hdb).
  reflexivity.
Defined.

End RaceClaim.

(** ** What a scan keeps *)

Section ScanInvariants.
Import GoStrings GoTime Sql.

(** The three ways a scan can leave the database. *)
Lemma handleScan_cases fl db path now :
  (handleScan fl db path now).1 = db
  ∨ (∃ fid nm rl,
       selectFacultyByToken false db (TrimPrefix path "/scan/") = inr (fid, nm, rl)
       ∧ openDtr db fid = []
       ∧ handleScan fl db path now
         = (mkDB (faculty db)
                 (dtr db ++ [mkDtr (nextDtrID db) fid (Some now) None]),
            ScanPage "Clock IN" nm rl now))
  ∨ (∃ fid nm rl d,
       selectFacultyByToken false db (TrimPrefix path "/scan/") = inr (fid, nm, rl)
       ∧ firstByInTimeDesc (openDtr db fid) = Some d
       ∧ handleScan fl db path now
         = (mkDB (faculty db) (setOutTime now (dtr_id d) <$> dtr db),
            ScanPage "Clock OUT" nm rl now)).
Proof.
  unfold handleScan. destruct fl as [f1 f2 f3]. cbn [fault_faculty fault_lookup fault_write].
  destruct f1; [by left|].
  destruct (selectFacultyByToken false db _) as [e|[[fid nm] rl]] eqn:Hf; [by left|].
  destruct f2; [by left|].
  unfold selectOpenDtr.
  destruct (firstByInTimeDesc (openDtr db fid)) as [d|] eqn:Hd.
  - destruct f3; [by left|]. right; right. by exists fid, nm, rl, d.
  - destruct f3; [by left|]. right; left. exists fid, nm, rl.
    by apply firstByInTimeDesc_None in Hd.
Qed.

Lemma setOutTime_same now id d : sameButOutTime d (setOutTime now id d).
Proof. unfold setOutTime, sameButOutTime. by case_decide. Qed.

(** Frame of a scan.  Whatever the request and whichever statements
    fail, a scan leaves table [faculty] as it is, keeps every row of [dtr]
    at its place with its id, person and in-time, and adds at most one row,
    at the end. *)
Theorem handleScan_frame fl db path now :
  let db' := (handleScan fl db path now).1 in
  faculty db' = faculty db
  ∧ ∃ kept added,
      dtr db' = kept ++ added
      ∧ Forall2 sameButOutTime (dtr db) kept
      ∧ (length added ≤ 1)%nat.
Proof.
  assert (Hrefl : ∀ l : list Dtr, Forall2 sameButOutTime l l).
  { intros l. apply Forall_Forall2_diag, Forall_forall. by intros d _. }
  destruct (handleScan_cases fl db path now)
    as [-> | [(fid & nm & rl & _ & _ & ->) | (fid & nm & rl & d & _ & _ & ->)]];
    cbn [fst faculty dtr]; (split; [done|]).
  - exists (dtr db), []. rewrite app_nil_r. split; [done|]. split; [done|]. cbn; lia.
  - exists (dtr db), [mkDtr (nextDtrID db) fid (Some now) None].
    split; [done|]. split; [done|]. cbn; lia.
  - exists (setOutTime now (dtr_id d) <$> dtr db), [].
    rewrite app_nil_r. split; [done|]. split; [|cbn; lia].
    apply Forall2_fmap_r, Forall_Forall2_diag, Forall_forall.
    intros x _. apply setOutTime_same.
Qed.

End ScanInvariants.

Section ScanStateMachine.
Import GoStrings GoTime Sql.

Lemma dtr_unique_by_id (rows : list Dtr) x y :
  NoDup (dtr_id <$> rows) → x ∈ rows → y ∈ rows → dtr_id x = dtr_id y → x = y.
Proof.
  induction rows as [|r rows IH]; intros Hnd Hx Hy Hid;
    [by apply elem_of_nil in Hx|].
  rewrite fmap_cons in Hnd. apply list.NoDup_cons in Hnd as [Hr Hnd].
  apply elem_of_cons in Hx as [-> | Hx]; apply elem_of_cons in Hy as [-> | Hy];
    [done | | | by apply IH].
  - exfalso. apply Hr. rewrite Hid. by apply list_elem_of_fmap_2.
  - exfalso. apply Hr. rewrite <- Hid. by apply list_elem_of_fmap_2.
Qed.

Lemma filter_fmap_fixed {A} (P : A → Prop) `{∀ x, Decision (P x)}
    (g : A → A) (l : list A) :
  (∀ x, x ∈ l → g x = x ∨ (¬ P x ∧ ¬ P (g x))) →
  filter P (g <$> l) = filter P l.
Proof.
  induction l as [|x l IH]; intros Hg; [done|].
  rewrite fmap_cons, !filter_cons, IH by (intros y Hy; apply Hg; by right).
  destruct (Hg x) as [-> | [Hn Hn']]; [left | done |].
  by rewrite !decide_False.
Qed.

Lemma filter_fmap_shrinks {A} (P : A → Prop) `{∀ x, Decision (P x)}
    (g : A → A) (l : list A) :
  (∀ x, P (g x) → P x) →
  (length (filter P (g <$> l)) ≤ length (filter P l))%nat.
Proof.
  intros Hg. induction l as [|x l IH]; [done|].
  rewrite fmap_cons, !filter_cons.
  destruct (decide (P (g x))) as [Hp|Hp].
  - rewrite decide_True by auto. cbn. lia.
  - case_decide; cbn; lia.
Qed.

Lemma filter_none {A} (P : A → Prop) `{∀ x, Decision (P x)} (l : list A) :
  (∀ x, x ∈ l → ¬ P x) → filter P l = [].
Proof.
  induction l as [|x l IH]; intros Hn; [done|].
  rewrite filter_cons, decide_False by (apply Hn; left).
  apply IH. intros y Hy. apply Hn. by right.
Qed.

Lemma setOutTime_ids now id (rows : list Dtr) :
  dtr_id <$> (setOutTime now id <$> rows) = dtr_id <$> rows.
Proof.
  rewrite <- list_fmap_compose. apply list_fmap_ext. intros i x _.
  unfold compose, setOutTime. by case_decide.
Qed.

(** Closed rows are final.  When the ids of [dtr] are pairwise
    different, a row whose out-time is set is never changed by a scan. *)
Theorem handleScan_closed_rows_fixed fl db path now (Hu : uniqueDtrIDs db) :
  ∀ i x, dtr db !! i = Some x → dtr_out_time x ≠ None →
         dtr (handleScan fl db path now).1 !! i = Some x.
Proof.
  intros i x Hi Hx.
  destruct (handleScan_cases fl db path now)
    as [-> | [(fid & nm & rl & _ & _ & ->) | (fid & nm & rl & d & _ & Hd & ->)]];
    cbn [fst dtr]; [done | by apply lookup_app_l_Some |].
  rewrite list_lookup_fmap, Hi. cbn. f_equal.
  unfold setOutTime. case_decide as Hid; [|done].
  apply firstByInTimeDesc_elem, list_elem_of_filter in Hd as [[_ Hopen] Hin].
  assert (x = d); [|by subst].
  apply (dtr_unique_by_id (dtr db)); [done | | done..].
  by apply list_elem_of_lookup_2 in Hi.
Qed.

Lemma handleScan_closed_rows_fixed_witness :
  dtr (handleScan noScanFaults workdayLog "/scan/a1b2c3d4e5f60718"
                  (clock 17 0)).1 !! 0%nat
  = Some (mkDtr 1 1 (Some (clock 8 0)) (Some (clock 12 30))).
Proof.
  apply handleScan_closed_rows_fixed; [|done..].
  unfold uniqueDtrIDs. cbn. apply list.NoDup_cons. split.
  - intros H. apply list_elem_of_singleton in H. discriminate.
  - apply list.NoDup_singleton.
Defined.

Lemma handleScan_log_invariants fl db path now :
  uniqueDtrIDs db → oneOpenRow db →
  uniqueDtrIDs (handleScan fl db path now).1
  ∧ oneOpenRow (handleScan fl db path now).1.
Proof.
  intros Hu Ho.
  destruct (handleScan_cases fl db path now)
    as [-> | [(fid & nm & rl & _ & Hnone & ->) | (fid & nm & rl & d & _ & Hd & ->)]];
    cbn [fst]; [done | |].
  - split.
    + unfold uniqueDtrIDs. cbn [dtr]. rewrite fmap_app. apply list.NoDup_app.
      split; [done|]. split; [|apply list.NoDup_singleton].
      intros id Hid Hnew. apply list_elem_of_singleton in Hnew. cbn in Hnew.
      apply list_elem_of_fmap in Hid as [x [-> Hx]].
      apply dtr_id_le_max in Hx. unfold nextDtrID in Hnew. lia.
    + intros fid'. rewrite openDtr_snoc. cbn [dtr_faculty_id dtr_out_time].
      rewrite length_app. case_decide as Hf; [|cbn; specialize (Ho fid'); lia].
      destruct Hf as [<- _]. rewrite Hnone. cbn. lia.
  - split.
    + unfold uniqueDtrIDs. cbn [dtr]. by rewrite setOutTime_ids.
    + intros fid'. unfold openDtr. cbn [dtr].
      etrans; [|apply (Ho fid')]. apply filter_fmap_shrinks.
      intros x. unfold setOutTime. case_decide; [|done]. cbn. by intros [_ ?].
Qed.

(** The invariants of the log.  A scan whose statements run with no
    statement of another request between them keeps the ids of [dtr]
    pairwise different and keeps every person at no more than one open
    row, whatever the request and whichever statements fail.  (Two scans
    whose statements interleave can leave a person with two open
    rows.) *)
Theorem handleScan_keeps_log_invariants fl db path now
    (Hu : uniqueDtrIDs db) (Ho : oneOpenRow db) :
  uniqueDtrIDs (handleScan fl db path now).1
  ∧ oneOpenRow (handleScan fl db path now).1.
Proof. by apply handleScan_log_invariants. Qed.

Lemma handleScan_keeps_log_invariants_witness :
  uniqueDtrIDs (handleScan noScanFaults workdayLog "/scan/a1b2c3d4e5f60718"
                           (clock 17 0)).1
  ∧ oneOpenRow (handleScan noScanFaults workdayLog "/scan/a1b2c3d4e5f60718"
                           (clock 17 0)).1.
Proof.
  apply handleScan_keeps_log_invariants.
  - unfold uniqueDtrIDs. cbn. apply list.NoDup_cons. split.
    + intros H. apply list_elem_of_singleton in H. discriminate.
    + apply list.NoDup_singleton.
  - intros fid. unfold openDtr. cbn [dtr workdayLog].
    rewrite !filter_cons, filter_nil. cbn [dtr_faculty_id dtr_out_time].
    rewrite decide_False by (by intros [_ ?]). case_decide; cbn; lia.
Defined.

(** The two-state machine of a person.  In a log with pairwise
    different ids and at most one open row per person, a scan of a known
    token whose statements succeed answers "Clock IN" and leaves the
    person with one open row when the person had none, answers
    "Clock OUT" and leaves the person with no open row otherwise; the
    open rows of every other person are as before. *)
Theorem handleScan_flips_one_person db path now fid nm rl
    (Hu : uniqueDtrIDs db) (Ho : oneOpenRow db)
    (Hknown : selectFacultyByToken false db (TrimPrefix path "/scan/")
              = inr (fid, nm, rl)) :
  let db' := (handleScan noScanFaults db path now).1 in
  let answer := (handleScan noScanFaults db path now).2 in
  (openDtr db fid = [] →
     answer = ScanPage "Clock IN" nm rl now
     ∧ openDtr db' fid = [mkDtr (nextDtrID db) fid (Some now) None])
  ∧ (openDtr db fid ≠ [] →
       answer = ScanPage "Clock OUT" nm rl now ∧ openDtr db' fid = [])
  ∧ (∀ fid', fid' ≠ fid → openDtr db' fid' = openDtr db fid').
Proof.
  intros db' answer. unfold db', answer.
  destruct (firstByInTimeDesc (openDtr db fid)) as [d|] eqn:Hd.
  - rewrite (handleScan_clock_out db path now fid nm rl d Hknown Hd).
    cbn [fst snd]. pose proof Hd as Hin.
    apply firstByInTimeDesc_elem in Hin. pose proof Hin as Hin'.
    apply list_elem_of_filter in Hin' as [[Hfid Hopen] Hmem].
    assert (Hone : openDtr db fid = [d]).
    { specialize (Ho fid). destruct (openDtr db fid) as [|a [|b l]];
        [by apply elem_of_nil in Hin | | cbn in Ho; lia].
      apply list_elem_of_singleton in Hin. by subst. }
    split; [by rewrite Hone|]. split.
    + intros _. split; [done|]. unfold openDtr. cbn [dtr].
      apply filter_none. intros y Hy.
      apply list_elem_of_fmap in Hy as [x [-> Hx]].
      unfold setOutTime. case_decide as Hid; [cbn; by intros [_ ?]|].
      intros Hp. assert (Hxd : x ∈ openDtr db fid)
        by (by apply list_elem_of_filter).
      rewrite Hone in Hxd. apply list_elem_of_singleton in Hxd. by subst.
    + intros fid' Hne. unfold openDtr. cbn [dtr]. apply filter_fmap_fixed.
      intros x Hx. unfold setOutTime. case_decide as Hid; [|by left].
      right. assert (x = d) as -> by by apply (dtr_unique_by_id (dtr db)).
      cbn. split; intros [? _]; congruence.
  - apply firstByInTimeDesc_None in Hd.
    rewrite (handleScan_clock_in db path now fid nm rl Hknown Hd).
    cbn [fst snd]. split; [|split].
    + intros _. split; [done|]. rewrite openDtr_snoc, Hd.
      cbn [dtr_faculty_id dtr_out_time]. by rewrite decide_True.
    + done.
    + intros fid' Hne. rewrite openDtr_snoc.
      cbn [dtr_faculty_id dtr_out_time].
      rewrite decide_False by (intros [? _]; congruence).
      by rewrite app_nil_r.
Qed.

Lemma handleScan_flips_one_person_witness :
  openDtr workdayLog 1 ≠ []
  ∧ (handleScan noScanFaults workdayLog "/scan/a1b2c3d4e5f60718" (clock 17 0)).2
    = ScanPage "Clock OUT" "Ana Cruz" "Instructor" (clock 17 0)
  ∧ openDtr (handleScan noScanFaults workdayLog "/scan/a1b2c3d4e5f60718"
                        (clock 17 0)).1 1 = [].
Proof.
  assert (Hopen : openDtr workdayLog 1 ≠ []) by (vm_compute; discriminate).
  split; [exact Hopen|].
  refine (proj1 (proj2 (handleScan_flips_one_person workdayLog
            "/scan/a1b2c3d4e5f60718" (clock 17 0) 1 "Ana Cruz" "Instructor"
            _ _ eq_refl)) Hopen).
  - unfold uniqueDtrIDs. cbn. apply list.NoDup_cons. split.
    + intros H. apply list_elem_of_singleton in H. discriminate.
    + apply list.NoDup_singleton.
  - intros fid. unfold openDtr. cbn [dtr workdayLog].
    rewrite !filter_cons, filter_nil. cbn [dtr_faculty_id dtr_out_time].
    rewrite decide_False by (by intros [_ ?]). case_decide; cbn; lia.
Defined.

(** Unknown token.  When no row of [faculty] carries the token of
    the request, the answer is 404 "Faculty not found" and nothing is
    written, whichever statements fail. *)
Theorem handleScan_unknown_token fl db path now
    (Hnone : ∀ f, f ∈ faculty db → fac_token f ≠ TrimPrefix path "/scan/") :
  handleScan fl db path now = (db, ScanError 404 "Faculty not found").
Proof.
  unfold handleScan, selectFacultyByToken.
  destruct (fault_faculty fl); [done|].
  rewrite (filter_none _ (faculty db)); [done|]. intros f Hf. by apply Hnone.
Qed.

Lemma handleScan_unknown_token_witness :
  handleScan noScanFaults workdayLog "/scan/ffffffffffffffff" (clock 17 0)
  = (workdayLog, ScanError 404 "Faculty not found").
Proof.
  apply handleScan_unknown_token. intros f Hf.
  apply elem_of_cons in Hf as [-> | Hf]; [done|].
  apply list_elem_of_singleton in Hf as ->. done.
Defined.

End ScanStateMachine.

(** ** The report in terms of the tables *)

Section ReportFromTables.
Import GoMath GoTime Sql.
Local Open Scope Qc_scope.








End ReportFromTables.

Section ReportRowsFromTables.
Import GoMath GoTime Sql.
Local Open Scope Qc_scope.

Lemma faculty_unique_by_id (fs : list Faculty) f g :
  NoDup (fac_id <$> fs) → f ∈ fs → g ∈ fs → fac_id f = fac_id g → f = g.
Proof.
  induction fs as [|h fs IH]; intros Hnd Hf Hg Hid;
    [by apply elem_of_nil in Hf|].
  rewrite fmap_cons in Hnd. apply list.NoDup_cons in Hnd as [Hh Hnd].
  apply elem_of_cons in Hf as [-> | Hf]; apply elem_of_cons in Hg as [-> | Hg];
    [done | | | by apply IH].
  - exfalso. apply Hh. rewrite Hid. by apply list_elem_of_fmap_2.
  - exfalso. apply Hh. rewrite <- Hid. by apply list_elem_of_fmap_2.
Qed.



End ReportRowsFromTables.

Section PayrollQuirks.
Import GoMath GoTime Sql.
Local Open Scope Qc_scope.

(** The rows do not depend on the order in which the maps are ranged
    over: two runs on the same database and range give the same rows, and
    the same records, up to their order. *)
Theorem payroll_rows_order_independent ord ord' db startValue endValue now :
  let range := formRange startValue endValue now in
  ∃ Rows GrandTotal Rows' GrandTotal' records records',
    handlePayroll ord false db startValue endValue now
    = PayrollPage range.1 range.2 Rows GrandTotal
    ∧ handlePayroll ord' false db startValue endValue now
      = PayrollPage range.1 range.2 Rows' GrandTotal'
    ∧ handlePayrollCSV ord false db startValue endValue now = CsvFile records
    ∧ handlePayrollCSV ord' false db startValue endValue now = CsvFile records'
    ∧ Rows ≡ₚ Rows' ∧ records ≡ₚ records'.
Proof.
  intros range. eexists _, _, _, _, _, _.
  split; [apply handlePayroll_page|]. split; [apply handlePayroll_page|].
  split; [apply handlePayrollCSV_file|].
  split; [apply handlePayrollCSV_file|].
  split.
  - unfold reportRows. apply fmap_Permutation.
    by rewrite (range_perm ord), (range_perm ord').
  - apply fmap_Permutation. by rewrite (range_perm ord), (range_perm ord').
Qed.




End PayrollQuirks.

(** ** Binary64 numbers *)

Section Binary64Facts.
Import Float64.

Lemma digits2_size p : digits2_pos p = Pos.size p.
Proof. induction p; cbn; by rewrite ?IHp. Qed.

Lemma Zdigits2_log2 m : 0 < m → Zdigits2 m = Z.log2 m + 1.
Proof.
  destruct m as [|p|p]; [lia | | lia]. intros _.
  cbn [Zdigits2]. rewrite digits2_size.
  destruct p; cbn [Pos.size Z.log2]; lia.
Qed.

Lemma Zdigits2_nonneg m : 0 ≤ Zdigits2 m.
Proof. destruct m; cbn; lia. Qed.

Lemma Zdigits2_shiftr m n :
  0 ≤ m → 0 ≤ n → Zdigits2 (Z.shiftr m n) = Z.max 0 (Zdigits2 m - n).
Proof.
  intros Hm Hn. destruct (decide (m = 0)) as [-> | Hm0].
  { rewrite Z.shiftr_0_l. cbn. lia. }
  rewrite (Zdigits2_log2 m) by lia.
  destruct (decide (Z.shiftr m n = 0)) as [H0 | H0].
  - rewrite H0. apply Z.shiftr_eq_0_iff in H0 as [? | [_ ?]]; [lia|].
    change (Zdigits2 0) with 0. lia.
  - assert (0 < Z.shiftr m n).
    { pose proof (proj2 (Z.shiftr_nonneg m n) Hm). lia. }
    rewrite Zdigits2_log2, Z.log2_shiftr by lia.
    assert (¬ Z.log2 m < n).
    { intros Hl. apply H0, Z.shiftr_eq_0_iff. right. lia. }
    lia.
Qed.

Lemma Zdigits2_succ m :
  0 ≤ m → Zdigits2 m ≤ Zdigits2 (m + 1) ≤ Zdigits2 m + 1.
Proof.
  intros Hm. destruct (decide (m = 0)) as [-> | Hm0].
  { change (Zdigits2 (0 + 1)) with 1. change (Zdigits2 0) with 0. lia. }
  rewrite !Zdigits2_log2 by lia.
  pose proof (Z.log2_succ_le m). pose proof (Z.log2_le_mono m (m + 1)).
  unfold Z.succ in *. lia.
Qed.

Lemma Zdigits2_mul_pow2 m k :
  0 < m → 0 ≤ k → Zdigits2 (m * 2 ^ k) = Zdigits2 m + k.
Proof.
  intros Hm Hk. assert (0 < 2 ^ k) by (apply Z.pow_pos_nonneg; lia).
  rewrite !Zdigits2_log2 by nia. rewrite Z.log2_mul_pow2 by lia. lia.
Qed.

Lemma Zdigits2_le m n : 0 < m → m ≤ n → Zdigits2 m ≤ Zdigits2 n.
Proof.
  intros Hm Hn. rewrite !Zdigits2_log2 by lia.
  pose proof (Z.log2_le_mono m n Hn). lia.
Qed.

(** Shifting to the right, one bit after the other. *)
Lemma shr_1_m r : 0 ≤ shr_m r → shr_m (shr_1 r) = Z.div2 (shr_m r).
Proof.
  destruct r as [m r s]. cbn [shr_m]. intros Hm.
  destruct m as [|[p|p|]|]; cbn; try done.
Qed.

Lemma iter_shr_m p : ∀ r,
  0 ≤ shr_m r →
  shr_m (SpecFloat.iter_pos shr_1 p r) = Z.shiftr (shr_m r) (Zpos p).
Proof.
  assert (Hnn : ∀ a n, 0 ≤ a → 0 ≤ Z.shiftr a n)
    by (intros a n Ha; by apply Z.shiftr_nonneg).
  induction p as [p IH | p IH |]; intros r Hr; cbn [SpecFloat.iter_pos].
  - assert (H1 : shr_m (shr_1 r) = Z.shiftr (shr_m r) 1)
      by (by rewrite shr_1_m, Z.div2_spec).
    assert (H2 : shr_m (SpecFloat.iter_pos shr_1 p (shr_1 r))
                 = Z.shiftr (Z.shiftr (shr_m r) 1) (Zpos p)).
    { rewrite IH, H1; [done|]. rewrite H1. by apply Hnn. }
    rewrite IH, H2.
    + rewrite !Z.shiftr_shiftr by lia. f_equal. lia.
    + rewrite H2. by apply Hnn, Hnn.
  - assert (H2 : shr_m (SpecFloat.iter_pos shr_1 p r)
                 = Z.shiftr (shr_m r) (Zpos p)) by (by apply IH).
    rewrite IH, H2.
    + rewrite !Z.shiftr_shiftr by lia. f_equal. lia.
    + rewrite H2. by apply Hnn.
  - rewrite shr_1_m by done. apply Z.div2_spec.
Qed.

Lemma shr_record_m m l : shr_m (shr_record_of_loc m l) = m.
Proof. by destruct l as [|[]]. Qed.

(** [shr_fexp]: the mantissa shifted to the exponent [fexp] asks for. *)
Lemma shr_fexp_spec m e l :
  0 ≤ m →
  let n := fexp prec emax (Zdigits2 m + e) - e in
  shr_m (shr_fexp prec emax m e l).1 = Z.shiftr m (Z.max 0 n)
  ∧ (shr_fexp prec emax m e l).2 = e + Z.max 0 n.
Proof.
  intros Hm n. unfold shr_fexp. fold n. unfold shr.
  destruct n as [|p|p] eqn:Hn; cbn [fst snd].
  - rewrite shr_record_m. cbn. rewrite Z.shiftr_0_r. split; [done | lia].
  - rewrite iter_shr_m, shr_record_m by (by rewrite shr_record_m).
    split; [f_equal; lia | lia].
  - rewrite shr_record_m. cbn. rewrite Z.shiftr_0_r. split; [done | lia].
Qed.

Lemma round_nearest_even_cases m l :
  round_nearest_even m l = m ∨ round_nearest_even m l = m + 1.
Proof.
  unfold round_nearest_even. destruct l as [|[]]; auto.
  destruct (Z.even m); auto.
Qed.

(** The result of a rounding is a binary64 number in canonical form,
    whenever the mantissa it starts from is not shorter than the format
    asks for. *)
Lemma binary_round_aux_valid s m e l :
  0 < m → e ≤ fexp prec emax (Zdigits2 m + e) →
  valid_binary prec emax (binary_round_aux prec emax s m e l) = true.
Proof.
  intros Hm He. unfold binary_round_aux.
  pose proof (shr_fexp_spec m e l ltac:(lia)) as [Hm1 He1].
  destruct (shr_fexp prec emax m e l) as [r1 e1]. cbn [fst snd] in Hm1, He1.
  set (m2 := round_nearest_even (shr_m r1) (loc_of_shr_record r1)).
  assert (Hm1' : 0 ≤ shr_m r1).
  { rewrite Hm1. apply Z.shiftr_nonneg. lia. }
  assert (Hm2 : m2 = shr_m r1 ∨ m2 = shr_m r1 + 1)
    by apply round_nearest_even_cases.
  pose proof (shr_fexp_spec m2 e1 loc_Exact ltac:(lia)) as [Hm3 He3].
  destruct (shr_fexp prec emax m2 e1 loc_Exact) as [r3 e3].
  cbn [fst snd] in Hm3, He3.
  destruct (shr_m r3) as [|m3|m3] eqn:Hr3; [done | | ].
  2:{ exfalso. assert (0 ≤ Z.shiftr m2 (Z.max 0
        (fexp prec emax (Zdigits2 m2 + e1) - e1)))
        by (apply Z.shiftr_nonneg; lia). lia. }
  destruct (e3 <=? emax - prec) eqn:Hb; [|done].
  cbn [valid_binary]. unfold bounded. rewrite Hb, andb_true_r.
  unfold canonical_mantissa. apply Z.eqb_eq.
  change (Zpos (digits2_pos m3)) with (Zdigits2 (Zpos m3)).
  rewrite Hm3.
  pose proof (Zdigits2_shiftr m (Z.max 0 (fexp prec emax (Zdigits2 m + e) - e))
                ltac:(lia) ltac:(lia)) as Hd1.
  rewrite <- Hm1 in Hd1.
  pose proof (Zdigits2_succ (shr_m r1) Hm1') as Hd2.
  pose proof (Zdigits2_shiftr m2
                (Z.max 0 (fexp prec emax (Zdigits2 m2 + e1) - e1))
                ltac:(lia) ltac:(lia)) as Hd3.
  rewrite Hd3, He3.
  pose proof (Zdigits2_nonneg m) as Hdm.
  assert (Hdm' : 1 ≤ Zdigits2 m).
  { rewrite Zdigits2_log2 by lia. pose proof (Z.log2_nonneg m). lia. }
  assert (Hm3pos : 0 < Z.shiftr m2
            (Z.max 0 (fexp prec emax (Zdigits2 m2 + e1) - e1))) by lia.
  assert (Hd3pos : 1 ≤ Zdigits2 (Z.shiftr m2
            (Z.max 0 (fexp prec emax (Zdigits2 m2 + e1) - e1)))).
  { rewrite Zdigits2_log2 by lia.
    pose proof (Z.log2_nonneg (Z.shiftr m2
      (Z.max 0 (fexp prec emax (Zdigits2 m2 + e1) - e1)))). lia. }
  rewrite Hd3 in Hd3pos.
  unfold fexp, emin, prec, emax in *.
  destruct Hm2 as [-> | ->]; lia.
Qed.

Lemma of_int_four : of_int 4 = S754_finite false 4503599627370496 (-50).
Proof. reflexivity. Qed.

(** Four times a number is in canonical form, whatever the number. *)
Lemma mul_four_valid t : valid_binary prec emax (mul t (of_int 4)) = true.
Proof.
  rewrite of_int_four. destruct t as [s | s | | s m e]; try done.
  unfold mul, SFmul. apply binary_round_aux_valid; [lia|].
  change (Zpos (m * 4503599627370496)) with (Zpos m * 2 ^ 52).
  rewrite Zdigits2_mul_pow2 by lia.
  assert (1 ≤ Zdigits2 (Zpos m)).
  { rewrite Zdigits2_log2 by lia. pose proof (Z.log2_nonneg (Zpos m)). lia. }
  unfold fexp, emin, prec, emax. lia.
Qed.

Lemma binary_round_aux_exact s m e :
  fexp prec emax (Zdigits2 (Zpos m) + e) = e → e ≤ emax - prec →
  binary_round_aux prec emax s (Zpos m) e loc_Exact = S754_finite s m e.
Proof.
  intros Hc He. unfold binary_round_aux, shr_fexp.
  rewrite Hc, Z.sub_diag.
  cbn [shr shr_record_of_loc shr_m loc_of_shr_record round_nearest_even].
  rewrite Hc, Z.sub_diag. cbn [shr shr_record_of_loc shr_m].
  by rewrite (proj2 (Z.leb_le _ _) He).
Qed.

Lemma pos_iter_xO n k : Zpos (Pos.iter xO n k) = Zpos n * 2 ^ Zpos k.
Proof.
  induction k as [|k IH] using Pos.peano_ind.
  - cbn [Pos.iter]. lia.
  - rewrite Pos.iter_succ, Pos2Z.inj_succ, Z.pow_succ_r by lia.
    rewrite Pos2Z.inj_xO, IH. lia.
Qed.

(** An integer of at most 53 bits is a binary64 number: its mantissa
    shifted to 53 bits. *)
Lemma binary_round_integer s n :
  Zdigits2 (Zpos n) ≤ 53 →
  ∃ M E, binary_round prec emax s n 0 = S754_finite s M E
         ∧ Zdigits2 (Zpos M) = 53 ∧ -52 ≤ E ≤ 0
         ∧ Zpos M = Zpos n * 2 ^ (- E).
Proof.
  intros Hd.
  assert (Hd1 : 1 ≤ Zdigits2 (Zpos n)).
  { rewrite Zdigits2_log2 by lia. pose proof (Z.log2_nonneg (Zpos n)). lia. }
  unfold binary_round.
  change (Zpos (digits2_pos n)) with (Zdigits2 (Zpos n)).
  assert (Hf : fexp prec emax (Zdigits2 (Zpos n) + 0) = Zdigits2 (Zpos n) - 53)
    by (unfold fexp, emin, prec, emax; lia).
  rewrite Hf. unfold shl_align.
  destruct (Zdigits2 (Zpos n) - 53 - 0) as [|p|p] eqn:Hp; [| lia |].
  - exists n, 0. rewrite binary_round_aux_exact.
    + split; [done|]. split; [lia|]. split; [lia|]. cbn. lia.
    + unfold fexp, emin, prec, emax. lia.
    + unfold prec, emax. lia.
  - exists (Pos.iter xO n p), (Zdigits2 (Zpos n) - 53).
    assert (HM : Zdigits2 (Zpos (Pos.iter xO n p)) = 53).
    { rewrite pos_iter_xO, Zdigits2_mul_pow2 by lia. lia. }
    rewrite binary_round_aux_exact.
    + split; [done|]. split; [done|]. split; [lia|].
      rewrite pos_iter_xO. do 2 f_equal. lia.
    + rewrite HM. unfold fexp, emin, prec, emax. lia.
    + unfold prec, emax. lia.
Qed.

(** [math.Round] gives an integer: zero, or a number of 53 bits whose
    bits below the unit are zero. *)
Lemma Round_integer x :
  valid_binary prec emax x = true → is_finite x = true →
  (∃ s, Round x = S754_zero s)
  ∨ ∃ s M E, Round x = S754_finite s M E
             ∧ Zdigits2 (Zpos M) = 53 ∧ -52 ≤ E ≤ emax - prec
             ∧ (E < 0 → Zpos M mod 2 ^ (- E) = 0).
Proof.
  destruct x as [s | s | | s m e]; try done; intros Hv _; [by left; eexists|].
  cbn [valid_binary] in Hv. unfold bounded, canonical_mantissa in Hv.
  apply andb_true_iff in Hv as [Hc Hb].
  apply Z.eqb_eq in Hc. apply Z.leb_le in Hb.
  change (Zpos (digits2_pos m)) with (Zdigits2 (Zpos m)) in Hc.
  assert (Hd1 : 1 ≤ Zdigits2 (Zpos m)).
  { rewrite Zdigits2_log2 by lia. pose proof (Z.log2_nonneg (Zpos m)). lia. }
  unfold Round. destruct (Z.leb_spec 0 e) as [He | He].
  - right. exists s, m, e. split; [done|].
    unfold fexp, emin, prec, emax in *. lia.
  - cbv zeta.
    assert (Hp : 0 < 2 ^ (- e - 1)) by (apply Z.pow_pos_nonneg; lia).
    assert (Hp2 : 2 ^ (- e) = 2 * 2 ^ (- e - 1)).
    { rewrite <- Z.pow_succ_r by lia. f_equal. lia. }
    set (n := (Zpos m + 2 ^ (- e - 1)) / 2 ^ (- e)).
    assert (Hn0 : 0 ≤ n) by (apply Z.div_pos; lia).
    assert (Hnm : n ≤ Zpos m).
    { apply Z.div_le_upper_bound; [lia|]. rewrite Hp2. nia. }
    destruct n as [|p|p] eqn:Hn; [| | lia].
    + left. exists s. by destruct s.
    + right.
      assert (Hdp : Zdigits2 (Zpos p) ≤ 53).
      { pose proof (Zdigits2_le (Zpos p) (Zpos m) ltac:(lia) Hnm).
        unfold fexp, emin, prec, emax in *. lia. }
      destruct (binary_round_integer s p Hdp) as (M & E & HR & HM & HE & HME).
      exists s, M, E. split.
      { destruct s; exact HR. }
      split; [done|]. split; [unfold prec, emax; lia|].
      intros _. rewrite HME. apply Z.mod_mul.
      assert (0 < 2 ^ (- E)) by (apply Z.pow_pos_nonneg; lia). lia.
Qed.

(** A quarter of a 53-bit number: the same mantissa, the exponent two
    lower. *)
Lemma div_four s M E :
  Zdigits2 (Zpos M) = 53 → -52 ≤ E ≤ emax - prec →
  div (S754_finite s M E) (of_int 4) = S754_finite s M (E - 2).
Proof.
  intros HM HE. rewrite of_int_four. unfold div, SFdiv, SFdiv_core_binary.
  rewrite HM. change (Zdigits2 4503599627370496) with 53.
  assert (He' : Z.min (fexp prec emax (53 + E - (53 + -50))) (E - -50) = E - 3)
    by (unfold fexp, emin, prec, emax in *; lia).
  rewrite He'. replace (E - -50 - (E - 3)) with 53 by lia.
  assert (Hq : Z.div_eucl (Z.shiftl (Zpos M) 53) 4503599627370496
               = (Zpos M~0, 0)).
  { rewrite Z.shiftl_mul_pow2 by lia.
    pose proof (Z.div_eucl_eq (Zpos M * 2 ^ 53) 4503599627370496
                  ltac:(lia)) as Heq.
    pose proof (Z.mod_pos_bound (Zpos M * 2 ^ 53) 4503599627370496
                  ltac:(lia)) as Hbd.
    unfold Z.modulo in Hbd.
    destruct (Z.div_eucl (Zpos M * 2 ^ 53) 4503599627370496) as [q r].
    change (2 ^ 53) with (2 * 4503599627370496) in Heq.
    assert (q = Zpos M~0) by (rewrite Pos2Z.inj_xO; nia).
    assert (r = 0) by (rewrite Pos2Z.inj_xO in *; nia).
    by subst. }
  rewrite Hq. rewrite xorb_false_r.
  change (new_location 4503599627370496 0) with loc_Exact.
  unfold binary_round_aux, shr_fexp.
  assert (HM2 : Zdigits2 (Zpos M~0) = Z.succ 53).
  { rewrite <- HM. cbn [Zdigits2 digits2_pos]. apply Pos2Z.inj_succ. }
  rewrite HM2.
  replace (fexp prec emax (Z.succ 53 + (E - 3)) - (E - 3)) with 1
    by (unfold fexp, emin, prec, emax in *; lia).
  cbn [shr shr_record_of_loc SpecFloat.iter_pos shr_1 shr_m
       loc_of_shr_record round_nearest_even orb].
  rewrite HM.
  replace (fexp prec emax (53 + (E - 3 + 1)) - (E - 3 + 1)) with 0
    by (unfold fexp, emin, prec, emax in *; lia).
  cbn [shr shr_m].
  rewrite (proj2 (Z.leb_le _ _)) by (unfold prec, emax in *; lia).
  f_equal. lia.
Qed.

(** Rounded quarters.  For every number [t], when four times [t] is a
    number, [Round] of it is an integer [n] and a quarter of that is
    exactly [n / 4]. *)
Lemma quarters_of_an_integer t :
  let x := mul t (of_int 4) in
  is_finite x = true →
  ∃ n, scaled 0 (Round x) = Some n
       ∧ scaled 2 (div (Round x) (of_int 4)) = Some n.
Proof.
  intros x Hfin.
  destruct (Round_integer x (mul_four_valid t) Hfin)
    as [[s ->] | (s & M & E & -> & HM & HE & Hmod)].
  - exists 0. split; [done|]. rewrite of_int_four. by destruct s.
  - rewrite (div_four s M E HM HE). unfold scaled.
    replace (E - 2 + 2) with (E + 0) by lia.
    destruct (Z.leb_spec 0 (E + 0)); [by eexists|].
    rewrite Z.add_0_r. rewrite Hmod by lia. cbn [Z.eqb]. by eexists.
Qed.

End Binary64Facts.

(** ** The order of texts *)

Section TextOrder.










End TextOrder.

(** ** The order of dates and of their texts *)

Section DateOrder.
Import GoTime Machine.













End DateOrder.

(** ** The maps built by the payroll loops, on the machine *)

Section MachineMaps.
Import Float64 Machine.

Lemma withHours_same r : withHours (TotalHours r) r = r.
Proof. by destruct r. Qed.

Lemma withHours_twice a b r : withHours b (withHours a r) = withHours b r.
Proof. done. Qed.

Lemma personTotal_cons step id acc j (rs : list JoinRow) :
  personTotal step id acc (j :: rs)
  = personTotal step id
      (if decide (j_id j = id) then step acc j else acc) rs.
Proof. done. Qed.

Lemma personTotal_absent step id acc (rs : list JoinRow) :
  filter (λ j, j_id j = id) rs = [] → personTotal step id acc rs = acc.
Proof.
  revert acc. induction rs as [|j rs IH]; intros acc; [done|].
  rewrite filter_cons, personTotal_cons. case_decide; [done|].
  apply IH.
Qed.

(** One row of the result set: the entry of its person is created if
    missing and receives what the row adds. *)
Lemma machine_payrollScanRow_lookup m j id :
  payrollScanRow m j !! id
  = if decide (j_id j = id)
    then let r := default (freshRow id j) (m !! id) in
         Some (withHours (addHours (TotalHours r) j) r)
    else m !! id.
Proof.
  unfold payrollScanRow, addHours, freshRow. cbv zeta.
  set (m1 := match m !! j_id j with Some _ => m | None => _ end).
  assert (H1 : m1 !! id = if decide (j_id j = id)
                          then Some (default (mkRow id (j_name j) (j_role j)
                                                (j_rate j) zero zero) (m !! id))
                          else m !! id).
  { unfold m1. case_decide as Hid.
    - subst id. destruct (m !! j_id j) as [r|] eqn:Hm; [done|].
      by rewrite lookup_insert_eq.
    - destruct (m !! j_id j); [done|]. by rewrite lookup_insert_ne. }
  destruct (j_in_time j) as [inT|], (j_out_time j) as [outT|];
    try (rewrite H1; case_decide; by rewrite ?withHours_same).
  destruct (ltb zero _) eqn:Hpos.
  - destruct (decide (j_id j = id)) as [Hid|Hid].
    + subst id. by rewrite lookup_alter_eq, H1.
    + by rewrite lookup_alter_ne, H1 by done.
  - rewrite H1. case_decide; by rewrite ?withHours_same.
Qed.

(** The entry of person [id] after the whole result set. *)
Lemma machine_payroll_map_lookup rs : ∀ m id,
  foldl payrollScanRow m rs !! id
  = match m !! id with
    | Some r =>
        Some (withHours (personTotal addHours id (TotalHours r) rs) r)
    | None =>
        (λ j, withHours (personTotal addHours id zero rs) (freshRow id j))
        <$> head (filter (λ j, j_id j = id) rs)
    end.
Proof.
  induction rs as [|j rs IH]; intros m id; cbn [foldl].
  - destruct (m !! id) as [r|]; [by destruct r | done].
  - rewrite IH, machine_payrollScanRow_lookup, filter_cons.
    destruct (m !! id) as [r|] eqn:Hm; rewrite !personTotal_cons;
      destruct (decide (j_id j = id)) as [Hid|Hid]; done.
Qed.

Lemma machine_csvScanRow_lookup m j id :
  csvScanRow m j !! id
  = if decide (j_id j = id)
    then Some (mkCsvEntry (j_name j) (j_role j) (j_rate j)
                 (addCsvHours (hours (default csvZero (m !! id))) j))
    else m !! id.
Proof.
  unfold csvScanRow, addCsvHours. case_decide as Hid.
  - subst id. rewrite lookup_insert_eq.
    by destruct (j_in_time j), (j_out_time j).
  - by rewrite lookup_insert_ne.
Qed.

(** The entry of person [id] after the whole result set: the columns of
    the person's last row, and the sum of all its durations. *)
Lemma machine_csv_map_lookup rs : ∀ m id,
  foldl csvScanRow m rs !! id
  = match list.last (filter (λ j, j_id j = id) rs) with
    | Some j =>
        Some (mkCsvEntry (j_name j) (j_role j) (j_rate j)
                (personTotal addCsvHours id
                   (hours (default csvZero (m !! id))) rs))
    | None => m !! id
    end.
Proof.
  induction rs as [|j rs IH]; intros m id; cbn [foldl]; [done|].
  rewrite IH, machine_csvScanRow_lookup, filter_cons.
  destruct (m !! id) as [e|] eqn:Hm; rewrite !personTotal_cons;
    (destruct (decide (j_id j = id)) as [Hid|Hid]; [|by rewrite ?Hm]).
  - rewrite last_cons. cbn [default hours].
    destruct (list.last (filter _ rs)) as [j'|] eqn:Hl; [done|].
    apply last_None in Hl. by rewrite (personTotal_absent _ _ _ _ Hl).
  - rewrite last_cons. cbn [default hours].
    destruct (list.last (filter _ rs)) as [j'|] eqn:Hl; [done|].
    apply last_None in Hl. by rewrite (personTotal_absent _ _ _ _ Hl).
Qed.

End MachineMaps.

(** ** The rows of the report, on the machine *)

Section MachineRows.
Import Float64 Machine.

Lemma machine_payrollRange_acc (es : list (Z * Row)) : ∀ rows grand,
  foldl (λ '(rows, grand) e,
           let r := finishRow e.2 in (rows ++ [r], add grand (Pay r)))
        (rows, grand) es
  = (rows ++ ((finishRow ∘ snd) <$> es),
     foldl (λ acc r, add acc (Pay r)) grand ((finishRow ∘ snd) <$> es)).
Proof.
  induction es as [|e es IH]; intros rows grand; cbn [foldl fmap list_fmap].
  - by rewrite app_nil_r.
  - rewrite IH. by rewrite <- app_assoc.
Qed.

(** The last loop of [handlePayroll] finishes every entry in the order
    of the iteration and adds up the [Pay] fields in that order. *)
Lemma machine_payrollRange_spec (es : list (Z * Row)) :
  payrollRange es
  = ((finishRow ∘ snd) <$> es, sumPay ((finishRow ∘ snd) <$> es)).
Proof. unfold payrollRange. by rewrite machine_payrollRange_acc. Qed.

Lemma machine_finish_fresh id rs j :
  j_id j = id →
  finishRow (withHours (personTotal addHours id zero rs) (freshRow id j))
  = expectedRow rs j.
Proof. by intros <-. Qed.

Lemma machine_head_filter_id id (rs : list JoinRow) j :
  head (filter (λ j', j_id j' = id) rs) = Some j → j_id j = id ∧ j ∈ rs.
Proof.
  intros H. apply head_Some_elem_of in H.
  by apply list_elem_of_filter in H.
Qed.

(** The rows of the page are the [expectedRow]s of the first joined row
    of each person. *)
Lemma machine_reportRows_elem ord rs r :
  r ∈ reportRows ord rs
  ↔ ∃ j, head (filter (λ j', j_id j' = j_id j) rs) = Some j
         ∧ r = expectedRow rs j.
Proof.
  unfold reportRows. rewrite (range_perm ord), list_elem_of_fmap. split.
  - intros [[id r0] [-> Hin]]. apply elem_of_map_to_list in Hin.
    rewrite machine_payroll_map_lookup, lookup_empty in Hin.
    destruct (head _) as [j|] eqn:Hj; [|done].
    injection Hin as <-. destruct (machine_head_filter_id _ _ _ Hj) as [Hid _].
    exists j. rewrite Hid. split; [done|]. by apply machine_finish_fresh.
  - intros [j [Hj ->]].
    exists (j_id j, withHours (personTotal addHours (j_id j) zero rs)
                      (freshRow (j_id j) j)).
    split; [by rewrite <- (machine_finish_fresh (j_id j))|].
    apply elem_of_map_to_list.
    by rewrite machine_payroll_map_lookup, lookup_empty, Hj.
Qed.

Lemma reportRows_ids ord rs :
  FacultyID <$> reportRows ord rs
  ≡ₚ (map_to_list (foldl payrollScanRow ∅ rs)).*1.
Proof.
  unfold reportRows. rewrite (range_perm ord), <- list_fmap_compose.
  apply reflexive_eq, list_fmap_ext.
  intros i [id r0] Hin. apply list_elem_of_lookup_2, elem_of_map_to_list in Hin.
  rewrite machine_payroll_map_lookup, lookup_empty in Hin.
  destruct (head _) as [j|]; [|done]. by injection Hin as <-.
Qed.

Lemma reportRows_NoDup ord rs : NoDup (FacultyID <$> reportRows ord rs).
Proof. rewrite reportRows_ids. apply NoDup_fst_map_to_list. Qed.

Lemma machine_reportRows_first ord rs j :
  j ∈ rs →
  ∃ j0, j0 ∈ rs ∧ j_id j0 = j_id j ∧ expectedRow rs j0 ∈ reportRows ord rs.
Proof.
  intros Hj.
  destruct (head (filter (λ j', j_id j' = j_id j) rs)) as [j0|] eqn:Hh.
  - destruct (machine_head_filter_id _ _ _ Hh) as [Hid Hin].
    exists j0. repeat split; [done..|].
    apply machine_reportRows_elem. exists j0. by rewrite Hid.
  - apply head_None in Hh.
    assert (Hin : j ∈ filter (λ j', j_id j' = j_id j) rs)
      by by apply list_elem_of_filter.
    rewrite Hh in Hin. by apply elem_of_nil in Hin.
Qed.

Lemma machine_csvRecords_elem ord rs c :
  c ∈ csvRecord <$> range_of ord CsvEntry (foldl csvScanRow ∅ rs)
  ↔ ∃ j, list.last (filter (λ j', j_id j' = j_id j) rs) = Some j
         ∧ c = csvRecord (j_id j,
                 mkCsvEntry (j_name j) (j_role j) (j_rate j)
                            (personTotal addCsvHours (j_id j) zero rs)).
Proof.
  rewrite (range_perm ord), list_elem_of_fmap. split.
  - intros [[id e] [-> Hin]]. apply elem_of_map_to_list in Hin.
    rewrite machine_csv_map_lookup, lookup_empty in Hin.
    destruct (list.last _) as [j|] eqn:Hj; [|done].
    injection Hin as <-.
    assert (Hid : j_id j = id).
    { apply last_Some_elem_of, list_elem_of_filter in Hj. tauto. }
    exists j. by rewrite Hid.
  - intros [j [Hj ->]]. eexists (j_id j, _). split; [done|].
    apply elem_of_map_to_list.
    by rewrite machine_csv_map_lookup, lookup_empty, Hj.
Qed.

End MachineRows.

(** ** The joins, on the machine *)

Section MachineJoins.
Import Float64 Machine.

Lemma machine_leftJoin_elem on db j :
  j ∈ leftJoin on db
  ↔ ∃ f, f ∈ faculty db
         ∧ ((List.filter (on f) (dtr db) = [] ∧ j = joined f None None)
            ∨ ∃ d, d ∈ dtr db ∧ on f d = true
                   ∧ j = joined f (dtr_in_time d) (dtr_out_time d)).
Proof.
  unfold leftJoin, personJoin. rewrite list_elem_of_bind. split.
  - intros [f [Hj Hf]]. exists f. split; [done|].
    destruct (List.filter (on f) (dtr db)) as [|d0 ds] eqn:Hfl.
    + left. apply list_elem_of_singleton in Hj. done.
    + right. apply list_elem_of_fmap in Hj as [d [-> Hd]].
      exists d. rewrite <- Hfl in Hd.
      apply list_elem_of_In, filter_In in Hd as [Hd Hon].
      by rewrite list_elem_of_In.
  - intros [f [Hf [[Hnil ->] | [d [Hd [Hon ->]]]]]]; exists f; (split; [|done]).
    + rewrite Hnil. left.
    + assert (Hin : d ∈ List.filter (on f) (dtr db)).
      { apply list_elem_of_In, filter_In. by rewrite <- list_elem_of_In. }
      destruct (List.filter (on f) (dtr db)) as [|d0 ds];
        [by apply elem_of_nil in Hin|].
      apply list_elem_of_fmap. by exists d.
Qed.

(** Every person has at least one row in a left join. *)
Lemma machine_leftJoin_covers on db f :
  f ∈ faculty db → ∃ j, j ∈ leftJoin on db ∧ j_id j = fac_id f.
Proof.
  intros Hf. destruct (List.filter (on f) (dtr db)) as [|d ds] eqn:Hfl.
  - exists (joined f None None). split; [|done].
    apply machine_leftJoin_elem. exists f. by eauto.
  - assert (Hd : In d (List.filter (on f) (dtr db))) by (rewrite Hfl; left; done).
    apply filter_In in Hd as [Hd Hon].
    exists (joined f (dtr_in_time d) (dtr_out_time d)). split; [|done].
    apply machine_leftJoin_elem. exists f. split; [done|]. right. exists d.
    by rewrite list_elem_of_In.
Qed.

(** A row of a left join carries the columns of some person. *)
Lemma machine_leftJoin_person on db j :
  j ∈ leftJoin on db →
  ∃ f, f ∈ faculty db ∧ j_id j = fac_id f ∧ j_name j = fac_name f
       ∧ j_role j = fac_role f ∧ j_rate j = fac_rate_per_hour f.
Proof.
  rewrite machine_leftJoin_elem.
  intros [f [Hf [[_ ->] | [d [_ [_ ->]]]]]]; by exists f.
Qed.


Lemma personTotal_idle step id acc (rs : list JoinRow) :
  (∀ j, j ∈ rs → j_id j = id → step acc j = acc) →
  personTotal step id acc rs = acc.
Proof.
  induction rs as [|j rs IH]; intros H; [done|]. rewrite personTotal_cons.
  case_decide as Hid.
  - rewrite H by (done || left). apply IH. intros ???. apply H; [by right|done].
  - apply IH. intros ???. apply H; [by right|done].
Qed.

(** A person none of whose events passes the range test has only rows
    that add nothing. *)
Lemma machine_payroll_no_events db start end_ id :
  (∀ d, d ∈ dtr db → dtr_faculty_id d = id →
        between (dtr_in_time d) start end_ = false) →
  personTotal addHours id zero (leftJoin (onPayroll start end_) db) = zero.
Proof.
  intros Hno. apply personTotal_idle. intros j Hj Hid.
  apply machine_leftJoin_elem in Hj as [f [Hf [[_ ->] | [d [Hd [Hon ->]]]]]]; [done|].
  unfold onPayroll in Hon. apply andb_true_iff in Hon as [Hfid Hbt].
  apply bool_decide_eq_true in Hfid. cbn in Hid.
  rewrite Hno in Hbt; [done | done | congruence].
Qed.

(** [handlePayroll] with a working database answers a page: the range,
    the [reportRows] of the query's result set, and their total. *)
Lemma machine_handlePayroll_page ord db startValue endValue now :
  let range := formRange startValue endValue now in
  let rs := leftJoin (onPayroll range.1 range.2) db in
  handlePayroll ord false db startValue endValue now
  = PayrollPage range.1 range.2 (reportRows ord rs) (sumPay (reportRows ord rs)).
Proof.
  unfold handlePayroll. destruct (formRange _ _ _) as [start end_].
  unfold payrollReport, payrollQuery. cbn [fst snd].
  by rewrite machine_payrollRange_spec.
Qed.

Lemma payrollReport_page ord db start end_ :
  let rs := leftJoin (onPayroll start end_) db in
  payrollReport ord false db start end_
  = PayrollPage start end_ (reportRows ord rs) (sumPay (reportRows ord rs)).
Proof.
  unfold payrollReport, payrollQuery. cbv zeta.
  by rewrite machine_payrollRange_spec.
Qed.

Lemma machine_handlePayrollCSV_file ord db startValue endValue now :
  let range := formRange startValue endValue now in
  let rs := List.filter (λ j, between (j_in_time j) range.1 range.2)
              (leftJoin onCSV db) in
  handlePayrollCSV ord false db startValue endValue now
  = CsvFile (csvRecord <$> range_of ord CsvEntry (foldl csvScanRow ∅ rs)).
Proof.
  unfold handlePayrollCSV. by destruct (formRange _ _ _) as [start end_].
Qed.

End MachineJoins.

(** ** The hours of a person, from the tables *)

Section MachineTables.
Import Float64 Machine.

Lemma personTotal_app step id acc (l1 l2 : list JoinRow) :
  personTotal step id acc (l1 ++ l2)
  = personTotal step id (personTotal step id acc l1) l2.
Proof. unfold personTotal. by rewrite foldl_app. Qed.

Lemma addHours_joined acc f d :
  addHours acc (joined f (dtr_in_time d) (dtr_out_time d)) = eventHours acc d.
Proof. done. Qed.

Lemma personJoin_other on db f id acc :
  fac_id f ≠ id → personTotal addHours id acc (personJoin on db f) = acc.
Proof.
  intros Hne. apply personTotal_absent.
  unfold personJoin. destruct (List.filter _ _) as [|d ds].
  - rewrite filter_cons. by case_decide.
  - generalize (d :: ds). intros l. induction l as [|d' l IH]; [done|].
    rewrite fmap_cons, filter_cons. by case_decide.
Qed.

Lemma personJoin_events on db f acc :
  personTotal addHours (fac_id f) acc (personJoin on db f)
  = foldl eventHours acc (List.filter (on f) (dtr db)).
Proof.
  unfold personJoin. destruct (List.filter _ _) as [|d ds].
  - rewrite personTotal_cons. by case_decide.
  - generalize (d :: ds). intros l. revert acc.
    induction l as [|d' l IH]; intros acc; [done|].
    rewrite fmap_cons, personTotal_cons. cbn [foldl].
    rewrite decide_True by done. by rewrite IH.
Qed.

Lemma leftJoin_others on (ds : list Dtr) id acc (fs : list Faculty) :
  id ∉ fac_id <$> fs →
  personTotal addHours id acc (leftJoin on (mkDB fs ds)) = acc.
Proof.
  induction fs as [|f fs IH]; intros Hid; [done|].
  rewrite fmap_cons, not_elem_of_cons in Hid. destruct Hid as [Hne Hid].
  change (leftJoin on (mkDB (f :: fs) ds))
    with (personJoin on (mkDB fs ds) f ++ leftJoin on (mkDB fs ds)).
  rewrite personTotal_app, personJoin_other by done.
  by apply IH.
Qed.

(** With pairwise different person ids, the rows of a person in the
    result set of [handlePayroll] add up to the hours of the person's
    events that pass the range test, in the order of table [dtr]. *)
Lemma personTotal_leftJoin db start end_ f :
  NoDup (fac_id <$> faculty db) → f ∈ faculty db →
  personTotal addHours (fac_id f) zero (leftJoin (onPayroll start end_) db)
  = hoursOf (λ t, between t start end_) db (fac_id f).
Proof.
  destruct db as [fs ds]. cbn [faculty]. unfold hoursOf. cbn [dtr].
  generalize zero. change (λ d, bool_decide (dtr_faculty_id d = fac_id f)
                                && between (dtr_in_time d) start end_)
    with (onPayroll start end_ f).
  induction fs as [|f' fs IH]; intros acc Hnd Hf;
    [by apply elem_of_nil in Hf|].
  rewrite fmap_cons in Hnd. apply NoDup_cons in Hnd as [Hnotin Hnd].
  change (leftJoin (onPayroll start end_) (mkDB (f' :: fs) ds))
    with (personJoin (onPayroll start end_) (mkDB fs ds) f'
          ++ leftJoin (onPayroll start end_) (mkDB fs ds)).
  rewrite personTotal_app.
  apply elem_of_cons in Hf as [-> | Hf].
  - rewrite personJoin_events. by apply leftJoin_others.
  - assert (Hne : fac_id f' ≠ fac_id f).
    { intros Heq. apply Hnotin. rewrite Heq.
      apply list_elem_of_fmap. by exists f. }
    rewrite personJoin_other by done. by apply IH.
Qed.



End MachineTables.

(** ** Sums of zeros *)

Section MachineZeros.
Import Float64 Machine.

Lemma machine_quarters_zero : div (Round (mul zero four)) four = zero.
Proof. reflexivity. Qed.

Lemma mul_zero_finite x : is_finite x = true → is_zero (mul zero x) = true.
Proof. by destruct x. Qed.

Lemma mul_zero_nonNegative x : nonNegative x = true → mul zero x = zero.
Proof. by destruct x as [[] | | | [] ? ?]. Qed.



End MachineZeros.

(** ** The payroll report, on the machine *)

Section MachineClaims.
Import Float64 Machine.

(** The page of [handlePayroll]: a row for every person, and zero hours
    for a person none of whose events passes the range test. *)
Lemma handlePayroll_complete_rows ord db startValue endValue now :
  let range := formRange startValue endValue now in
  let Rows := reportRows ord (leftJoin (onPayroll range.1 range.2) db) in
  handlePayroll ord false db startValue endValue now
  = PayrollPage range.1 range.2 Rows (sumPay Rows)
  ∧ (∀ f, f ∈ faculty db → fac_id f ∈ FacultyID <$> Rows)
  ∧ (∀ r, r ∈ Rows →
       (∀ d, d ∈ dtr db → dtr_faculty_id d = FacultyID r →
             between (dtr_in_time d) range.1 range.2 = false) →
       TotalHours r = zero ∧ Pay r = mul zero (RatePerHour r)).
Proof.
  intros range Rows. unfold Rows.
  set (rs := leftJoin (onPayroll range.1 range.2) db).
  split; [apply machine_handlePayroll_page|]. split.
  - intros f Hf.
    destruct (machine_leftJoin_covers (onPayroll range.1 range.2) db f Hf)
      as [j [Hj Hid]].
    destruct (machine_reportRows_first ord rs j Hj) as [j0 [_ [Hid0 Hin]]].
    apply list_elem_of_fmap. exists (expectedRow rs j0).
    split; [|done]. cbn. congruence.
  - intros r Hr Hno. apply machine_reportRows_elem in Hr as [j [Hj ->]].
    change (FacultyID (expectedRow rs j)) with (j_id j) in Hno.
    unfold expectedRow, rs. cbn [TotalHours Pay RatePerHour].
    rewrite (machine_payroll_no_events db range.1 range.2 (j_id j) Hno).
    by rewrite machine_quarters_zero.
Qed.

(** C4 — completeness.  With a working database [handlePayroll] answers
    a page in which every person of table [faculty], active or not,
    has exactly one row: the ids of the rows are pairwise different, the
    id of every person is among them, and every row carries the columns
    of a person.  The events of a person that count are those whose
    in-time, as the text in the table, is between the texts of the two
    bounds; the row of a person without such an event has zero hours, and
    a pay of zero times the rate, which is zero for every rate that is a
    number and [+0] for every rate that is not negative. *)
Theorem handlePayroll_complete ord db startValue endValue now :
  let range := formRange startValue endValue now in
  ∃ Rows GrandTotal,
    handlePayroll ord false db startValue endValue now
    = PayrollPage range.1 range.2 Rows GrandTotal
    ∧ NoDup (FacultyID <$> Rows)
    ∧ (∀ f, f ∈ faculty db → fac_id f ∈ FacultyID <$> Rows)
    ∧ (∀ r, r ∈ Rows →
         ∃ f, f ∈ faculty db ∧ FacultyID r = fac_id f
              ∧ Name r = fac_name f ∧ Role r = fac_role f
              ∧ RatePerHour r = fac_rate_per_hour f)
    ∧ (∀ r, r ∈ Rows →
         (∀ d, d ∈ dtr db → dtr_faculty_id d = FacultyID r →
               between (dtr_in_time d) range.1 range.2 = false) →
         TotalHours r = zero
         ∧ Pay r = mul zero (RatePerHour r)
         ∧ (is_finite (RatePerHour r) = true → is_zero (Pay r) = true)
         ∧ (nonNegative (RatePerHour r) = true → Pay r = zero)).
Proof.
  intros range.
  destruct (handlePayroll_complete_rows ord db startValue endValue now)
    as (Hpage & Hall & Hzero).
  fold range in Hpage, Hzero.
  set (rs := leftJoin (onPayroll range.1 range.2) db) in *.
  exists (reportRows ord rs), (sumPay (reportRows ord rs)).
  split; [exact Hpage|].
  split; [apply reportRows_NoDup|].
  split; [exact Hall|]. split.
  - intros r Hr. apply machine_reportRows_elem in Hr as [j [Hj ->]].
    destruct (machine_head_filter_id _ _ _ Hj) as [_ Hin].
    by apply machine_leftJoin_person in Hin.
  - intros r Hr Hno. destruct (Hzero r Hr Hno) as [Hh Hp].
    split; [done|]. split; [done|]. rewrite Hp.
    split; [apply mul_zero_finite | apply mul_zero_nonNegative].
Qed.

(** C5 — rounding law.  In every row of the page the hours are
    [Round(total * 4) / 4] in binary64 arithmetic, where [total] is the
    binary64 sum of what the person's rows of the result set add, in
    their order; the pay is those rounded hours times the rate.  Whenever
    four times the total is a number, [Round] of it is an integer [n]
    and the hours are exactly [n / 4]: a multiple of 0.25.  The records
    of the CSV export are rounded and priced by the same two formulas,
    from the sum that export accumulates. *)
Theorem payroll_rounding_law ord db startValue endValue now :
  let range := formRange startValue endValue now in
  (∃ rs Rows GrandTotal,
     payrollQuery false db range.1 range.2 = inr rs
     ∧ handlePayroll ord false db startValue endValue now
       = PayrollPage range.1 range.2 Rows GrandTotal
     ∧ ∀ r, r ∈ Rows →
         let total := personTotal addHours (FacultyID r) zero rs in
         TotalHours r = div (Round (mul total four)) four
         ∧ Pay r = mul (TotalHours r) (RatePerHour r)
         ∧ (is_finite (mul total four) = true →
            ∃ n, scaled 0 (Round (mul total four)) = Some n
                 ∧ scaled 2 (TotalHours r) = Some n))
  ∧ (∃ rs records,
       payrollCSVQuery false db range.1 range.2 = inr rs
       ∧ handlePayrollCSV ord false db startValue endValue now
         = CsvFile records
       ∧ ∀ c, c ∈ records →
           let total := personTotal addCsvHours (csv_id c) zero rs in
           csv_hours c = div (Round (mul total four)) four
           ∧ csv_pay c = mul (csv_hours c) (csv_rate c)
           ∧ (is_finite (mul total four) = true →
              ∃ n, scaled 0 (Round (mul total four)) = Some n
                   ∧ scaled 2 (csv_hours c) = Some n)).
Proof.
  intros range. split.
  - eexists _, _, _. split; [done|]. split; [apply machine_handlePayroll_page|].
    intros r Hr. apply machine_reportRows_elem in Hr as [j [_ ->]].
    cbn [expectedRow FacultyID TotalHours Pay RatePerHour]. cbv zeta.
    split; [done|]. split; [done|].
    apply quarters_of_an_integer.
  - eexists _, _. split; [done|]. split; [apply machine_handlePayrollCSV_file|].
    intros c Hc. apply machine_csvRecords_elem in Hc as [j [_ ->]].
    cbn [csvRecord csv_id csv_hours csv_pay csv_rate hours rate]. cbv zeta.
    split; [done|]. split; [done|].
    apply quarters_of_an_integer.
Qed.

(** C6 — grand total.  The total of the page is the binary64 sum of the
    [Pay] fields of its rows, added one after the other from zero in the
    order of the rows, and each [Pay] is the person's rounded hours times
    the rate: the rounding to quarters is applied per person and never
    to the total. *)
Theorem payroll_grand_total ord db startValue endValue now :
  let range := formRange startValue endValue now in
  ∃ rs Rows GrandTotal,
    payrollQuery false db range.1 range.2 = inr rs
    ∧ handlePayroll ord false db startValue endValue now
      = PayrollPage range.1 range.2 Rows GrandTotal
    ∧ GrandTotal = foldl (λ acc r, add acc (Pay r)) zero Rows
    ∧ ∀ r, r ∈ Rows →
        Pay r
        = mul (div (Round (mul (personTotal addHours (FacultyID r) zero rs)
                               four)) four)
              (RatePerHour r).
Proof.
  intros range. eexists _, _, _. split; [done|].
  split; [apply machine_handlePayroll_page|]. split; [done|].
  intros r Hr. by apply machine_reportRows_elem in Hr as [j [_ ->]].
Qed.

End MachineClaims.

(** ** The date range, on the machine *)

Section MachineDateRange.
Import Float64 Machine.




(** The rows of the page are computed from the tables as [personRow]
    says, when the person ids are pairwise different. *)
Lemma reportRows_hours ord db start end_ r :
  NoDup (fac_id <$> faculty db) →
  r ∈ reportRows ord (leftJoin (onPayroll start end_) db) →
  ∃ f, f ∈ faculty db ∧ r = personRow db start end_ f.
Proof.
  intros Hnd Hr. apply machine_reportRows_elem in Hr as [j [Hj ->]].
  destruct (machine_head_filter_id _ _ _ Hj) as [_ Hin].
  destruct (machine_leftJoin_person _ _ _ Hin) as (f & Hf & Hid & Hn & Hr & Hrate).
  exists f. split; [done|]. unfold expectedRow, personRow.
  rewrite Hid, Hn, Hr, Hrate. by rewrite personTotal_leftJoin.
Qed.


End MachineDateRange.

(** ** The machine at work *)

Section MachineExamples.
Import Float64 Machine Manila.



(** The range test is on texts.  An in-time of 04:00 in Manila is
    20:00 UTC of the day before, an instant before the start of the range
    2024-03-01; the text of the in-time is after the text of the start,
    and the four hours are on the page, with a pay of 400. *)
Theorem payroll_counts_by_text :
  GoTime.Sub (instant (mkTime day0 "2024-03-01 00:00:00 +0000 UTC"))
             (instant (wall 4 0 0 250000000
                         "2024-03-01 04:00:00.25 +0800 PST m=+60.25"))
  = 4 * GoTime.Hour - 250000000
  ∧ handlePayroll reverseKeyOrder false earlyShift "2024-03-01" "" evening
    = PayrollPage (mkTime day0 "2024-03-01 00:00:00 +0000 UTC") evening
        [mkRow 1 "Ana Cruz" "Instructor" (of_int 100) (of_int 4) (of_int 400);
         mkRow 2 "Ben Reyes" "Lecturer" (of_int 80) zero zero]
        (of_int 400).
Proof. split; [done|]. apply (bool_decide_unpack _). by vm_compute. Qed.

(** The hours are rounded from the binary64 sum.  Six events of
    1 h 1 min 15 s are 6.125 hours, which exact arithmetic rounds to 6.25
    (four times 6.125 is 24.5, a half, rounded away from zero); their
    binary64 sum is below 6.125, and the page and the CSV file show
    6 hours and a pay of 600. *)
Theorem payroll_rounds_the_binary64_sum :
  handlePayroll keyOrder false sixShifts "2024-03-01" "" evening
  = PayrollPage (mkTime day0 "2024-03-01 00:00:00 +0000 UTC") evening
      [mkRow 1 "Ana Cruz" "Instructor" (of_int 100) (of_int 6) (of_int 600)]
      (of_int 600)
  ∧ handlePayrollCSV keyOrder false sixShifts "2024-03-01" "" evening
    = CsvFile [mkCsvRecord 1 "Ana Cruz" "Instructor" (of_int 100)
                           (of_int 6) (of_int 600)]
  ∧ scaled 2 (of_int 6) = Some 24
  ∧ (GoMath.Round (Q2Qc (49 # 8) * GoMath.of_int 4) / GoMath.of_int 4
     = Q2Qc (25 # 4))%Qc.
Proof.
  split; [|split; [|split; [done|]]];
    apply (bool_decide_unpack _); by vm_compute.
Qed.

End MachineExamples.

(** ** The machine's report in terms of the tables *)

Section MachineReportFromTables.
Import Float64 Machine.

Lemma faculty_by_id (fs : list Faculty) f g :
  NoDup (fac_id <$> fs) → f ∈ fs → g ∈ fs → fac_id f = fac_id g → f = g.
Proof.
  induction fs as [|h fs IH]; intros Hnd Hf Hg Hid;
    [by apply elem_of_nil in Hf|].
  rewrite fmap_cons in Hnd. apply list.NoDup_cons in Hnd as [Hh Hnd].
  apply elem_of_cons in Hf as [-> | Hf]; apply elem_of_cons in Hg as [-> | Hg];
    [done | | | by apply IH].
  - exfalso. apply Hh. rewrite Hid. by apply list_elem_of_fmap_2.
  - exfalso. apply Hh. rewrite <- Hid. by apply list_elem_of_fmap_2.
Qed.

Lemma machine_reportRows_personRows ord db start end_ r :
  NoDup (fac_id <$> faculty db) →
  r ∈ reportRows ord (leftJoin (onPayroll start end_) db)
  ↔ ∃ f, f ∈ faculty db ∧ r = personRow db start end_ f.
Proof.
  intros Hu. split; [by apply reportRows_hours|].
  intros [f [Hf ->]].
  destruct (machine_leftJoin_covers (onPayroll start end_) db f Hf) as [j [Hj Hid]].
  destruct (machine_reportRows_first ord _ j Hj) as (j0 & Hj0 & Hid0 & Hrow).
  destruct (reportRows_hours ord db start end_ _ Hu Hrow) as (g & Hg & Heq).
  assert (g = f) as ->.
  { apply (faculty_by_id (faculty db)); [done..|].
    apply (f_equal FacultyID) in Heq. cbn in Heq. congruence. }
  by rewrite <- Heq.
Qed.

(** The page computed from the tables.  When the person ids are pairwise
    different, the rows of the page are, up to their order, one
    [personRow] per row of [faculty]: the person's columns; the binary64
    sum, in the order of table [dtr], of the durations above zero of the
    person's events whose in-time text is between the texts of the
    bounds, rounded to quarter hours; and that number times the rate. *)
Theorem handlePayroll_rows_from_tables ord db startValue endValue now
    (Hids : NoDup (fac_id <$> faculty db)) :
  let range := formRange startValue endValue now in
  ∃ Rows GrandTotal,
    handlePayroll ord false db startValue endValue now
    = PayrollPage range.1 range.2 Rows GrandTotal
    ∧ Rows ≡ₚ personRow db range.1 range.2 <$> faculty db.
Proof.
  intros range. eexists _, _. split; [apply machine_handlePayroll_page|].
  fold range. apply NoDup_Permutation.
  - eapply NoDup_fmap_1. apply reportRows_NoDup.
  - apply (NoDup_fmap_1 FacultyID). rewrite <- list_fmap_compose.
    exact Hids.
  - intros r. rewrite list_elem_of_fmap.
    rewrite (machine_reportRows_personRows ord db range.1 range.2 r Hids).
    split; intros [f [? ?]]; by exists f.
Qed.

Lemma earlyShift_ids : NoDup (fac_id <$> faculty Manila.earlyShift).
Proof. apply (bool_decide_unpack _). by vm_compute. Qed.

Lemma handlePayroll_rows_from_tables_witness :
  ∃ Rows GrandTotal,
    handlePayroll keyOrder false Manila.earlyShift "2024-03-01" "2024-03-02"
                  Manila.evening
    = PayrollPage (mkTime day0 "2024-03-01 00:00:00 +0000 UTC")
        (mkTime (day0 + 24 * GoTime.Hour) "2024-03-02 00:00:00 +0000 UTC")
        Rows GrandTotal
    ∧ Rows ≡ₚ personRow Manila.earlyShift
                (mkTime day0 "2024-03-01 00:00:00 +0000 UTC")
                (mkTime (day0 + 24 * GoTime.Hour)
                        "2024-03-02 00:00:00 +0000 UTC")
              <$> [Manila.ana; Manila.ben].
Proof.
  exact (handlePayroll_rows_from_tables keyOrder Manila.earlyShift
           "2024-03-01" "2024-03-02" Manila.evening earlyShift_ids).
Defined.

End MachineReportFromTables.

(** ** Tokens *)

Section TokenFacts.
Import Token.

Lemma hexByte_app b rest :
  hexByte b +:+ rest
  = String (hexDigit (Byte.to_N b / 16))
           (String (hexDigit (Byte.to_N b mod 16)) rest).
Proof. done. Qed.

Lemma hexValue_hexDigit b :
  hexValue (hexDigit (Byte.to_N b / 16)) = Some (Byte.to_N b / 16)%N
  ∧ hexValue (hexDigit (Byte.to_N b mod 16)) = Some (Byte.to_N b mod 16)%N.
Proof. destruct b; by vm_compute. Qed.

Lemma unhex_hexByte b rest :
  unhex (hexByte b +:+ rest) = (λ bs, b :: bs) <$> unhex rest.
Proof.
  rewrite hexByte_app. cbn [unhex].
  destruct (hexValue_hexDigit b) as [-> ->].
  destruct (unhex rest) as [bs|]; [|done].
  rewrite <- N.div_mod by done. by rewrite Byte.of_to_N.
Qed.

Lemma unhex_hex bs : unhex (hex bs) = Some bs.
Proof.
  induction bs as [|b bs IH]; [done|]. cbn [hex].
  by rewrite unhex_hexByte, IH.
Qed.

Lemma hex_length bs : String.length (hex bs) = (2 * length bs)%nat.
Proof.
  induction bs as [|b bs IH]; [done|]. cbn [hex length].
  rewrite hexByte_app. cbn [String.length]. rewrite IH. lia.
Qed.

Lemma hexByte_digits b c :
  c ∈ String.list_ascii_of_string (hexByte b) → is_Some (hexValue c).
Proof.
  unfold hexByte. cbn [String.list_ascii_of_string]. intros H.
  destruct (hexValue_hexDigit b) as [Hhi Hlo].
  apply elem_of_cons in H as [-> | H]; [by eexists|].
  apply list_elem_of_singleton in H as ->. by eexists.
Qed.

(** Tokens.  A token has sixteen characters, all of them digits or letters
    [a] to [f]; reading it back gives the eight random bytes, so different
    bytes give different tokens. *)
Theorem randToken_hex (b b' : Entropy) :
  String.length (randToken b) = 16%nat
  ∧ (∀ c, c ∈ String.list_ascii_of_string (randToken b) →
          is_Some (hexValue c))
  ∧ unhex (randToken b) = Some (vec_to_list b)
  ∧ (randToken b = randToken b' → b = b').
Proof.
  unfold randToken. split; [|split; [|split]].
  - by rewrite hex_length, length_vec_to_list.
  - generalize (vec_to_list b). intros bs.
    induction bs as [|x bs IH]; intros c Hc; [by apply elem_of_nil in Hc|].
    cbn [hex] in Hc.
    assert (Happ : ∀ s t, String.list_ascii_of_string (s +:+ t)
                    = String.list_ascii_of_string s
                      ++ String.list_ascii_of_string t).
    { intros s t. induction s as [|a s IHs]; [done|].
      change (String a s +:+ t) with (String a (s +:+ t)).
      cbn [String.list_ascii_of_string]. by rewrite IHs. }
    rewrite Happ in Hc. apply elem_of_app in Hc as [Hc | Hc].
    + by apply (hexByte_digits x).
    + by apply IH.
  - apply unhex_hex.
  - intros Heq. apply vec_to_list_inj2.
    apply (f_equal unhex) in Heq. rewrite !unhex_hex in Heq. by injection Heq.
Qed.

End TokenFacts.
(** ** The administration handlers *)

Section AdminFacts.
Import GoStrings GoMath GoTime Sql Token.

Variable sqlInteger : string → option Z.
Variable ParseFloat : string → float64.

Lemma prefix_append (p s : string) : String.prefix p (p +:+ s) = true.
Proof.
  induction p as [|a p IH]; [by destruct s|].
  change (String a p +:+ s) with (String a (p +:+ s)). cbn [String.prefix].
  destruct (Ascii.ascii_dec a a); [exact IH | done].
Qed.

Lemma substring_full (s : string) :
  String.substring 0 (String.length s) s = s.
Proof.
  induction s as [|b s IH]; [done|].
  cbn [String.length String.substring]. by rewrite IH.
Qed.

Lemma substring_append (p s : string) :
  String.substring (String.length p)
    (String.length (p +:+ s) - String.length p) (p +:+ s) = s.
Proof.
  induction p as [|a p IH].
  - change (EmptyString +:+ s) with s. cbn [String.length].
    rewrite Nat.sub_0_r. apply substring_full.
  - change (String a p +:+ s) with (String a (p +:+ s)).
    cbn [String.length String.substring]. exact IH.
Qed.

(** The path of a scan request gives back the token it was built from. *)
Lemma TrimPrefix_scan_path token :
  TrimPrefix ("/scan/" +:+ token) "/scan/" = token.
Proof.
  unfold TrimPrefix. rewrite prefix_append. apply substring_append.
Qed.

Lemma NoDup_fmap_filter {A B} (g : A → B) (P : A → Prop)
    `{∀ x, Decision (P x)} (l : list A) :
  NoDup (g <$> l) → NoDup (g <$> filter P l).
Proof.
  induction l as [|x l IH]; [done|]. rewrite fmap_cons, filter_cons.
  intros [Hx Hl]%list.NoDup_cons. case_decide; [|by apply IH].
  rewrite fmap_cons. apply list.NoDup_cons. split; [|by apply IH].
  intros [y [Hy [_ Hin]%list_elem_of_filter]]%list_elem_of_fmap.
  apply Hx. rewrite Hy. by apply list_elem_of_fmap_2.
Qed.

Lemma fac_id_le_max (fs : list Faculty) f :
  f ∈ fs → fac_id f ≤ foldr Z.max 0 (fac_id <$> fs).
Proof.
  induction 1 as [f fs|f g fs _ IH]; rewrite fmap_cons; cbn [foldr]; lia.
Qed.

Lemma flipActive_columns n f :
  fac_id (flipActive n f) = fac_id f
  ∧ fac_name (flipActive n f) = fac_name f
  ∧ fac_role (flipActive n f) = fac_role f
  ∧ fac_rate_per_hour (flipActive n f) = fac_rate_per_hour f
  ∧ fac_token (flipActive n f) = fac_token f.
Proof. unfold flipActive. by case_decide. Qed.

Lemma flipActive_twice n f : flipActive n (flipActive n f) = f.
Proof.
  unfold flipActive. destruct (decide (fac_id f = n)) as [Hid|Hid].
  - cbn [fac_id]. rewrite decide_True by exact Hid.
    destruct f. cbn. f_equal. lia.
  - by rewrite decide_False.
Qed.

(** The tables after a toggle, for every outcome. *)
Lemma handleFacultyToggle_tables fl db id :
  (handleFacultyToggle sqlInteger fl db id).1 = db
  ∨ ∃ n, sqlInteger id = Some n
         ∧ (handleFacultyToggle sqlInteger fl db id).1
           = updateFacultyToggle db n.
Proof.
  unfold handleFacultyToggle, execToggle.
  case_decide; [by left|]. destruct (fault_flip fl); [by left|].
  destruct (sqlInteger id) as [n|] eqn:Hn.
  - right. exists n. split; [done|]. by destruct (selectActive _ _ _ _).
  - left. by destruct (selectActive _ _ _ _).
Qed.

Lemma handleFacultyDelete_tables fault db id :
  (handleFacultyDelete sqlInteger fault db id).1 = db
  ∨ ∃ n, sqlInteger id = Some n
         ∧ (handleFacultyDelete sqlInteger fault db id).1
           = mkDB (filter (λ f, fac_id f ≠ n) (faculty db)) (dtr db).
Proof.
  unfold handleFacultyDelete, execDelete.
  case_decide; [by left|]. destruct fault; [by left|].
  destruct (sqlInteger id) as [n|]; [right; (by exists n) | by left].
Qed.

Lemma handleFacultyAdd_tables fault st method name role rateStr entropy :
  handleFacultyAdd ParseFloat fault st method name role rateStr entropy
  = (st, BadRequest "POST required")
  ∨ handleFacultyAdd ParseFloat fault st method name role rateStr entropy
    = (st, DriverError)
  ∨ ((randToken entropy ∉ (fac_token <$> faculty (tables st)))
     ∧ handleFacultyAdd ParseFloat fault st method name role rateStr entropy
       = (mkStore
            (mkDB (faculty (tables st)
                   ++ [mkFaculty (nextFacultyID st) name role
                                 (ParseFloat rateStr) 1 (randToken entropy)])
                  (dtr (tables st)))
            (nextFacultyID st),
          Redirect "/" 302)).
Proof.
  unfold handleFacultyAdd, insertFaculty.
  case_decide; [by left|]. destruct fault; [right; by left|].
  case_decide; [right; by left | right; by right].
Qed.

Lemma wellFormed_initial : wellFormed initialStore.
Proof.
  split; cbn; try (by constructor); intros ? H; by apply elem_of_nil in H.
Qed.

Lemma selectFacultyByToken_person db token fid nm rl :
  selectFacultyByToken false db token = inr (fid, nm, rl) →
  ∃ f, f ∈ faculty db ∧ fac_id f = fid ∧ fac_name f = nm ∧ fac_role f = rl
       ∧ fac_token f = token
       ∧ filter (λ g, fac_token g = token) (faculty db) !! 0%nat = Some f.
Proof.
  unfold selectFacultyByToken.
  destruct (filter _ (faculty db)) as [|f fs] eqn:Hfl; [done|].
  intros [= <- <- <-]. exists f.
  assert (Hf : f ∈ filter (λ g, fac_token g = token) (faculty db))
    by (rewrite Hfl; left).
  apply list_elem_of_filter in Hf as [Htok Hf]. done.
Qed.

Lemma wellFormed_scan st fl path now :
  wellFormed st →
  wellFormed (mkStore (handleScan fl (tables st) path now).1 (faculty_seq st)).
Proof.
  intros [Hids Htok Hiss Hact Hdids Hopen Hev].
  destruct (handleScan_log_invariants fl (tables st) path now Hdids Hopen)
    as [Hdids' Hopen'].
  destruct (handleScan_cases fl (tables st) path now)
    as [Heq | [(fid & nm & rl & Hk & _ & Heq)
              | (fid & nm & rl & d & _ & _ & Heq)]].
  - rewrite Heq in *. by split.
  - rewrite Heq in *. cbn [fst] in *. split; cbn [tables faculty dtr faculty_seq];
      try done.
    intros d [Hd | ->%list_elem_of_singleton]%elem_of_app; [by apply Hev|].
    cbn. split; [|by eexists].
    apply selectFacultyByToken_person in Hk as (f & Hf & <- & _). by apply Hiss.
  - rewrite Heq in *. cbn [fst] in *. split; cbn [tables faculty dtr faculty_seq];
      try done.
    intros x [y [-> Hy]]%list_elem_of_fmap.
    destruct (setOutTime_same now (dtr_id d) y) as (_ & -> & ->).
    by apply Hev.
Qed.

Lemma wellFormed_toggle st fl id :
  wellFormed st →
  wellFormed (mkStore (handleFacultyToggle sqlInteger fl (tables st) id).1
                      (faculty_seq st)).
Proof.
  intros [Hids Htok Hiss Hact Hdids Hopen Hev].
  destruct (handleFacultyToggle_tables fl (tables st) id)
    as [-> | [n [_ ->]]]; [by split|].
  assert (Hcol : ∀ g : Faculty → Z,
            (∀ f, g (flipActive n f) = g f) →
            g <$> (flipActive n <$> faculty (tables st))
            = g <$> faculty (tables st)).
  { intros g Hg. rewrite <- list_fmap_compose. apply list_fmap_ext.
    intros i f _. apply Hg. }
  split; cbn [tables updateFacultyToggle faculty dtr faculty_seq]; try done.
  - unfold uniqueFacultyIDs. cbn [faculty updateFacultyToggle].
    rewrite Hcol; [done|]. intros f. apply flipActive_columns.
  - rewrite <- list_fmap_compose.
    erewrite list_fmap_ext; [exact Htok|].
    intros i f _. apply flipActive_columns.
  - intros f [g [-> Hg]]%list_elem_of_fmap.
    destruct (flipActive_columns n g) as (-> & _). by apply Hiss.
  - intros f [g [-> Hg]]%list_elem_of_fmap.
    unfold flipActive. case_decide; [|by apply Hact].
    cbn. destruct (Hact g Hg) as [-> | ->]; [by right | by left].
Qed.

Lemma wellFormed_delete st fault id :
  wellFormed st →
  wellFormed (mkStore (handleFacultyDelete sqlInteger fault (tables st) id).1
                      (faculty_seq st)).
Proof.
  intros [Hids Htok Hiss Hact Hdids Hopen Hev].
  destruct (handleFacultyDelete_tables fault (tables st) id)
    as [-> | [n [_ ->]]]; [by split|].
  split; cbn [tables faculty dtr faculty_seq]; try done.
  - by apply NoDup_fmap_filter.
  - by apply NoDup_fmap_filter.
  - intros f [_ Hf]%list_elem_of_filter. by apply Hiss.
  - intros f [_ Hf]%list_elem_of_filter. by apply Hact.
Qed.

Lemma foldr_max_nonneg (ids : list Z) : 0 ≤ foldr Z.max 0 ids.
Proof. induction ids; cbn [foldr]; lia. Qed.

Lemma nextFacultyID_fresh st f :
  f ∈ faculty (tables st) → fac_id f < nextFacultyID st.
Proof. intros Hf%fac_id_le_max. unfold nextFacultyID. lia. Qed.

Lemma wellFormed_add st fault method name role rateStr entropy :
  wellFormed st →
  wellFormed (handleFacultyAdd ParseFloat fault st method name role rateStr
                               entropy).1.
Proof.
  intros Hwf. pose proof Hwf as [Hids Htok Hiss Hact Hdids Hopen Hev].
  destruct (handleFacultyAdd_tables fault st method name role rateStr entropy)
    as [-> | [-> | [Hnew ->]]]; [done..|].
  assert (Hseq : faculty_seq st < nextFacultyID st)
    by (unfold nextFacultyID; lia).
  split; cbn [fst tables faculty dtr faculty_seq]; try done.
  - unfold uniqueFacultyIDs. cbn [faculty]. rewrite fmap_app.
    apply list.NoDup_app. split; [done|]. split; [|apply list.NoDup_singleton].
    intros id [f [-> Hf]]%list_elem_of_fmap Hid.
    apply list_elem_of_singleton in Hid. cbn in Hid.
    apply nextFacultyID_fresh in Hf. lia.
  - rewrite fmap_app. apply list.NoDup_app. split; [done|].
    split; [|apply list.NoDup_singleton].
    intros tok Htok' ->%list_elem_of_singleton. by apply Hnew.
  - intros f [Hf | ->%list_elem_of_singleton]%elem_of_app.
    + specialize (Hiss f Hf). lia.
    + cbn. unfold nextFacultyID in *.
      pose proof (foldr_max_nonneg (fac_id <$> faculty (tables st))). lia.
  - intros f [Hf | ->%list_elem_of_singleton]%elem_of_app;
      [by apply Hact | by right].
  - intros d Hd. destruct (Hev d Hd) as [? ?]. split; [lia|done].
Qed.

Lemma wellFormed_serve st req :
  wellFormed st → wellFormed (serve sqlInteger ParseFloat st req).
Proof.
  intros Hwf. destruct req; cbn [serve].
  - by apply wellFormed_scan.
  - by apply wellFormed_add.
  - by apply wellFormed_toggle.
  - by apply wellFormed_delete.
Qed.

Lemma wellFormed_run reqs st :
  wellFormed st → wellFormed (foldl (serve sqlInteger ParseFloat) st reqs).
Proof.
  revert st. induction reqs as [|req reqs IH]; intros st Hwf; [done|].
  cbn [foldl]. by apply IH, wellFormed_serve.
Qed.

(** The databases the handlers produce when the requests are served one
    at a time.  Starting from the empty database, after any sequence of
    scan, add, toggle and delete requests, each served to its end before
    the next begins, whichever of their statements fail: person ids,
    tokens and event ids are pairwise different, every [active] flag is
    0 or 1, no person has two open events, and every event has an in-time
    and the id of a person that was once added.  (Requests whose
    statements interleave are outside this statement; two such scans can
    leave a person with two open events.) *)
Theorem reachable_stores_wellFormed (reqs : list Request) :
  wellFormed (foldl (serve sqlInteger ParseFloat) initialStore reqs).
Proof. apply wellFormed_run, wellFormed_initial. Qed.



(** A new person can clock in at once.  After a successful add in a
    database the handlers can produce, a scan of the path made of "/scan/"
    and the new token, with its statements succeeding, answers "Clock IN"
    with the name and role that were entered and opens an event of the new
    person. *)
Theorem handleFacultyAdd_then_scan st st' name role rateStr entropy now
    (Hwf : wellFormed st)
    (Hadded : handleFacultyAdd ParseFloat false st "POST" name role rateStr
                entropy = (st', Redirect "/" 302)) :
  handleScan noScanFaults (tables st') ("/scan/" +:+ randToken entropy) now
  = (mkDB (faculty (tables st'))
          (dtr (tables st')
           ++ [mkDtr (nextDtrID (tables st')) (nextFacultyID st) (Some now) None]),
     ScanPage "Clock IN" name role now).
Proof.
  destruct (handleFacultyAdd_tables false st "POST" name role rateStr entropy)
    as [H | [H | [Hnew H]]]; rewrite H in Hadded; try discriminate.
  injection Hadded as <-. clear H.
  apply handleScan_clock_in.
  - rewrite TrimPrefix_scan_path. unfold selectFacultyByToken.
    cbn [tables faculty]. rewrite list.filter_app.
    rewrite (filter_none _ (faculty (tables st))).
    + rewrite filter_cons. cbn [fac_token]. by rewrite decide_True.
    + intros f Hf Htok. apply Hnew. rewrite <- Htok.
      by apply list_elem_of_fmap_2.
  - unfold openDtr. cbn [tables dtr]. apply filter_none.
    intros d Hd [Hid _]. destruct (wf_events st Hwf d Hd) as [? _].
    unfold nextFacultyID in Hid. lia.
Qed.

Lemma updateFacultyToggle_twice db n :
  updateFacultyToggle (updateFacultyToggle db n) n = db.
Proof.
  destruct db as [fac log]. unfold updateFacultyToggle. cbn [faculty dtr].
  f_equal. rewrite <- list_fmap_compose.
  rewrite <- (list_fmap_id fac) at 2. apply list_fmap_ext.
  intros i f _. apply flipActive_twice.
Qed.

Lemma handleFacultyToggle_flips db id :
  (handleFacultyToggle sqlInteger noToggleFaults db id).1
  = if decide (id = "") then db
    else match sqlInteger id with
         | Some n => updateFacultyToggle db n
         | None => db
         end.
Proof.
  unfold handleFacultyToggle, execToggle. case_decide; [done|].
  cbn [noToggleFaults fault_flip fault_read].
  by destruct (selectActive _ _ _ _).
Qed.

Lemma filter_toggled_id n (fs : list Faculty) f :
  NoDup (fac_id <$> fs) → f ∈ fs → fac_id f = n →
  filter (λ g, fac_id g = n) (flipActive n <$> fs) = [flipActive n f].
Proof.
  intros Hu Hf Hfid. induction fs as [|g fs IH]; [by apply elem_of_nil in Hf|].
  rewrite fmap_cons in Hu. apply list.NoDup_cons in Hu as [Hg Hu].
  rewrite fmap_cons, filter_cons.
  destruct (flipActive_columns n g) as (-> & _).
  apply elem_of_cons in Hf as [<- | Hf].
  - rewrite decide_True by done. f_equal. apply filter_none.
    intros x [y [-> Hy]]%list_elem_of_fmap.
    destruct (flipActive_columns n y) as (-> & _). intros Hyid.
    apply Hg. rewrite Hfid, <- Hyid. by apply list_elem_of_fmap_2.
  - rewrite decide_False; [by apply IH|].
    intros Hgid. apply Hg. rewrite Hgid, <- Hfid.
    by apply list_elem_of_fmap_2.
Qed.

(** Toggling twice.  Two toggles of the same id, with their statements
    succeeding, leave the database exactly as it was, whatever the id. *)
Theorem handleFacultyToggle_twice db id :
  (handleFacultyToggle sqlInteger noToggleFaults
     (handleFacultyToggle sqlInteger noToggleFaults db id).1 id).1 = db.
Proof.
  rewrite !handleFacultyToggle_flips. case_decide; [done|].
  destruct (sqlInteger id); [apply updateFacultyToggle_twice | done].
Qed.

(** A toggle of the id of a person.  With pairwise different person ids
    and its statements succeeding, a toggle of the id of a person replaces
    the person's flag [active] by [1 - active], changes no other row, and
    answers with the id as sent and whether the new flag is 1. *)
Theorem handleFacultyToggle_known_id db id n f
    (Hid : id ≠ "") (Hn : sqlInteger id = Some n)
    (Hu : uniqueFacultyIDs db) (Hf : f ∈ faculty db) (Hfid : fac_id f = n) :
  handleFacultyToggle sqlInteger noToggleFaults db id
  = (updateFacultyToggle db n, ToggleJSON id (1 - fac_active f =? 1))
  ∧ ∀ g, g ∈ faculty db → g ≠ f →
         g ∈ faculty (updateFacultyToggle db n).
Proof.
  split.
  - unfold handleFacultyToggle, execToggle, selectActive.
    rewrite decide_False by done.
    cbn [noToggleFaults fault_flip fault_read]. rewrite Hn.
    cbn [updateFacultyToggle faculty].
    rewrite (filter_toggled_id n (faculty db) f Hu Hf Hfid).
    do 3 f_equal. unfold flipActive.
    by rewrite decide_True.
  - intros g Hg Hne. cbn [updateFacultyToggle faculty].
    apply list_elem_of_fmap. exists g. split; [|done].
    unfold flipActive. rewrite decide_False; [done|].
    intros Hgid. apply Hne.
    apply (faculty_unique_by_id (faculty db)); [done..|congruence].
Qed.

Lemma leftJoin_toggle on db n :
  (∀ f d, on (flipActive n f) d = on f d) →
  leftJoin on (updateFacultyToggle db n) = leftJoin on db.
Proof.
  intros Hon. unfold leftJoin, updateFacultyToggle. cbn [faculty dtr].
  induction (faculty db) as [|f fs IH]; [done|].
  rewrite fmap_cons, !bind_cons, IH. f_equal.
  rewrite (List.filter_ext _ _ (Hon f)).
  destruct (flipActive_columns n f) as (Hi & Hn & Hr & Hrate & _).
  unfold joined. rewrite Hi, Hn, Hr, Hrate. done.
Qed.

(** A toggle does not touch the payroll.  Whatever the outcome of a
    toggle, the event log is as before and both payroll outputs are the
    same as before, for every range: a deactivated person stays in the
    report. *)
Theorem handleFacultyToggle_keeps_payroll fl db id :
  let db' := (handleFacultyToggle sqlInteger fl db id).1 in
  dtr db' = dtr db
  ∧ ∀ ord fault startValue endValue now,
      handlePayroll ord fault db' startValue endValue now
      = handlePayroll ord fault db startValue endValue now
      ∧ handlePayrollCSV ord fault db' startValue endValue now
        = handlePayrollCSV ord fault db startValue endValue now.
Proof.
  intros db'. unfold db'.
  destruct (handleFacultyToggle_tables fl db id) as [-> | [n [_ ->]]];
    [done|].
  split; [done|]. intros ord fault startValue endValue now.
  unfold handlePayroll, handlePayrollCSV.
  destruct (formRange _ _ _) as [start end_].
  unfold payrollReport, csvExport, payrollQuery, payrollCSVQuery.
  destruct fault; [done|].
  rewrite !leftJoin_toggle; [done | |].
  - intros f d. unfold onCSV.
    by destruct (flipActive_columns n f) as (-> & _).
  - intros f d. unfold onPayroll.
    by destruct (flipActive_columns n f) as (-> & _).
Qed.

Lemma updateFacultyToggle_absent db n :
  (∀ f, f ∈ faculty db → fac_id f ≠ n) → updateFacultyToggle db n = db.
Proof.
  intros H. destruct db as [fac log]. unfold updateFacultyToggle.
  cbn [faculty dtr] in *. f_equal.
  rewrite <- (list_fmap_id fac) at 2. apply list_fmap_ext.
  intros i f Hf%list_elem_of_lookup_2. unfold flipActive.
  rewrite decide_False; [done|]. by apply H.
Qed.

(** A toggle of an id that no person has.  When the id sent is not empty
    and is the id of no row of [faculty], the toggle changes nothing and
    answers 404 "Faculty not found". *)
Theorem handleFacultyToggle_unknown_id db id
    (Hid : id ≠ "")
    (Hnone : ∀ f, f ∈ faculty db → sqlInteger id ≠ Some (fac_id f)) :
  handleFacultyToggle sqlInteger noToggleFaults db id
  = (db, NotFound "Faculty not found").
Proof.
  unfold handleFacultyToggle, execToggle, selectActive.
  rewrite decide_False by done. cbn [noToggleFaults fault_flip fault_read].
  destruct (sqlInteger id) as [n|]; [|done].
  assert (Hn : ∀ f, f ∈ faculty db → fac_id f ≠ n).
  { intros f Hf Heq. apply (Hnone f Hf). by rewrite Heq. }
  rewrite (updateFacultyToggle_absent db n Hn).
  by rewrite (filter_none _ (faculty db)) by (intros f Hf; by apply Hn).
Qed.

(** Deleting a person.  A delete of the id of a person, with its statement
    succeeding, removes the rows of [faculty] with that id and nothing
    else: the person's events stay in [dtr].  With pairwise different
    tokens, a later scan of the person's token answers 404, and no payroll
    page has a row with the id. *)
Theorem handleFacultyDelete_removes_person db id n f
    (Hid : id ≠ "") (Hn : sqlInteger id = Some n)
    (Hf : f ∈ faculty db) (Hfid : fac_id f = n)
    (Htok : NoDup (fac_token <$> faculty db)) :
  let db' := mkDB (filter (λ g, fac_id g ≠ n) (faculty db)) (dtr db) in
  handleFacultyDelete sqlInteger false db id = (db', Redirect "/" 303)
  ∧ (∀ fl now,
       handleScan fl db' ("/scan/" +:+ fac_token f) now
       = (db', ScanError 404 "Faculty not found"))
  ∧ (∀ ord startValue endValue now,
       let range := formRange startValue endValue now in
       ∃ Rows GrandTotal,
         handlePayroll ord false db' startValue endValue now
         = PayrollPage range.1 range.2 Rows GrandTotal
         ∧ n ∉ FacultyID <$> Rows).
Proof.
  intros db'. split; [|split].
  - unfold handleFacultyDelete, execDelete.
    by rewrite decide_False, Hn by done.
  - intros fl now. unfold handleScan, selectFacultyByToken.
    destruct (fault_faculty fl); [done|].
    rewrite TrimPrefix_scan_path.
    rewrite (filter_none _ (faculty db')); [done|].
    intros g [Hgid Hg]%list_elem_of_filter Hgt.
    assert (g = f); [|by subst].
    clear -Htok Hf Hg Hgt. induction (faculty db) as [|h fs IH];
      [by apply elem_of_nil in Hf|].
    rewrite fmap_cons in Htok. apply list.NoDup_cons in Htok as [Hh Htok].
    apply elem_of_cons in Hf as [-> | Hf];
      apply elem_of_cons in Hg as [-> | Hg]; [done | | | by apply IH].
    + exfalso. apply Hh. rewrite <- Hgt. by apply list_elem_of_fmap_2.
    + exfalso. apply Hh. rewrite Hgt. by apply list_elem_of_fmap_2.
  - intros ord startValue endValue now range.
    eexists _, _. split; [apply handlePayroll_page|]. fold range.
    intros [r [Hr Hin]]%list_elem_of_fmap.
    apply reportRows_elem in Hin as [j [Hj ->]].
    destruct (head_filter_id _ _ _ Hj) as [_ Hjin].
    apply leftJoin_person in Hjin as (g & Hg & Hgid & _).
    apply list_elem_of_filter in Hg as [Hne _]. cbn in Hr. congruence.
Qed.

End AdminFacts.
(** ** The administration handlers on the sample requests *)

Section AdminExamples.
Import GoStrings GoMath GoTime Sql Token.

Lemma afterDelete_tables :
  tables afterDelete = mkDB [] [mkDtr 1 1 (Some (clock 8 0)) None]
  ∧ faculty_seq afterDelete = 1.
Proof. split; reflexivity. Qed.


Lemma handleFacultyAdd_then_scan_witness :
  handleScan noScanFaults (tables afterSecondAdd)
    ("/scan/" +:+ randToken entropyB) (clock 9 0)
  = (mkDB (faculty (tables afterSecondAdd))
          (dtr (tables afterSecondAdd)
           ++ [mkDtr (nextDtrID (tables afterSecondAdd))
                     (nextFacultyID afterDelete) (Some (clock 9 0)) None]),
     ScanPage "Clock IN" "Ben Reyes" "Lecturer" (clock 9 0)).
Proof.
  apply (handleFacultyAdd_then_scan decimalRate afterDelete afterSecondAdd
           "Ben Reyes" "Lecturer" "80" entropyB).
  - apply wellFormed_run, wellFormed_initial.
  - reflexivity.
Defined.

Lemma workdayLog_faculty f :
  f ∈ faculty workdayLog → f = ana ∨ f = ben.
Proof.
  intros Hf. apply elem_of_cons in Hf as [-> | Hf]; [by left|].
  apply list_elem_of_singleton in Hf as ->. by right.
Qed.

Lemma workdayLog_unique_faculty : uniqueFacultyIDs workdayLog.
Proof.
  unfold uniqueFacultyIDs. cbn.
  apply list.NoDup_cons. split; [|apply list.NoDup_singleton].
  by intros ?%list_elem_of_singleton.
Qed.

Lemma workdayLog_unique_tokens : NoDup (fac_token <$> faculty workdayLog).
Proof.
  cbn. apply list.NoDup_cons. split; [|apply list.NoDup_singleton].
  by intros ?%list_elem_of_singleton.
Qed.

Lemma handleFacultyToggle_known_id_witness :
  handleFacultyToggle decimal noToggleFaults workdayLog "2"
  = (updateFacultyToggle workdayLog 2, ToggleJSON "2" (1 - fac_active ben =? 1))
  ∧ ∀ g, g ∈ faculty workdayLog → g ≠ ben →
         g ∈ faculty (updateFacultyToggle workdayLog 2).
Proof.
  apply (handleFacultyToggle_known_id decimal workdayLog "2" 2 ben);
    [done | reflexivity | apply workdayLog_unique_faculty | | reflexivity].
  apply elem_of_cons. right. by left.
Defined.

Lemma handleFacultyToggle_unknown_id_witness :
  handleFacultyToggle decimal noToggleFaults workdayLog "7"
  = (workdayLog, NotFound "Faculty not found").
Proof.
  apply handleFacultyToggle_unknown_id; [done|].
  intros f [-> | ->]%workdayLog_faculty; vm_compute; discriminate.
Defined.

Lemma handleFacultyDelete_removes_person_witness :
  let db' := mkDB (filter (λ g, fac_id g ≠ 1) (faculty workdayLog))
                  (dtr workdayLog) in
  handleFacultyDelete decimal false workdayLog "1" = (db', Redirect "/" 303)
  ∧ (∀ fl now,
       handleScan fl db' ("/scan/" +:+ fac_token ana) now
       = (db', ScanError 404 "Faculty not found"))
  ∧ (∀ ord startValue endValue now,
       let range := formRange startValue endValue now in
       ∃ Rows GrandTotal,
         handlePayroll ord false db' startValue endValue now
         = PayrollPage range.1 range.2 Rows GrandTotal
         ∧ 1 ∉ FacultyID <$> Rows).
Proof.
  apply (handleFacultyDelete_removes_person decimal workdayLog "1" 1 ana);
    [done | reflexivity | by left | reflexivity
    | apply workdayLog_unique_tokens].
Defined.

End AdminExamples.

(** ** The QR cards *)

Section PrintCardsFacts.
Import GoMath Sql Pdf.
Local Open Scope Qc_scope.

Variable Join : string → string → string.

Lemma of_int_add a b : of_int a + of_int b = of_int (a + b).
Proof. unfold of_int. by rewrite Z2Qc_inj_add. Qed.

Lemma moveGrid_gridAt k :
  (0 ≤ k)%Z → moveGrid (gridAt k) = (gridAt (k + 1), pageBreak k).
Proof.
  intros Hk. unfold moveGrid, gridAt, pageBreak, cardsPerRow, cardsPerCol,
    cardW, cardH, spacingX, spacingY, marginX, marginY.
  cbn [grid_x grid_y grid_col grid_row].
  rewrite !of_int_add.
  destruct (Z.leb_spec 3 (k mod 3 + 1)) as [Hc | Hc].
  - destruct (Z.leb_spec 3 ((k / 3) mod 3 + 1)) as [Hr | Hr].
    + rewrite decide_True by (Z.div_mod_to_equations; lia).
      f_equal. f_equal; [f_equal | f_equal | |];
        Z.div_mod_to_equations; lia.
    + rewrite decide_False by (Z.div_mod_to_equations; lia).
      f_equal. f_equal; [f_equal | f_equal | |];
        Z.div_mod_to_equations; lia.
  - rewrite decide_False by (Z.div_mod_to_equations; lia).
    f_equal. f_equal; [f_equal | f_equal | |];
      Z.div_mod_to_equations; lia.
Qed.

Lemma gridAfter_gridAt k : gridAfter k = gridAt (Z.of_nat k).
Proof.
  induction k as [|k IH]; [done|].
  change (gridAfter (S k)) with (moveGrid (gridAfter k)).1.
  rewrite IH, moveGrid_gridAt by lia. cbn [fst].
  f_equal. lia.
Qed.

Lemma cardLoop_gridAt k rows :
  (0 ≤ k)%Z →
  cardLoop Join (gridAt k) rows
  = concat (imap (λ i c, drawCard Join (gridAt (k + Z.of_nat i)) c
                         ++ pageBreak (k + Z.of_nat i)) rows).
Proof.
  revert k. induction rows as [|c rows IH]; intros k Hk; [done|].
  cbn [cardLoop imap concat]. rewrite moveGrid_gridAt by done.
  rewrite Z.add_0_r, <- app_assoc. do 2 f_equal.
  rewrite IH by lia. f_equal. apply imap_ext. intros i c' _. cbn.
  by replace (k + 1 + Z.of_nat i)%Z with (k + Z.of_nat (S i))%Z by lia.
Qed.

(** The layout in closed form.  With the query succeeding, the document
    is made of the calls before the loop and then, for the person of index
    [k] (from 0) among those with [active = 1] in the order of the table,
    the calls of a card at column [k mod 3] and row [(k / 3) mod 3] of the
    grid, followed by a new page after every ninth card. *)
Theorem handlePrintQRCards_layout db :
  handlePrintQRCards Join false db
  = PdfDocument
      (newDocument
       ++ concat (imap (λ k c, drawCard Join (gridAt (Z.of_nat k)) c
                               ++ pageBreak (Z.of_nat k))
                       (cardOf <$> filter (λ f, fac_active f = 1%Z)
                                          (faculty db)))).
Proof.
  unfold handlePrintQRCards, selectActiveFaculty. do 2 f_equal.
  change startGrid with (gridAt 0). rewrite cardLoop_gridAt by lia.
  done.
Qed.

Lemma quarter_card : (cardW - qrSize) / of_int 2 = of_int 16.
Proof. apply Qc_is_canon. by vm_compute. Qed.

Lemma of_int_le a b : (a ≤ b)%Z → of_int a <= of_int b.
Proof. intros H. exact (proj1 (Z2Qc_inj_le a b) H). Qed.

(** The cards fit the page and stay apart.  However many cards the loop
    has drawn, the next border lies within the A4 page, its QR image lies
    within the border and below the two lines of text, and the borders of
    two different cards between the same page breaks do not overlap. *)
Theorem cards_within_page_and_apart (k k' : nat) :
  let g := gridAfter k in
  let g' := gridAfter k' in
  (0 <= grid_x g ∧ grid_x g + cardW <= pageW
   ∧ 0 <= grid_y g ∧ grid_y g + cardH <= pageH)
  ∧ (grid_x g <= qrX g ∧ qrX g + qrSize <= grid_x g + cardW
     ∧ grid_y g + of_int 14 + of_int 5 <= qrY g
     ∧ qrY g + qrSize <= grid_y g + cardH)
  ∧ (k ≠ k' → (Z.of_nat k / 9 = Z.of_nat k' / 9)%Z →
     grid_x g + cardW <= grid_x g' ∨ grid_x g' + cardW <= grid_x g
     ∨ grid_y g + cardH <= grid_y g' ∨ grid_y g' + cardH <= grid_y g).
Proof.
  intros g g'. unfold g, g', qrX, qrY. rewrite !gridAfter_gridAt.
  rewrite quarter_card.
  unfold gridAt, cardW, cardH, pageW, pageH, qrSize.
  cbn [grid_x grid_y]. rewrite !of_int_add.
  rewrite <- Z2Qc_inj_0.
  assert (Hk : (0 ≤ Z.of_nat k)%Z) by lia.
  assert (Hk' : (0 ≤ Z.of_nat k')%Z) by lia.
  split; [|split].
  - repeat split; apply of_int_le; Z.div_mod_to_equations; lia.
  - repeat split; apply of_int_le; Z.div_mod_to_equations; lia.
  - intros Hne Hpage.
    assert (Z.of_nat k ≠ Z.of_nat k') as Hne' by lia.
    assert ((Z.of_nat k mod 3 < Z.of_nat k' mod 3
             ∨ Z.of_nat k' mod 3 < Z.of_nat k mod 3
             ∨ (Z.of_nat k / 3) mod 3 < (Z.of_nat k' / 3) mod 3
             ∨ (Z.of_nat k' / 3) mod 3 < (Z.of_nat k / 3) mod 3)%Z)
      as [H | [H | [H | H]]] by (Z.div_mod_to_equations; lia).
    + left. apply of_int_le. lia.
    + right; left. apply of_int_le. lia.
    + right; right; left. apply of_int_le. lia.
    + right; right; right. apply of_int_le. lia.
Qed.

Lemma pageCount_app cs cs' :
  pageCount (cs ++ cs') = (pageCount cs + pageCount cs')%Z.
Proof.
  induction cs as [|c cs IH]; [done|].
  destruct c; cbn [app pageCount]; rewrite ?IH; lia.
Qed.

Lemma imageFiles_app cs cs' :
  imageFiles (cs ++ cs') = imageFiles cs ++ imageFiles cs'.
Proof.
  induction cs as [|c cs IH]; [done|].
  destruct c; cbn [app imageFiles]; by rewrite ?IH.
Qed.

Lemma pageCount_pageBreak k :
  (0 ≤ k)%Z → pageCount (pageBreak k) = ((k + 1) / 9 - k / 9)%Z.
Proof.
  intros Hk. unfold pageBreak. case_decide; cbn [pageCount];
    Z.div_mod_to_equations; lia.
Qed.

Lemma pageCount_cardLoop k rows :
  (0 ≤ k)%Z →
  pageCount (cardLoop Join (gridAt k) rows)
  = ((k + Z.of_nat (length rows)) / 9 - k / 9)%Z.
Proof.
  revert k. induction rows as [|c rows IH]; intros k Hk.
  - cbn [cardLoop pageCount length]. rewrite Z.add_0_r. lia.
  - cbn [cardLoop]. rewrite moveGrid_gridAt by done.
    rewrite !pageCount_app, pageCount_pageBreak, IH by lia.
    cbn [drawCard pageCount length].
    replace (k + 1 + Z.of_nat (length rows))%Z
      with (k + Z.of_nat (S (length rows)))%Z by lia.
    lia.
Qed.

Lemma imageFiles_cardLoop g rows :
  imageFiles (cardLoop Join g rows) = (λ c, qrPath Join (card_token c)) <$> rows.
Proof.
  revert g. induction rows as [|c rows IH]; intros g; [done|].
  cbn [cardLoop]. destruct (moveGrid g) as [g1 calls] eqn:Hm.
  rewrite !imageFiles_app, IH, fmap_cons. cbn [drawCard imageFiles app].
  f_equal. replace (imageFiles calls) with (@nil string); [done|].
  unfold moveGrid in Hm. repeat case_match; by injection Hm as <- <-.
Qed.

Lemma last_cardLoop k rows :
  (0 ≤ k)%Z → rows ≠ [] → ((k + Z.of_nat (length rows)) mod 9 = 0)%Z →
  list.last (cardLoop Join (gridAt k) rows) = Some AddPage.
Proof.
  revert k. induction rows as [|c rows IH]; intros k Hk Hne Hmod; [done|].
  cbn [cardLoop]. rewrite moveGrid_gridAt by done.
  destruct rows as [|c' rows].
  - cbn [cardLoop length] in *. rewrite app_nil_r.
    unfold pageBreak. rewrite decide_True by done.
    by rewrite last_app.
  - rewrite !app_assoc, last_app. rewrite IH; [done | lia | done |].
    cbn [length] in *.
    by replace (k + 1 + Z.of_nat (S (length rows)))%Z
      with (k + Z.of_nat (S (S (length rows))))%Z by lia.
Qed.

Lemma pageCount_document db :
  pageCount (newDocument
             ++ cardLoop Join startGrid
                  (cardOf <$> filter (λ f, fac_active f = 1%Z) (faculty db)))
  = (1 + Z.of_nat (length (filter (λ f, fac_active f = 1%Z) (faculty db))) / 9)%Z.
Proof.
  rewrite pageCount_app. change startGrid with (gridAt 0).
  rewrite pageCount_cardLoop, length_fmap by lia. cbn [newDocument pageCount].
  rewrite Z.add_0_l. change (0 / 9)%Z with 0%Z. lia.
Qed.

(** The pages of the document.  With the query succeeding and [n] persons
    with [active = 1], the document places [n] images and opens
    [1 + n / 9] pages; when [n] is a multiple of nine the last call opens
    a page, which stays empty. *)
Theorem handlePrintQRCards_pages db :
  let n := length (filter (λ f, fac_active f = 1%Z) (faculty db)) in
  ∃ calls,
    handlePrintQRCards Join false db = PdfDocument calls
    ∧ length (imageFiles calls) = n
    ∧ pageCount calls = (1 + Z.of_nat n / 9)%Z
    ∧ ((Z.of_nat n mod 9 = 0)%Z → list.last calls = Some AddPage).
Proof.
  intros n. eexists. split; [reflexivity|].
  set (rows := cardOf <$> filter (λ f, fac_active f = 1%Z) (faculty db)).
  assert (Hn : length rows = n) by (unfold rows; by rewrite length_fmap).
  split; [|split].
  - rewrite imageFiles_app, imageFiles_cardLoop. cbn [newDocument imageFiles app].
    by rewrite length_fmap.
  - apply pageCount_document.
  - intros Hmod. destruct rows as [|c rows'] eqn:Hrows.
    + by cbn.
    + rewrite last_app. change startGrid with (gridAt 0).
      rewrite last_cardLoop; [done | lia | done |].
      rewrite Hn. by rewrite Z.add_0_l.
Qed.

Lemma imageFiles_document fault db calls :
  handlePrintQRCards Join fault db = PdfDocument calls →
  imageFiles calls
  = (λ f, qrPath Join (fac_token f))
    <$> filter (λ f, fac_active f = 1%Z) (faculty db).
Proof.
  unfold handlePrintQRCards, selectActiveFaculty.
  destruct fault; [done|]. intros [= <-].
  cbn [imageFiles]. rewrite imageFiles_cardLoop.
  by rewrite <- list_fmap_compose.
Qed.

End PrintCardsFacts.
(** ** The cards after a toggle and after an add *)

Section CardsAfterToggle.
Import GoMath Sql Pdf Token.

Variable sqlInteger : string → option Z.
Variable Join : string → string → string.

(** The cards after a toggle.  After a toggle of an id, with its
    statements succeeding, the cards printed are those of the persons
    with that id whose flag was 0 and of the other persons whose flag
    was 1, in the order of the table: a person switched off loses the
    card, a person switched on gets it back at the old place. *)
Theorem handleFacultyToggle_then_print db id n
    (Hid : id ≠ "") (Hn : sqlInteger id = Some n) :
  ∃ calls,
    handlePrintQRCards Join false
      (handleFacultyToggle sqlInteger noToggleFaults db id).1
    = PdfDocument calls
    ∧ imageFiles calls
      = (λ f, qrPath Join (fac_token f))
        <$> filter (λ f, (fac_id f = n ∧ fac_active f = 0)
                         ∨ (fac_id f ≠ n ∧ fac_active f = 1))
                   (faculty db).
Proof.
  eexists. split; [reflexivity|].
  rewrite (imageFiles_document Join false _ _ eq_refl).
  rewrite handleFacultyToggle_flips, decide_False, Hn by done.
  cbn [updateFacultyToggle faculty].
  induction (faculty db) as [|f fs IH]; [done|].
  rewrite fmap_cons, !filter_cons.
  destruct (flipActive_columns n f) as (_ & _ & _ & _ & Htok).
  assert (Hiff : fac_active (flipActive n f) = 1
                 ↔ (fac_id f = n ∧ fac_active f = 0)
                   ∨ (fac_id f ≠ n ∧ fac_active f = 1)).
  { unfold flipActive. case_decide; cbn [fac_active]; split.
    - intros. left. split; [done | lia].
    - intros [[_ ?] | [? _]]; [lia | done].
    - intros. by right.
    - by intros [[? _] | [_ ?]]. }
  repeat case_decide; rewrite ?fmap_cons, IH; try done.
  - by rewrite Htok.
  - exfalso. tauto.
  - exfalso. tauto.
Qed.

End CardsAfterToggle.

Section CardsAfterAdd.
Import GoMath Sql Pdf Token.

Variable ParseFloat : string → float64.
Variable Join : string → string → string.

(** The card of a new person.  After a successful add the cards printed
    are those printed before and, at the last place, the card of the new
    token. *)
Theorem handleFacultyAdd_then_print st st' name role rateStr entropy
    (Hadded : handleFacultyAdd ParseFloat false st "POST" name role rateStr
                entropy = (st', Redirect "/" 302)) :
  ∃ calls calls',
    handlePrintQRCards Join false (tables st) = PdfDocument calls
    ∧ handlePrintQRCards Join false (tables st') = PdfDocument calls'
    ∧ imageFiles calls'
      = imageFiles calls ++ [qrPath Join (randToken entropy)]
    ∧ pageCount calls ≤ pageCount calls' ≤ pageCount calls + 1.
Proof.
  destruct (handleFacultyAdd_tables ParseFloat false st "POST" name role
              rateStr entropy)
    as [H | [H | [Hnew H]]]; rewrite H in Hadded; try discriminate.
  injection Hadded as <-. clear H.
  eexists _, _. split; [reflexivity|]. split; [reflexivity|].
  split.
  - rewrite !(imageFiles_document Join false _ _ eq_refl).
    cbn [tables faculty]. rewrite list.filter_app, fmap_app. f_equal.
  - rewrite !pageCount_document. cbn [tables faculty].
    rewrite list.filter_app, length_app. cbn [filter list_filter].
    case_decide; cbn [length]; Z.div_mod_to_equations; lia.
Qed.

End CardsAfterAdd.
(** ** Sessions and the login *)

Section AuthFacts.
Import Auth.
Context {S A : Type}.

Lemma loggedIn_insert b (s : Session) :
  loggedIn (<["authenticated" := VBool b]> s) = b.
Proof.
  unfold loggedIn, authenticatedValue, Session.
  by rewrite lookup_insert_eq.
Qed.

Lemma requireLogin_loggedIn (next : HandlerFunc S A) r st :
  requireLogin next r st
  = if loggedIn (session r) then next r st
    else if decide (Path r = "/login") then next r st
    else (st, mkReply None (Found "/login")).
Proof.
  unfold requireLogin, loggedIn.
  by destruct (authenticatedValue (session r)) as [[] []].
Qed.

(** Who gets logged in.  After a request to the login page the session
    lets through exactly when it did before or the request is a POST with
    the user name and the password of the administrator; the request is
    redirected to "/" exactly in the second case, and in every other case
    no session is saved. *)
Theorem handleLoginPage_logs_in_iff (r : HttpRequest) :
  let reply := handleLoginPage (A:=A) r in
  let admin := bool_decide (adminLogin r) in
  loggedIn (sessionAfter r reply) = loggedIn (session r) || admin
  ∧ (answer reply = Found "/" ↔ admin = true)
  ∧ (admin = false → saved reply = None).
Proof.
  intros reply admin. unfold reply, admin, handleLoginPage, sessionAfter, adminLogin.
  destruct (decide (Method r = "GET")) as [HG | HG].
  - rewrite bool_decide_eq_false_2 by (intros [? _]; congruence).
    simpl. rewrite orb_false_r. by repeat split.
  - destruct (decide (Method r = "POST")) as [HP | HP].
    + destruct (decide (_ ∧ _)) as [Hc | Hc].
      * rewrite bool_decide_eq_true_2 by (by destruct Hc).
        simpl. rewrite loggedIn_insert, orb_true_r. by repeat split.
      * rewrite bool_decide_eq_false_2 by (intros (_ & ? & ?); by apply Hc).
        simpl. rewrite orb_false_r. by repeat split.
    + rewrite bool_decide_eq_false_2 by (by intros [? _]).
      simpl. rewrite orb_false_r. by repeat split.
Qed.

Lemma loggedIn_empty : loggedIn ∅ = false.
Proof. reflexivity. Qed.

(** The guard without a login.  Whatever handler is wrapped: a request
    for a path other than "/login" that comes with a new session, or with
    the session a logout has saved, is redirected to "/login"; the handler
    is not run, so the state of the server stays as it is, and no session
    is saved. *)
Theorem requireLogin_after_logout
    (next : HandlerFunc S A) (r0 r : HttpRequest) (st : S)
    (Hsession : session r = ∅
                ∨ session r = sessionAfter r0 (handleLogout (A:=A) r0))
    (Hpath : Path r ≠ "/login") :
  requireLogin next r st = (st, mkReply None (Found "/login")).
Proof.
  rewrite requireLogin_loggedIn. destruct Hsession as [-> | ->].
  - by rewrite loggedIn_empty, decide_False.
  - unfold sessionAfter, handleLogout. simpl.
    by rewrite loggedIn_insert, decide_False.
Qed.

(** The guard after a login.  Whatever handler is wrapped: a request that
    comes with the session a login of the administrator has saved is
    handled by the wrapped handler. *)
Theorem requireLogin_after_login
    (next : HandlerFunc S A) (r0 r : HttpRequest) (st : S)
    (Hadmin : adminLogin r0)
    (Hsession : session r = sessionAfter r0 (handleLoginPage (A:=A) r0)) :
  requireLogin next r st = next r st.
Proof.
  destruct Hadmin as (HP & Hu & Hpw).
  rewrite requireLogin_loggedIn, Hsession.
  unfold sessionAfter, handleLoginPage.
  rewrite decide_False by (rewrite HP; done).
  rewrite decide_True by done. rewrite decide_True by done.
  simpl. by rewrite loggedIn_insert.
Qed.

Lemma loggedIn_visit (s : Session) v :
  loggedIn (visit (A:=A) s v)
  = if v.1 then false else loggedIn s || bool_decide (adminLogin v.2).
Proof.
  destruct v as [[] r]; unfold visit; cbn [fst snd].
  - unfold sessionAfter, handleLogout. simpl. apply loggedIn_insert.
  - unfold sessionAfter, handleLoginPage, adminLogin, withSession.
    cbn [Method FormValue session].
    destruct (decide (Method r = "GET")) as [HG | HG].
    + rewrite bool_decide_eq_false_2 by (intros [? _]; congruence).
      simpl. by rewrite orb_false_r.
    + destruct (decide (Method r = "POST")) as [HP | HP].
      * destruct (decide (_ ∧ _)) as [Hc | Hc].
        -- rewrite bool_decide_eq_true_2 by (by destruct Hc).
           simpl. by rewrite loggedIn_insert, orb_true_r.
        -- rewrite bool_decide_eq_false_2
             by (intros (_ & ? & ?); by apply Hc).
           simpl. by rewrite orb_false_r.
      * rewrite bool_decide_eq_false_2 by (by intros [? _]).
        simpl. by rewrite orb_false_r.
Qed.

(** Sessions over a sequence of visits.  A client that starts with a new
    session and visits the login page and the logout in any order,
    keeping the cookie, ends with a session that the guard lets through
    exactly when one of the visits was a login of the administrator and
    no logout came after it. *)
Theorem browse_logged_in_iff (vs : list (bool * HttpRequest)) :
  loggedIn (browse (A:=A) ∅ vs) = true
  ↔ ∃ before r after,
      vs = before ++ (false, r) :: after
      ∧ adminLogin r
      ∧ ∀ v, v ∈ after → v.1 = false.
Proof.
  unfold browse. induction vs as [|v vs IH] using rev_ind.
  - split; [done|]. intros (before & r & after & Heq & _).
    by destruct before.
  - rewrite foldl_app. cbn [foldl]. rewrite loggedIn_visit.
    destruct v as [[] r]; cbn [fst snd].
    + split; [done|]. intros (before & r' & after & Heq & _ & Hafter).
      destruct after as [|a after _] using rev_ind.
      * apply app_inj_tail in Heq as [_ [=]].
      * rewrite app_comm_cons, app_assoc in Heq.
        apply app_inj_tail in Heq as [_ <-].
        specialize (Hafter (true, r)). cbn in Hafter.
        discriminate Hafter. apply elem_of_app. right. by left.
    + rewrite orb_true_iff, IH, bool_decide_eq_true. split.
      * intros [(before & r' & after & -> & Hr' & Hafter) | Hr].
        -- exists before, r', (after ++ [(false, r)]).
           rewrite <- app_assoc. split; [done|]. split; [done|].
           intros v [Hv | ->%list_elem_of_singleton]%elem_of_app;
             [by apply Hafter | done].
        -- exists vs, r, []. split; [done|]. split; [done|].
           by intros v Hv%elem_of_nil.
      * intros (before & r' & after & Heq & Hr' & Hafter).
        destruct after as [|a after _] using rev_ind.
        -- apply app_inj_tail in Heq as [_ [= ->]]. by right.
        -- rewrite app_comm_cons, app_assoc in Heq.
           apply app_inj_tail in Heq as [-> <-].
           left. exists before, r', after. split; [done|]. split; [done|].
           intros v Hv. apply Hafter. apply elem_of_app. by left.
Qed.

End AuthFacts.
(** ** The home page *)

Section HomeFacts.
Import GoMath GoTime Sql Token.

Variable sqlInteger : string → option Z.
Variable ParseFloat : string → float64.
Variable Format : Time → string.


End HomeFacts.
(** ** The cards and the guard on the samples *)

Section RouteExamples.
Import GoMath GoTime Sql Token Pdf Auth.

Lemma handleFacultyToggle_then_print_witness :
  ∃ calls,
    handlePrintQRCards joinTwo false
      (handleFacultyToggle decimal noToggleFaults workdayLog "2").1
    = PdfDocument calls
    ∧ imageFiles calls
      = (λ f, qrPath joinTwo (fac_token f))
        <$> filter (λ f, (fac_id f = 2 ∧ fac_active f = 0)
                         ∨ (fac_id f ≠ 2 ∧ fac_active f = 1))
                   (faculty workdayLog).
Proof.
  apply (handleFacultyToggle_then_print decimal joinTwo workdayLog "2" 2);
    [done | reflexivity].
Defined.

Lemma handleFacultyAdd_then_print_witness :
  ∃ calls calls',
    handlePrintQRCards joinTwo false (tables afterDelete) = PdfDocument calls
    ∧ handlePrintQRCards joinTwo false (tables afterSecondAdd)
      = PdfDocument calls'
    ∧ imageFiles calls'
      = imageFiles calls ++ [qrPath joinTwo (randToken entropyB)]
    ∧ pageCount calls ≤ pageCount calls' ≤ pageCount calls + 1.
Proof.
  apply (handleFacultyAdd_then_print decimalRate joinTwo afterDelete
           afterSecondAdd "Ben Reyes" "Lecturer" "80" entropyB).
  reflexivity.
Defined.

Lemma requireLogin_after_logout_witness :
  facultyDeleteRoute (deleteRequest ∅) workdayLog
  = (workdayLog, mkReply None (Found "/login")).
Proof.
  apply (requireLogin_after_logout facultyDelete loginRequest
           (deleteRequest ∅) workdayLog); [by left | done].
Defined.

Lemma requireLogin_after_login_witness :
  facultyDeleteRoute
    (deleteRequest (sessionAfter loginRequest
                      (handleLoginPage (A:=AdminResponse) loginRequest)))
    workdayLog
  = facultyDelete
      (deleteRequest (sessionAfter loginRequest
                        (handleLoginPage (A:=AdminResponse) loginRequest)))
      workdayLog.
Proof.
  apply (requireLogin_after_login facultyDelete loginRequest); [|reflexivity].
  by repeat split.
Defined.

End RouteExamples.
